(** * Coding Command Center: the local API server (server.js)

    A shallow embedding of the request handlers of [server.js] that the
    dashboard relies on for repository snapshots ([/api/git-status]),
    blocking command runs ([/api/run-command]) and supervised background
    processes ([/api/spawn-command], [/api/process-url/:pid],
    [/api/kill-process]), followed by the properties proved about them.

    JavaScript strings are sequences of UTF-16 code units and are modelled
    as [list N]; numbers that the handlers compute are integers and are
    modelled in [Z]. *)

From Stdlib Require Import ZArith NArith Ascii String DecimalString DecimalN.
From stdpp Require Import gmap list.

Local Open Scope N_scope.

(* ===================================================================== *)
(** * JavaScript string primitives used by the server                     *)
(* ===================================================================== *)

Module JS.

(** A string value: its UTF-16 code units. *)
Abbreviation jsstring := (list N).

(** A string literal of the source (ASCII only). *)
Definition u (s : string) : jsstring :=
  map N_of_ascii (list_ascii_of_string s).

(** WhiteSpace and LineTerminator code units: what [String.prototype.trim]
    strips, what [parseInt] skips and what the regular expression class
    [\s] matches. *)
Definition is_space (c : N) : bool :=
  ((9 <=? c) && (c <=? 13))
  || (c =? 32) || (c =? 160) || (c =? 5760)
  || ((8192 <=? c) && (c <=? 8202))
  || (c =? 8232) || (c =? 8233) || (c =? 8239) || (c =? 8287)
  || (c =? 12288) || (c =? 65279).

Definition is_digit (c : N) : bool := (48 <=? c) && (c <=? 57).

Fixpoint drop_while (p : N -> bool) (s : jsstring) : jsstring :=
  match s with
  | [] => []
  | c :: s' => if p c then drop_while p s' else s
  end.

Fixpoint take_while (p : N -> bool) (s : jsstring) : jsstring :=
  match s with
  | [] => []
  | c :: s' => if p c then c :: take_while p s' else []
  end.

Definition trimStart (s : jsstring) : jsstring := drop_while is_space s.

Definition trimEnd (s : jsstring) : jsstring :=
  rev (drop_while is_space (rev s)).

(** [s.trim()] *)
Definition trim (s : jsstring) : jsstring := trimEnd (trimStart s).

(** [strip_prefix p s] is the rest of [s] after [p] when [s] begins with
    [p]. *)
Fixpoint strip_prefix (p s : jsstring) : option jsstring :=
  match p, s with
  | [], _ => Some s
  | _ :: _, [] => None
  | a :: p', b :: s' => if a =? b then strip_prefix p' s' else None
  end.

(** [s.startsWith(p)] *)
Definition startsWith (p s : jsstring) : bool :=
  match strip_prefix p s with Some _ => true | None => false end.

(** [s.indexOf(p)], [None] standing for -1. *)
Fixpoint indexOf (p s : jsstring) : option nat :=
  if startsWith p s then Some O
  else match s with
       | [] => None
       | _ :: s' => S <$> indexOf p s'
       end.

(** [s.replace(p, r)] for a string pattern [p] and a replacement [r]
    without [$]: the first occurrence of [p], if any, is replaced. *)
Definition replace (p r s : jsstring) : jsstring :=
  match indexOf p s with
  | None => s
  | Some i => take i s ++ r ++ drop (i + length p)%nat s
  end.

(** [s.split(c)] for a one-character separator. *)
Fixpoint split (c : N) (s : jsstring) : list jsstring :=
  match s with
  | [] => [[]]
  | x :: s' =>
      if x =? c then [] :: split c s'
      else match split c s' with
           | l :: ls => (x :: l) :: ls
           | [] => [[x]]
           end
  end.

(** [a.join(sep)] *)
Fixpoint join (sep : jsstring) (a : list jsstring) : jsstring :=
  match a with
  | [] => []
  | [x] => x
  | x :: a' => x ++ sep ++ join sep a'
  end.

(** [s.substring(0, 2)] and [s.substring(3)] *)
Definition substring_to (n : nat) (s : jsstring) : jsstring := take n s.
Definition substring_from (n : nat) (s : jsstring) : jsstring := drop n s.

(** [s[i] === c]: false when [s[i]] is [undefined]. *)
Definition char_is (s : jsstring) (i : nat) (c : N) : bool :=
  match s !! i with
  | Some x => x =? c
  | None => false
  end.

(** Truthiness of a string, and of a string-or-null. *)
Definition truthy (s : jsstring) : bool :=
  match s with [] => false | _ :: _ => true end.

Definition truthy_opt (o : option jsstring) : bool :=
  match o with Some s => truthy s | None => false end.

(** A value interpolated in a template literal: [null] prints as the
    four letters null. *)
Definition template (o : option jsstring) : jsstring :=
  match o with Some s => s | None => u "null" end.

(** ** [parseInt] without a radix argument *)

Definition hex_value (c : N) : option Z :=
  if (48 <=? c) && (c <=? 57) then Some (Z.of_N (c - 48))
  else if (97 <=? c) && (c <=? 102) then Some (Z.of_N (c - 87))
  else if (65 <=? c) && (c <=? 70) then Some (Z.of_N (c - 55))
  else None.

Definition dec_value (c : N) : option Z :=
  if is_digit c then Some (Z.of_N (c - 48)) else None.

(** The longest prefix of radix-[r] digits, read as a number; [None] when
    there is no digit at all. *)
Fixpoint digits_from (value : N -> option Z) (r : Z) (acc : option Z)
         (s : jsstring) : option Z :=
  match s with
  | [] => acc
  | c :: s' =>
      match value c with
      | Some d =>
          digits_from value r
            (Some (match acc with Some a => a * r + d | None => d end)%Z) s'
      | None => acc
      end
  end.

(** [parseInt(s)]: [None] is NaN. Leading white space is skipped, a sign
    is read, a [0x]/[0X] prefix selects radix 16, and the longest prefix
    of digits is the value. The value is the mathematical integer; JS
    holds it as a double, which is the same number below 2^53. *)
Definition parseInt (s : jsstring) : option Z :=
  let s1 := trimStart s in
  let '(sign, s2) :=
    match s1 with
    | 45 :: r => ((-1)%Z, r)
    | 43 :: r => (1%Z, r)
    | _ => (1%Z, s1)
    end in
  let n :=
    match s2 with
    | 48 :: 120 :: r => digits_from hex_value 16 None r
    | 48 :: 88 :: r => digits_from hex_value 16 None r
    | _ => digits_from dec_value 10 None s2
    end in
  (fun v => (sign * v)%Z) <$> n.

(** [x || 0] for a number [x]: NaN and zero give 0. *)
Definition or_zero (x : option Z) : Z :=
  match x with Some v => v | None => 0%Z end.

End JS.

(* ===================================================================== *)
(** * Effects of a request handler                                        *)
(* ===================================================================== *)

Module Eff.
Import JS.

(** The outcome of a statement: a value, or a thrown exception carrying
    its message. *)
Inductive result (A : Type) : Type :=
| Ok (a : A)
| Throw (e : jsstring).
Arguments Ok {A} a.
Arguments Throw {A} e.

(** What a handler does to the outside world, in order. *)
Inductive io : Type :=
| ExistsSync (p : jsstring)
| ReadFileSync (p : jsstring)
| ExecSync (cmd cwd : jsstring)
| ConsoleError (e : jsstring).

(** A computation: the effects performed and the outcome. *)
Definition M (A : Type) : Type := (list io * result A)%type.

Definition ret {A} (a : A) : M A := ([], Ok a).

Definition bind {A B} (m : M A) (k : A -> M B) : M B :=
  match m with
  | (l, Ok a) => let '(l', r) := k a in (l ++ l', r)
  | (l, Throw e) => (l, Throw e)
  end.

(** [try { m } catch (e) { h e }] *)
Definition try_catch {A} (m : M A) (h : jsstring -> M A) : M A :=
  match m with
  | (l, Ok a) => (l, Ok a)
  | (l, Throw e) => let '(l', r) := h e in (l ++ l', r)
  end.

Definition perform {A} (e : io) (r : result A) : M A := ([e], r).

Definition effects {A} (m : M A) : list io := fst m.
Definition outcome {A} (m : M A) : result A := snd m.

Declare Scope eff_scope.
Delimit Scope eff_scope with eff.
Notation "'let*' x ':=' m 'in' k" := (bind m (fun x => k))
  (at level 10, x name, m at level 100, k at level 200, only parsing) : eff_scope.
Notation "'TRY' m 'CATCH' e => h" := (try_catch m (fun e => h))
  (at level 10, m at level 200, e name, h at level 200, only parsing) : eff_scope.

End Eff.

(* ===================================================================== *)
(** * GET /api/git-status                                                 *)
(* ===================================================================== *)

Module Git.
Import JS Eff.
Local Open Scope eff_scope.

(** The JSON body of a snapshot ([GitStatus] of types.ts). *)
Record GitStatus : Type := {
  branch : jsstring;
  ahead : Z;
  behind : Z;
  modified : list jsstring;
  staged : list jsstring;
  untracked : list jsstring;
  is_dirty : bool;
  remote_url : option jsstring
}.

Inductive body : Type :=
| JsonStatus (g : GitStatus)
| JsonError (msg : jsstring).

(** An HTTP response: status code and JSON body. *)
Definition response : Type := (Z * body)%type.

Definition no_repository : GitStatus :=
  {| branch := []; ahead := 0; behind := 0;
     modified := []; staged := []; untracked := [];
     is_dirty := false; remote_url := None |}.

(** ['ref: refs/heads/'] *)
Definition ref_prefix : jsstring := u "ref: refs/heads/".

(** The branch named by the trimmed content of HEAD. *)
Definition branch_of_head (head : jsstring) : jsstring :=
  if startsWith ref_prefix head then replace ref_prefix [] head else head.

(** ['[remote "origin"]'] *)
Definition origin_header : jsstring :=
  u "[remote " ++ [34] ++ u "origin" ++ [34] ++ u "]".

Definition url_key : jsstring := u "url = ".

(** The loop over the lines of the configuration file; [inOrigin] is the
    loop's flag. *)
Fixpoint scan_config (inOrigin : bool) (lines : list jsstring)
  : option jsstring :=
  match lines with
  | [] => None
  | line :: rest =>
      if bool_decide (trim line = origin_header) then scan_config true rest
      else if inOrigin && startsWith url_key (trim line)
           then Some (replace url_key [] (trim line))
           else scan_config inOrigin rest
  end.

Definition remote_of_config (config : jsstring) : option jsstring :=
  scan_config false (split 10 config).

(** The three arrays filled by the status loop. *)
Record changes : Type := {
  ch_modified : list jsstring;
  ch_staged : list jsstring;
  ch_untracked : list jsstring
}.

Definition no_changes : changes :=
  {| ch_modified := []; ch_staged := []; ch_untracked := [] |}.

(** [s[i] !== c]: true when [s[i]] is [undefined]. *)
Definition char_is_not (s : jsstring) (i : nat) (c : N) : bool :=
  negb (char_is s i c).

(** One iteration of the status loop. *)
Definition classify_line (acc : changes) (line : jsstring) : changes :=
  let indexStatus := substring_to 2 line in
  let filePath := trim (substring_from 3 line) in
  let acc1 :=
    if char_is indexStatus 0 63 || char_is indexStatus 0 65
    then {| ch_modified := ch_modified acc;
            ch_staged := ch_staged acc;
            ch_untracked := ch_untracked acc ++ [filePath] |}
    else if char_is_not indexStatus 0 32
    then {| ch_modified := ch_modified acc;
            ch_staged := ch_staged acc ++ [filePath];
            ch_untracked := ch_untracked acc |}
    else acc in
  if char_is indexStatus 1 77 || char_is indexStatus 1 68
  then {| ch_modified := ch_modified acc1 ++ [filePath];
          ch_staged := ch_staged acc1;
          ch_untracked := ch_untracked acc1 |}
  else if char_is_not indexStatus 0 32 && char_is_not indexStatus 0 63
  then {| ch_modified := ch_modified acc1 ++ [filePath];
          ch_staged := ch_staged acc1;
          ch_untracked := ch_untracked acc1 |}
  else acc1.

(** The path pushed for a line, and the tests that decide into which
    arrays it is pushed. *)
Definition file_path (line : jsstring) : jsstring :=
  trim (substring_from 3 line).

Definition is_untracked_line (line : jsstring) : bool :=
  char_is line 0 63 || char_is line 0 65.

Definition is_staged_line (line : jsstring) : bool :=
  negb (is_untracked_line line) && char_is_not line 0 32.

Definition is_modified_line (line : jsstring) : bool :=
  (char_is line 1 77 || char_is line 1 68)
  || (char_is_not line 0 32 && char_is_not line 0 63).

(** [statusOutput.trim().split('\n').filter(l => l)] *)
Definition status_lines (statusOutput : jsstring) : list jsstring :=
  filter (fun l => truthy l = true) (split 10 (trim statusOutput)).

Definition parse_status (statusOutput : jsstring) : changes :=
  fold_left classify_line (status_lines statusOutput) no_changes.

Definition cmd_status : jsstring := u "git status --porcelain".
Definition cmd_fetch : jsstring := u "git fetch origin".

(** [`git rev-list --count HEAD..origin/${branch}`] *)
Definition cmd_behind (branch : option jsstring) : jsstring :=
  u "git rev-list --count HEAD..origin/" ++ template branch.

(** [`git rev-list --count origin/${branch}..HEAD`] *)
Definition cmd_ahead (branch : option jsstring) : jsstring :=
  u "git rev-list --count origin/" ++ template branch ++ u "..HEAD".

(** [parseInt(out.trim()) || 0] *)
Definition count_of (out : jsstring) : Z := or_zero (parseInt (trim out)).

(** [branch || 'main'] *)
Definition branch_or_main (branch : option jsstring) : jsstring :=
  if truthy_opt branch then template branch else u "main".

Section Handler.
(** The file system and the version-control tool as the handler sees
    them. Every path is read at most once and every command line is run
    at most once per request, so a function of the path or of the
    command line describes any behaviour of the outside world. *)
Variable path_join : jsstring -> jsstring -> jsstring.
Variable fs_exists : jsstring -> bool.
Variable fs_read : jsstring -> result jsstring.
Variable exec : jsstring -> jsstring -> result jsstring.

Definition existsSync (p : jsstring) : M bool :=
  perform (ExistsSync p) (Ok (fs_exists p)).

Definition readFileSync (p : jsstring) : M jsstring :=
  perform (ReadFileSync p) (fs_read p).

Definition execSync (cmd cwd : jsstring) : M jsstring :=
  perform (ExecSync cmd cwd) (exec cmd cwd).

(** HEAD parsing: [branch] stays [null] when the read throws. *)
Definition read_branch (gitDir : jsstring) : M (option jsstring) :=
  TRY (let* head := readFileSync (path_join gitDir (u "HEAD")) in
       ret (Some (branch_of_head (trim head))))
  CATCH e => ret None.

(** Remote URL: [remoteUrl] stays [null] when the read throws. *)
Definition read_remote (gitDir : jsstring) : M (option jsstring) :=
  TRY (let* config := readFileSync (path_join gitDir (u "config")) in
       ret (remote_of_config config))
  CATCH e => ret None.

(** The status block: the arrays stay empty when the command throws,
    and the error is printed. *)
Definition read_status (projectPath : jsstring) : M changes :=
  TRY (let* statusOutput := execSync cmd_status projectPath in
       ret (parse_status statusOutput))
  CATCH e => perform (ConsoleError e) (Ok no_changes).

(** The divergence block; the result is the pair (ahead, behind). *)
Definition read_divergence (projectPath : jsstring)
           (branch remoteUrl : option jsstring) : M (Z * Z) :=
  if truthy_opt remoteUrl then
    TRY (let* _ := execSync cmd_fetch projectPath in
         let* behind := (TRY (let* aheadOutput := execSync (cmd_behind branch) projectPath in
                         ret (count_of aheadOutput))
                    CATCH e => ret 0%Z) in
         let* ahead := (TRY (let* behindOutput := execSync (cmd_ahead branch) projectPath in
                        ret (count_of behindOutput))
                   CATCH e => ret 0%Z) in
         ret (ahead, behind))
    CATCH e => ret (0%Z, 0%Z)
  else ret (0%Z, 0%Z).

Definition nonempty (l : list jsstring) : bool :=
  match l with [] => false | _ :: _ => true end.

(** The handler; [projectPath] is the query parameter, [None] when it
    is not given. The outer [try] of the source encloses the status block
    and the divergence block, each of which catches its own exceptions. *)
Definition git_status (projectPath : option jsstring) : M response :=
  if negb (truthy_opt projectPath)
  then ret (400%Z, JsonError (u "Missing projectPath"))
  else
    let projectPath := template projectPath in
    let gitDir := path_join projectPath (u ".git") in
    let* has_git := existsSync gitDir in
    if negb has_git then ret (200%Z, JsonStatus no_repository)
    else
      let* branch := read_branch gitDir in
      let* remoteUrl := read_remote gitDir in
      let* st := (TRY (let* st := read_status projectPath in
                  let* d := read_divergence projectPath branch remoteUrl in
                  ret (st, d))
             CATCH e => ret (no_changes, (0%Z, 0%Z))) in
      let '(st, (ahead, behind)) := st in
      let isDirty := nonempty (ch_modified st) || nonempty (ch_staged st)
                     || nonempty (ch_untracked st) in
      ret (200%Z,
           JsonStatus
             {| branch := branch_or_main branch;
                ahead := ahead;
                behind := behind;
                modified := ch_modified st;
                staged := ch_staged st;
                untracked := ch_untracked st;
                is_dirty := isDirty;
                remote_url := remoteUrl |}).

End Handler.

End Git.

(* ===================================================================== *)
(** * POST /api/run-command                                               *)
(* ===================================================================== *)

Module Runner.
Import JS.

(** The JSON body sent by the handler ([CommandOutput] of types.ts);
    [exit_code] is [None] for JavaScript's [null], the code of a child
    ended by a signal. *)
Record CommandOutput : Type := {
  stdout : jsstring;
  stderr : jsstring;
  exit_code : option Z
}.

(** An HTTP response: status code and JSON body. *)
Definition response : Type := (Z * CommandOutput)%type.

(** What the child process emits, in order of arrival. *)
Inductive child_event : Type :=
| StdoutData (data : jsstring)
| StderrData (data : jsstring)
| Close (code : option Z)
| Error (message : jsstring).

(** The variables of one request: the two buffers and the responses
    written to [res] so far. The client receives the first one. *)
Record request : Type := {
  r_stdout : jsstring;
  r_stderr : jsstring;
  r_sent : list response
}.

Definition start : request :=
  {| r_stdout := []; r_stderr := []; r_sent := [] |}.

(** The four listeners registered by the handler. *)
Definition on_event (r : request) (ev : child_event) : request :=
  match ev with
  | StdoutData data =>
      {| r_stdout := r_stdout r ++ data; r_stderr := r_stderr r;
         r_sent := r_sent r |}
  | StderrData data =>
      {| r_stdout := r_stdout r; r_stderr := r_stderr r ++ data;
         r_sent := r_sent r |}
  | Close code =>
      {| r_stdout := r_stdout r; r_stderr := r_stderr r;
         r_sent := r_sent r ++
           [(200%Z, {| stdout := r_stdout r; stderr := r_stderr r;
                       exit_code := code |})] |}
  | Error message =>
      {| r_stdout := r_stdout r; r_stderr := r_stderr r;
         r_sent := r_sent r ++
           [(500%Z, {| stdout := []; stderr := message;
                       exit_code := Some (-1)%Z |})] |}
  end.

Definition run_command (evs : list child_event) : request :=
  fold_left on_event evs start.

(** The response the client receives, if any was sent. *)
Definition reply (r : request) : option response := head (r_sent r).

(** [response.ok] on the client side (api.ts): a 2xx status. *)
Definition response_ok (r : response) : bool :=
  ((200 <=? fst r) && (fst r <=? 299))%Z.

(** Output chunks only, as emitted while the command runs. *)
Definition is_data (ev : child_event) : bool :=
  match ev with
  | StdoutData _ | StderrData _ => true
  | Close _ | Error _ => false
  end.

Definition stdout_of (evs : list child_event) : jsstring :=
  concat (omap (fun ev => match ev with StdoutData d => Some d | _ => None end) evs).

Definition stderr_of (evs : list child_event) : jsstring :=
  concat (omap (fun ev => match ev with StderrData d => Some d | _ => None end) evs).

(** What the child emits when the command does not exist.  The handler
    passes [shell: true], so the process that [spawn] starts is the
    shell: it starts, finds no such command, says so on stderr and ends
    with its exit code for an unknown command (127 for a POSIX shell).
    There is no error event: that one is emitted when the shell itself
    cannot be started. *)
Definition command_not_found (note : jsstring) (code : Z) : list child_event :=
  [StderrData note; Close (Some code)].

End Runner.

(* ===================================================================== *)
(** * Background processes: spawn, endpoint detection, kill               *)
(* ===================================================================== *)

Module Proc.
Import JS.

(** ** The endpoint pattern
    [/(https?:\/\/[^\s]+|localhost:[0-9]+|127\.0\.0\.1:[0-9]+)/] *)

(** [:\/\/[^\s]+] after a scheme [pre] already matched. *)
Definition match_url_rest (pre rest : jsstring) : option jsstring :=
  match strip_prefix (u "://") rest with
  | Some r =>
      match take_while (fun c => negb (is_space c)) r with
      | [] => None
      | body => Some (pre ++ u "://" ++ body)
      end
  | None => None
  end.

(** First alternative at the start of [s]: the optional [s] is tried
    first, then skipped. *)
Definition match_url (s : jsstring) : option jsstring :=
  match strip_prefix (u "http") s with
  | Some r =>
      match
        match strip_prefix (u "s") r with
        | Some r' => match_url_rest (u "https") r'
        | None => None
        end
      with
      | Some m => Some m
      | None => match_url_rest (u "http") r
      end
  | None => None
  end.

(** Second and third alternatives at the start of [s]: a literal host and
    colon, then one or more digits. *)
Definition match_host (host s : jsstring) : option jsstring :=
  match strip_prefix host s with
  | Some r =>
      match take_while is_digit r with
      | [] => None
      | port => Some (host ++ port)
      end
  | None => None
  end.

(** The alternatives in order, at the start of [s]. *)
Definition match_here (s : jsstring) : option jsstring :=
  match match_url s with
  | Some m => Some m
  | None =>
      match match_host (u "localhost:") s with
      | Some m => Some m
      | None => match_host (u "127.0.0.1:") s
      end
  end.

(** [text.match(re)]: the match at the leftmost position that has one;
    the value is capture group 1, the whole match. *)
Fixpoint url_match (text : jsstring) : option jsstring :=
  match match_here text with
  | Some m => Some m
  | None =>
      match text with
      | [] => None
      | _ :: rest => url_match rest
      end
  end.

(** [m.startsWith('http') ? m : 'http://' + m] *)
Definition normalize (m : jsstring) : jsstring :=
  if startsWith (u "http") m then m else u "http://" ++ m.

(** ** The supervisor *)

(** The variables captured by the listeners of one spawned child. *)
Record child : Type := {
  pid : N;
  command : jsstring;
  args : list jsstring;
  output : jsstring;
  url : option jsstring
}.

(** An entry of [runningProcesses]. *)
Record info : Type := {
  info_url : jsstring;
  info_command : jsstring
}.

(** The server between requests: the children spawned so far (a child is
    named by its position), the table [runningProcesses], and a note of
    the process ids in use, which no handler reads: the ids given at the
    start and those of the children spawned since, less those of the
    children whose close event has been handled. *)
Record world : Type := {
  children : list child;
  runningProcesses : gmap N info;
  alive : gset N
}.

Definition init (os : gset N) : world :=
  {| children := []; runningProcesses := ∅; alive := os |}.

(** [checkForUrl(data)] in the closure of child [c]: the updated closure
    and table. *)
Definition checkForUrl (c : child) (table : gmap N info) (text : jsstring)
  : child * gmap N info :=
  let output' := output c ++ text in
  if negb (truthy_opt (url c)) then
    match url_match text with
    | Some m =>
        let url' := normalize m in
        ({| pid := pid c; command := command c; args := args c;
            output := output'; url := Some url' |},
         <[pid c := {| info_url := url';
                       info_command := command c ++ u " " ++ join (u " ") (args c) |}]>
           table)
    | None =>
        ({| pid := pid c; command := command c; args := args c;
            output := output'; url := url c |}, table)
    end
  else
    ({| pid := pid c; command := command c; args := args c;
        output := output'; url := url c |}, table).

(** What happens to the server between requests. *)
Inductive event : Type :=
| Spawn (command : jsstring) (args : list jsstring) (p : N)
| Data (h : nat) (text : jsstring)
| Closed (h : nat).

(** [Spawn] is the handler of /api/spawn-command, the operating system
    giving the new process the id [p]; [Data h text] is a chunk arriving
    on stdout or stderr of child [h]; [Closed h] is the close event of
    child [h], emitted once its process has ended. *)
Definition step (w : world) (ev : event) : world :=
  match ev with
  | Spawn cmd a p =>
      {| children := children w ++
           [{| pid := p; command := cmd; args := a; output := []; url := None |}];
         runningProcesses := runningProcesses w;
         alive := {[p]} ∪ alive w |}
  | Data h text =>
      match children w !! h with
      | Some c =>
          let '(c', table) := checkForUrl c (runningProcesses w) text in
          {| children := <[h := c']> (children w);
             runningProcesses := table;
             alive := alive w |}
      | None => w
      end
  | Closed h =>
      match children w !! h with
      | Some c =>
          {| children := children w;
             runningProcesses := delete (pid c) (runningProcesses w);
             alive := alive w ∖ {[pid c]} |}
      | None => w
      end
  end.

Definition run (w : world) (evs : list event) : world :=
  fold_left step evs w.

(** GET /api/process-url/:pid: the [url] field of the JSON body, [None]
    for [null]. *)
Definition process_url (w : world) (p : N) : option jsstring :=
  match runningProcesses w !! p with
  | Some i => if truthy (info_url i) then Some (info_url i) else None
  | None => None
  end.

(** The outcome of POST /api/kill-process. *)
Inductive kill_response : Type :=
| KillSuccess
| KillError (status : Z) (message : jsstring).

Section Kill.

(** [process.kill(pid)] for the id of another process: the call returns
    once the signal is sent and throws otherwise, whatever the reason the
    operating system or Node gives (no such process, no permission, a
    number that is no process id).  The id 0 names the server's own
    process group and is left out of what is stated about this call. *)
Variable process_kill : N -> Eff.result unit.

(** POST /api/kill-process: the reply, and the server's state after it.
    The handler reads and writes none of the server's variables. *)
Definition kill_process (w : world) (p : N) : kill_response * world :=
  (match process_kill p with
   | Eff.Ok _ => KillSuccess
   | Eff.Throw message => KillError 500 message
   end, w).

End Kill.

(** The chunks of child [h] among the events. *)
Definition chunks_of (h : nat) (evs : list event) : list jsstring :=
  omap (fun ev => match ev with
                  | Data h' text => if bool_decide (h' = h) then Some text else None
                  | _ => None
                  end) evs.

(** The first chunk with a match decides the endpoint. *)
Fixpoint first_endpoint (chunks : list jsstring) : option jsstring :=
  match chunks with
  | [] => None
  | text :: rest =>
      match url_match text with
      | Some m => Some (normalize m)
      | None => first_endpoint rest
      end
  end.

(** The value recorded for a process once the chunks [chunks] have been
    seen, starting from the recorded value [v]. *)
Definition endpoint_from (v : option jsstring) (chunks : list jsstring)
  : option jsstring :=
  match v with
  | Some _ => v
  | None => first_endpoint chunks
  end.

(** ** The histories that Node and the operating system allow *)

(** What a history leaves open: the number of children spawned so far and,
    for every child whose close event has not arrived, its process id. *)
Definition open_children : Type := (nat * gmap nat N)%type.

Definition observe (s : open_children) (ev : event) : open_children :=
  match ev with
  | Spawn _ _ p => (S (fst s), <[fst s := p]> (snd s))
  | Data _ _ => s
  | Closed h => (fst s, delete h (snd s))
  end.

(** A child is open from its spawn to its close event, which Node emits
    once the process has ended and its output has been read to the end.
    The operating system gives a new process an id that no open child
    has; a chunk or the close event arrives only for an open child, the
    close event being the last event of a child. *)
Definition allowed (s : open_children) (ev : event) : bool :=
  match ev with
  | Spawn _ _ p => bool_decide (map_Forall (fun _ q => q <> p) (snd s))
  | Data h _ => bool_decide (is_Some (snd s !! h))
  | Closed h => bool_decide (is_Some (snd s !! h))
  end.

Fixpoint well_formed_from (s : open_children) (evs : list event) : bool :=
  match evs with
  | [] => true
  | ev :: rest => allowed s ev && well_formed_from (observe s ev) rest
  end.

(** A history of the server since its start. *)
Definition well_formed (evs : list event) : bool :=
  well_formed_from (0%nat, ∅) evs.

(** The closure of child [c] and its entry of the table agree. *)
Definition agrees (c : child) (entry : option info) : Prop :=
  match entry with
  | None => truthy_opt (url c) = false
  | Some i => url c = Some (info_url i) /\ truthy (info_url i) = true
  end.

(** The server's state matches the open children: every open child is in
    the list with its id and agrees with the table, no two open children
    share an id, and the table has no entry for an id of no open child. *)
Definition consistent (w : world) (s : open_children) : Prop :=
  fst s = length (children w)
  /\ (forall h q, snd s !! h = Some q ->
        exists c, children w !! h = Some c /\ pid c = q
                  /\ agrees c (runningProcesses w !! q))
  /\ (forall h1 h2 q, snd s !! h1 = Some q -> snd s !! h2 = Some q -> h1 = h2)
  /\ (forall q, (forall h, snd s !! h <> Some q) -> runningProcesses w !! q = None).

(** ** The accepted tokens, as the pattern is read *)

Definition all_chars (p : N -> bool) (s : jsstring) : Prop :=
  Forall (fun c => p c = true) s.

(** An absolute [http://] or [https://] URL, or a bare
    [localhost:PORT] / [127.0.0.1:PORT]. *)
Inductive token : jsstring -> Prop :=
| token_http body :
    body <> [] -> all_chars (fun c => negb (is_space c)) body ->
    token (u "http://" ++ body)
| token_https body :
    body <> [] -> all_chars (fun c => negb (is_space c)) body ->
    token (u "https://" ++ body)
| token_localhost port :
    port <> [] -> all_chars is_digit port ->
    token (u "localhost:" ++ port)
| token_loopback port :
    port <> [] -> all_chars is_digit port ->
    token (u "127.0.0.1:" ++ port).

(** [text] contains a token as a substring. *)
Definition contains_token (text : jsstring) : Prop :=
  exists pre tok post, text = pre ++ tok ++ post /\ token tok.

End Proc.

(* ===================================================================== *)
(** * What the snapshot handler returns                                   *)
(* ===================================================================== *)

Module Snapshot.
Import JS Eff Git.

Section Observed.
Variable path_join : jsstring -> jsstring -> jsstring.
Variable fs_read : jsstring -> result jsstring.
Variable exec : jsstring -> jsstring -> result jsstring.
Variable projectPath : jsstring.

(** The values the handler's variables hold after each block, read off
    the outside world. *)
Definition gitDir : jsstring := path_join projectPath (u ".git").

Definition head_branch : option jsstring :=
  match fs_read (path_join gitDir (u "HEAD")) with
  | Ok head => Some (branch_of_head (trim head))
  | Throw _ => None
  end.

Definition config_remote : option jsstring :=
  match fs_read (path_join gitDir (u "config")) with
  | Ok config => remote_of_config config
  | Throw _ => None
  end.

Definition status_changes : changes :=
  match exec cmd_status projectPath with
  | Ok statusOutput => parse_status statusOutput
  | Throw _ => no_changes
  end.

Definition query_count (cmd : jsstring) : Z :=
  match exec cmd projectPath with
  | Ok out => count_of out
  | Throw _ => 0%Z
  end.

(** Whether the two range queries are reached. *)
Definition fetched : bool :=
  truthy_opt config_remote &&
  match exec cmd_fetch projectPath with Ok _ => true | Throw _ => false end.

Definition snapshot : GitStatus :=
  {| branch := branch_or_main head_branch;
     ahead := if fetched then query_count (cmd_ahead head_branch) else 0%Z;
     behind := if fetched then query_count (cmd_behind head_branch) else 0%Z;
     modified := ch_modified status_changes;
     staged := ch_staged status_changes;
     untracked := ch_untracked status_changes;
     is_dirty := nonempty (ch_modified status_changes)
                 || nonempty (ch_staged status_changes)
                 || nonempty (ch_untracked status_changes);
     remote_url := config_remote |}.

End Observed.

(** A range query ([git rev-list ...]) among the effects. *)
Definition is_range_query (e : io) : bool :=
  match e with
  | ExecSync cmd _ => startsWith (u "git rev-list") cmd
  | _ => false
  end.

End Snapshot.

(* ===================================================================== *)
(** * Sample worlds                                                       *)
(* ===================================================================== *)

Module Sample.
Import JS Eff Git.

Definition nl : jsstring := [10].

(** [path.join] on segments that need no normalisation. *)
Definition path_join (a b : jsstring) : jsstring := a ++ u "/" ++ b.

Definition project : jsstring := u "/proj".

(** A project directory with a repository in it. *)
Definition fs_exists (p : jsstring) : bool :=
  bool_decide (p = u "/proj/.git").

(** A project directory without one. *)
Definition fs_exists_none (p : jsstring) : bool := false.

(** A file system holding the two metadata files with the given
    contents. *)
Definition fs_read (head config : result jsstring) (p : jsstring)
  : result jsstring :=
  if bool_decide (p = u "/proj/.git/HEAD") then head
  else if bool_decide (p = u "/proj/.git/config") then config
  else Throw (u "ENOENT").

Definition config_origin : jsstring :=
  origin_header ++ nl ++ [9] ++ u "url = https://example.com/r.git" ++ nl.

(** The tool answering the four command lines for branch [b]. *)
Definition exec (b : option jsstring)
           (status fetch behind ahead : result jsstring)
           (cmd cwd : jsstring) : result jsstring :=
  if bool_decide (cmd = cmd_status) then status
  else if bool_decide (cmd = cmd_fetch) then fetch
  else if bool_decide (cmd = cmd_behind b) then behind
  else if bool_decide (cmd = cmd_ahead b) then ahead
  else Throw (u "unknown command").

Definition head_main : jsstring := u "ref: refs/heads/main" ++ nl.

Definition main : option jsstring := Some (u "main").

End Sample.

(* ===================================================================== *)
(** * Helpers of GET /api/scan-library                                    *)
(* ===================================================================== *)

Module Library.
Import JS Eff Git.
Local Open Scope eff_scope.

(** The value returned by [getGitInfo]. *)
Record GitInfo : Type := {
  hasGit : bool;
  info_branch : option jsstring;
  info_remoteUrl : option jsstring
}.

(** [ProjectType] of types.ts. *)
Inductive ProjectType : Type :=
| node | python | go | rust | html | generic.

Section Helpers.
Variable path_join : jsstring -> jsstring -> jsstring.
Variable fs_exists : jsstring -> bool.
Variable fs_read : jsstring -> result jsstring.

(** [getGitInfo(dirPath)]: the two blocks that read HEAD and the
    configuration file are the ones of the status handler. *)
Definition getGitInfo (dirPath : jsstring) : M GitInfo :=
  let gitDir := path_join dirPath (u ".git") in
  let* has_git := existsSync fs_exists gitDir in
  if negb has_git
  then ret {| hasGit := false; info_branch := None; info_remoteUrl := None |}
  else
    let* branch := read_branch path_join fs_read gitDir in
    let* remoteUrl := read_remote path_join fs_read gitDir in
    ret {| hasGit := true; info_branch := branch; info_remoteUrl := remoteUrl |}.

(** [detectProjectType(dirPath)]: the marker files in the order they are
    tested. *)
Definition detectProjectType (dirPath : jsstring) : M ProjectType :=
  let* pkg := existsSync fs_exists (path_join dirPath (u "package.json")) in
  if pkg then ret node
  else
    let* req := existsSync fs_exists (path_join dirPath (u "requirements.txt")) in
    let* py :=
      (if req then ret true
       else existsSync fs_exists (path_join dirPath (u "pyproject.toml"))) in
    if py then ret python
    else
      let* gomod := existsSync fs_exists (path_join dirPath (u "go.mod")) in
      if gomod then ret go
      else
        let* cargo := existsSync fs_exists (path_join dirPath (u "Cargo.toml")) in
        if cargo then ret rust
        else
          let* index := existsSync fs_exists (path_join dirPath (u "index.html")) in
          if index then ret html else ret generic.

End Helpers.

End Library.

(* ===================================================================== *)
(** * Decimal numerals, as the tool prints a count                        *)
(* ===================================================================== *)

Module Numeral.
Import JS.

(** The characters of a sequence of decimal digits. *)
Definition chars (d : Decimal.uint) : jsstring :=
  u (DecimalString.NilEmpty.string_of_uint d).

(** The decimal numeral of [n], without sign or leading zeros: what
    [git rev-list --count] prints for a count of [n]. *)
Definition decimal (n : N) : jsstring := chars (N.to_uint n).

(** The number read by going through the digits from the left, starting
    from [acc]. *)
Fixpoint value (d : Decimal.uint) (acc : Z) : Z :=
  match d with
  | Decimal.Nil => acc
  | Decimal.D0 l => value l (10 * acc + 0)
  | Decimal.D1 l => value l (10 * acc + 1)
  | Decimal.D2 l => value l (10 * acc + 2)
  | Decimal.D3 l => value l (10 * acc + 3)
  | Decimal.D4 l => value l (10 * acc + 4)
  | Decimal.D5 l => value l (10 * acc + 5)
  | Decimal.D6 l => value l (10 * acc + 6)
  | Decimal.D7 l => value l (10 * acc + 7)
  | Decimal.D8 l => value l (10 * acc + 8)
  | Decimal.D9 l => value l (10 * acc + 9)
  end%Z.

End Numeral.

(* ===================================================================== *)
(** * Well-formed entries of the process table                            *)
(* ===================================================================== *)

Module Registry.
Import JS Proc.

(** A URL with one of the two schemes. *)
Definition absolute (v : jsstring) : Prop :=
  startsWith (u "http://") v = true \/ startsWith (u "https://") v = true.

(** The entry [i] under process id [p] was written for a spawned child
    of that id: it holds the endpoint and the command line of the child. *)
Definition entry_ok (w : world) (p : N) (i : info) : Prop :=
  absolute (info_url i)
  /\ exists h c,
       children w !! h = Some c /\ pid c = p
       /\ url c = Some (info_url i)
       /\ info_command i = command c ++ u " " ++ join (u " ") (args c).

End Registry.

(* ===================================================================== *)
(** * POST /api/create-project                                            *)
(* ===================================================================== *)

Module Scaffold.
Import JS Eff Library.
Local Open Scope eff_scope.

(** ** The files written *)

Definition node_index_html (name : jsstring) : jsstring :=
  u "<!DOCTYPE html>" ++ [10] ++ u "<html lang=" ++ [34] ++ u "en" ++
  [34] ++ u ">" ++ [10] ++ u "<head>" ++ [10] ++ u "  <meta charset=" ++
  [34] ++ u "UTF-8" ++ [34] ++ u " />" ++ [10] ++ u "  <meta name=" ++
  [34] ++ u "viewport" ++ [34] ++ u " content=" ++ [34] ++
  u "width=device-width, initial-scale=1.0" ++ [34] ++ u " />" ++ [10] ++
  u "  <title>" ++ name ++ u "</title>" ++ [10] ++ u "</head>" ++ [10] ++
  u "<body>" ++ [10] ++ u "  <div id=" ++ [34] ++ u "app" ++ [34] ++
  u "></div>" ++ [10] ++ u "  <script type=" ++ [34] ++ u "module" ++
  [34] ++ u " src=" ++ [34] ++ u "/src/main.js" ++ [34] ++
  u "></script>" ++ [10] ++ u "</body>" ++ [10] ++ u "</html>".

Definition node_main_js (name : jsstring) : jsstring :=
  u "console.log('Hello from " ++ name ++ u "!');" ++ [10].

Definition vite_config_js : jsstring :=
  u "import { defineConfig } from 'vite';" ++ [10] ++
  u "export default defineConfig({});" ++ [10].

Definition requirements_txt : jsstring :=
  u "# Add your dependencies here" ++ [10].

Definition main_py (name : jsstring) : jsstring :=
  u "def main():" ++ [10] ++ u "    print('Hello from " ++ name ++
  u "!')" ++ [10; 10] ++ u "if __name__ == '__main__':" ++ [10] ++
  u "    main()" ++ [10].

Definition python_readme (name : jsstring) : jsstring :=
  u "# " ++ name ++ [10; 10] ++ u "A Python project." ++ [10].

Definition html_index_html (name : jsstring) : jsstring :=
  u "<!DOCTYPE html>" ++ [10] ++ u "<html lang=" ++ [34] ++ u "en" ++
  [34] ++ u ">" ++ [10] ++ u "<head>" ++ [10] ++ u "  <meta charset=" ++
  [34] ++ u "UTF-8" ++ [34] ++ u " />" ++ [10] ++ u "  <meta name=" ++
  [34] ++ u "viewport" ++ [34] ++ u " content=" ++ [34] ++
  u "width=device-width, initial-scale=1.0" ++ [34] ++ u " />" ++ [10] ++
  u "  <title>" ++ name ++ u "</title>" ++ [10] ++ u "  <style>" ++ [10] ++
  u "    * { margin: 0; padding: 0; box-sizing: border-box; }" ++ [10] ++
  u "    body { font-family: system-ui, sans-serif; padding: 2rem; }" ++
  [10] ++ u "  </style>" ++ [10] ++ u "</head>" ++ [10] ++ u "<body>" ++
  [10] ++ u "  <h1>Hello from " ++ name ++ u "!</h1>" ++ [10] ++
  u "</body>" ++ [10] ++ u "</html>".

Definition style_css : jsstring :=
  u "/* Add your styles here */" ++ [10].

Definition script_js (name : jsstring) : jsstring :=
  u "console.log('Hello from " ++ name ++ u "!');" ++ [10].

Definition generic_readme (name : jsstring) : jsstring :=
  u "# " ++ name ++ [10; 10] ++ u "A new project." ++ [10].

Definition git_head : jsstring :=
  u "ref: refs/heads/main" ++ [10].

Definition git_config : jsstring :=
  u "[core]" ++ [10; 9] ++ u "repositoryformatversion = 0" ++ [10].

(** [s.replace(/\s+/g, '-')]: every maximal run of white space becomes one
    dash; [in_run] tells that the previous character was white space. *)
Fixpoint dashes_from (in_run : bool) (s : jsstring) : jsstring :=
  match s with
  | [] => []
  | c :: s' =>
      if is_space c
      then if in_run then dashes_from true s' else 45 :: dashes_from true s'
      else c :: dashes_from false s'
  end.

Definition dashes (s : jsstring) : jsstring := dashes_from false s.

(** ** The description shown by the library scan for a README
    [content.split('\n')[0]?.replace(/^#\s*/, '')] *)

Definition strip_heading (line : jsstring) : jsstring :=
  match strip_prefix (u "#") line with
  | Some rest => drop_while is_space rest
  | None => line
  end.

Definition readme_description (content : jsstring) : option jsstring :=
  strip_heading <$> head (split 10 content).

(** ** The disk *)

(** Regular files with their contents, and directories. *)
Record disk : Type := {
  files : gmap jsstring jsstring;
  dirs : gset jsstring
}.

(** [fs.existsSync(p)] *)
Definition disk_exists (d : disk) (p : jsstring) : bool :=
  bool_decide (is_Some (files d !! p)) || bool_decide (p ∈ dirs d).

(** [fs.readFileSync(p, 'utf-8')] *)
Definition disk_read (d : disk) (p : jsstring) : result jsstring :=
  if bool_decide (p ∈ dirs d) then Throw (u "EISDIR")
  else match files d !! p with
       | Some data => Ok data
       | None => Throw (u "ENOENT")
       end.

(** The calls that change the disk. *)
Inductive fs_op : Type :=
| MkdirRecursive (p : jsstring)
| Mkdir (p : jsstring)
| WriteFile (p data : jsstring).

(** A script of package.json, and the response body ([Project] of
    types.ts). *)
Record Script : Type := { script_name : jsstring; script_command : jsstring }.

Record Project : Type := {
  name : jsstring;
  path : jsstring;
  project_type : ProjectType;
  has_git : bool;
  remote_url : option jsstring;
  branch : option jsstring;
  has_changes : bool;
  scripts : list Script;
  description : jsstring
}.

Inductive reply : Type :=
| Created (pr : Project)
| Failed (status : Z) (message : jsstring).

(** The string a project type is in JavaScript. *)
Definition type_name (t : ProjectType) : jsstring :=
  match t with
  | node => u "node"
  | python => u "python"
  | go => u "go"
  | rust => u "rust"
  | html => u "html"
  | generic => u "generic"
  end.

Section Handler.
Variable path_join : jsstring -> jsstring -> jsstring.
(** [String.prototype.toLowerCase]. *)
Variable toLowerCase : jsstring -> jsstring.
(** [JSON.stringify(pkg, null, 2)] for the package named by its
    argument. *)
Variable package_json : jsstring -> jsstring.
(** [JSON.parse] of a package.json followed by the entries of its
    [scripts] member; [None] when that member is absent or falsy. *)
Variable parse_scripts : jsstring -> result (option (list Script)).
(** The calls the operating system refuses for a reason of its own
    (permissions, a full disk), with the message of the error. *)
Variable refuses : fs_op -> option jsstring.

(** One call: it throws when the operating system refuses it, when
    [mkdirSync] finds the path taken, or when [writeFileSync] finds a
    directory; otherwise the disk changes.  A call that throws is taken
    to leave the disk as it was: what a refused [mkdirSync] with
    [recursive] may have made of the ancestors, or a refused
    [writeFileSync] of the file, before throwing is not followed, and
    nothing stated of a failing request depends on it. *)
Definition perform_op (d : disk) (op : fs_op) : result unit * disk :=
  match refuses op with
  | Some message => (Throw message, d)
  | None =>
      match op with
      | MkdirRecursive p =>
          if bool_decide (is_Some (files d !! p)) then (Throw (u "EEXIST"), d)
          else (Ok tt, {| files := files d; dirs := {[p]} ∪ dirs d |})
      | Mkdir p =>
          if disk_exists d p then (Throw (u "EEXIST"), d)
          else (Ok tt, {| files := files d; dirs := {[p]} ∪ dirs d |})
      | WriteFile p data =>
          if bool_decide (p ∈ dirs d) then (Throw (u "EISDIR"), d)
          else (Ok tt, {| files := <[p := data]> (files d); dirs := dirs d |})
      end
  end.

(** Calls in sequence, up to the first that throws. *)
Fixpoint perform_all (d : disk) (ops : list fs_op) : result unit * disk :=
  match ops with
  | [] => (Ok tt, d)
  | op :: rest =>
      match perform_op d op with
      | (Ok _, d') => perform_all d' rest
      | (Throw e, d') => (Throw e, d')
      end
  end.

(** The calls of the branch chosen by [projectType]. *)
Definition template_ops (projectPath name projectType : jsstring)
  : list fs_op :=
  if bool_decide (projectType = u "node") then
    [WriteFile (path_join projectPath (u "package.json"))
       (package_json (dashes (toLowerCase name)));
     WriteFile (path_join projectPath (u "index.html")) (node_index_html name);
     Mkdir (path_join projectPath (u "src"));
     WriteFile (path_join projectPath (u "src/main.js")) (node_main_js name);
     WriteFile (path_join projectPath (u "vite.config.js")) vite_config_js]
  else if bool_decide (projectType = u "python") then
    [WriteFile (path_join projectPath (u "requirements.txt")) requirements_txt;
     WriteFile (path_join projectPath (u "main.py")) (main_py name);
     WriteFile (path_join projectPath (u "README.md")) (python_readme name)]
  else if bool_decide (projectType = u "html") then
    [WriteFile (path_join projectPath (u "index.html")) (html_index_html name);
     WriteFile (path_join projectPath (u "style.css")) style_css;
     WriteFile (path_join projectPath (u "script.js")) (script_js name)]
  else
    [WriteFile (path_join projectPath (u "README.md")) (generic_readme name)].

(** The calls of [if (initGit) { ... }]. *)
Definition git_ops (projectPath : jsstring) (initGit : bool) : list fs_op :=
  if initGit then
    [Mkdir (path_join projectPath (u ".git"));
     WriteFile (path_join (path_join projectPath (u ".git")) (u "HEAD")) git_head;
     WriteFile (path_join (path_join projectPath (u ".git")) (u "config")) git_config]
  else [].

(** [getScripts(dirPath)] on the disk [d]; parsing touches nothing
    outside and may throw. *)
Definition getScripts (d : disk) (dirPath : jsstring) : M (list Script) :=
  let pkgPath := path_join dirPath (u "package.json") in
  let* found := Git.existsSync (disk_exists d) pkgPath in
  if found then
    TRY (let* text := Git.readFileSync (disk_read d) pkgPath in
         let* parsed := ([], parse_scripts text) in
         match parsed with
         | Some entries => ret entries
         | None => ret []
         end)
    CATCH e => ret []
  else ret [].

(** The handler: the response and the disk it leaves. *)
Definition create_project (name projectType libraryPath : jsstring)
           (initGit : bool) (d : disk) : reply * disk :=
  let projectPath := path_join libraryPath name in
  match perform_all d (MkdirRecursive projectPath
                         :: template_ops projectPath name projectType
                         ++ git_ops projectPath initGit) with
  | (Throw e, d') => (Failed 500 e, d')
  | (Ok _, d') =>
      match outcome (let* projectTypeResult :=
                       detectProjectType path_join (disk_exists d') projectPath in
                     let* scripts := getScripts d' projectPath in
                     ret {| name := name;
                            path := projectPath;
                            project_type := projectTypeResult;
                            has_git := initGit;
                            remote_url := None;
                            branch := if initGit then Some (u "main") else None;
                            has_changes := false;
                            scripts := scripts;
                            description :=
                              u "A new " ++ type_name projectTypeResult
                                ++ u " project" |}) with
      | Ok pr => (Created pr, d')
      | Throw e => (Failed 500 e, d')
      end
  end.

End Handler.

(** A disk with nothing on it. *)
Definition empty_disk : disk := {| files := ∅; dirs := ∅ |}.

(** Everything that exists on [d] exists on [d']. *)
Definition keeps (d d' : disk) : Prop :=
  dirs d ⊆ dirs d'
  /\ forall p, is_Some (files d !! p) -> is_Some (files d' !! p).

End Scaffold.

(* ===================================================================== *)
(** * The status output, as git prints it                                 *)
(* ===================================================================== *)

Module Porcelain.
Import JS.

(** The output of [git status --porcelain] for the given lines: each line
    followed by a newline. *)
Definition printed (lines : list jsstring) : jsstring :=
  concat ((fun l => l ++ [10]) <$> lines).

(** A line as git prints it: no newline inside, and a last character
    that is not white space (a path that holds white space is printed in
    quotes). *)
Definition line_ok (l : jsstring) : Prop :=
  Forall (fun c => c <> 10) l
  /\ exists body c, l = body ++ [c] /\ is_space c = false.

(** Whether the first line begins with white space. *)
Definition begins_with_space (lines : list jsstring) : bool :=
  match lines with
  | (c :: _) :: _ => is_space c
  | _ => false
  end.

(** The lines that reach the status loop as they were printed: all of
    them, unless the first begins with white space, which trimming the
    whole output strips; then all but the first. *)
Definition read_as_printed (lines : list jsstring) : list jsstring :=
  if begins_with_space lines then tail lines else lines.

(** The lines the status loop goes through: the first without its
    leading white space. *)
Definition seen (lines : list jsstring) : list jsstring :=
  match lines with
  | [] => []
  | l :: rest => trimStart l :: rest
  end.

End Porcelain.

(* ===================================================================== *)
(** * What a range query prints                                           *)
(* ===================================================================== *)

Module Counts.
Import JS Numeral.


End Counts.

(* ===================================================================== *)
(** * Properties of the snapshot handler                                  *)
(* ===================================================================== *)

Import JS Eff Git Snapshot.

Section SnapshotFacts.
Variable path_join : jsstring -> jsstring -> jsstring.
Variable fs_exists : jsstring -> bool.
Variable fs_read : jsstring -> result jsstring.
Variable exec : jsstring -> jsstring -> result jsstring.

(** In a repository the handler answers 200 with the observed snapshot,
    whatever the file system and the tool do. *)
Lemma git_status_in_repository (p : jsstring) :
  truthy p = true ->
  fs_exists (gitDir path_join p) = true ->
  outcome (git_status path_join fs_exists fs_read exec (Some p))
  = Ok (200%Z, JsonStatus (snapshot path_join fs_read exec p)).
Proof.
  intros Hp Hgit.
  unfold git_status, snapshot, fetched, query_count, status_changes,
    config_remote, head_branch, read_branch, read_remote, read_status,
    read_divergence, existsSync, readFileSync, execSync, gitDir in *.
  cbn [truthy_opt template]. rewrite Hp. cbn [negb].
  unfold bind at 1. unfold perform at 1. rewrite Hgit. cbn [negb].
  destruct (fs_read (path_join (path_join p (u ".git")) (u "HEAD"))) as [hd|e1];
    destruct (fs_read (path_join (path_join p (u ".git")) (u "config"))) as [cf|e2];
    cbn -[u cmd_status cmd_fetch cmd_behind cmd_ahead branch_of_head
          remote_of_config parse_status count_of];
    destruct (exec cmd_status p) as [so|e3];
    cbn -[u cmd_status cmd_fetch cmd_behind cmd_ahead branch_of_head
          remote_of_config parse_status count_of];
    try (destruct (truthy_opt (remote_of_config cf)) eqn:Hr;
         cbn -[u cmd_status cmd_fetch cmd_behind cmd_ahead branch_of_head
               remote_of_config parse_status count_of];
         [ destruct (exec cmd_fetch p) as [fo|e4];
           cbn -[u cmd_status cmd_fetch cmd_behind cmd_ahead branch_of_head
                 remote_of_config parse_status count_of];
           [ match goal with
             | |- context [exec (cmd_behind ?b) p] =>
                 destruct (exec (cmd_behind b) p); destruct (exec (cmd_ahead b) p)
             end;
             cbn -[u cmd_status cmd_fetch cmd_behind cmd_ahead branch_of_head
                   remote_of_config parse_status count_of]
           | ]
         | ]);
    reflexivity.
Qed.

End SnapshotFacts.

(** ** No repository *)

(** Without [.git] the handler stops after the existence check. *)
Lemma git_status_without_repository
  (path_join : jsstring -> jsstring -> jsstring)
  (fs_exists : jsstring -> bool)
  (fs_read : jsstring -> result jsstring)
  (exec : jsstring -> jsstring -> result jsstring)
  (p : jsstring) :
  truthy p = true ->
  fs_exists (path_join p (u ".git")) = false ->
  git_status path_join fs_exists fs_read exec (Some p)
  = ([ExistsSync (path_join p (u ".git"))],
     Ok (200%Z, JsonStatus no_repository)).
Proof.
  intros Hp Hgit. unfold git_status, existsSync.
  cbn [truthy_opt template]. rewrite Hp. cbn [negb].
  unfold bind, perform. rewrite Hgit. reflexivity.
Qed.

(** C5: in a directory without [.git] the handler only checks that the
    directory exists and answers 200 with the all-default snapshot: empty
    branch, no remote, empty file lists, zero counts, not dirty. Nothing
    is read or run, and nothing is thrown. *)
Theorem no_repository_default_snapshot
  (path_join : jsstring -> jsstring -> jsstring)
  (fs_exists : jsstring -> bool)
  (fs_read : jsstring -> result jsstring)
  (exec : jsstring -> jsstring -> result jsstring)
  (p : jsstring) :
  truthy p = true ->
  fs_exists (path_join p (u ".git")) = false ->
  git_status path_join fs_exists fs_read exec (Some p)
  = ([ExistsSync (path_join p (u ".git"))],
     Ok (200%Z,
         JsonStatus {| branch := []; ahead := 0; behind := 0;
                       modified := []; staged := []; untracked := [];
                       is_dirty := false; remote_url := None |})).
Proof.
  intros Hp Hgit.
  rewrite (git_status_without_repository _ _ fs_read exec _ Hp Hgit).
  reflexivity.
Qed.

Lemma no_repository_default_snapshot_witness :
  git_status Sample.path_join Sample.fs_exists_none
    (Sample.fs_read (Throw []) (Throw []))
    (Sample.exec None (Throw []) (Throw []) (Throw []) (Throw []))
    (Some Sample.project)
  = ([ExistsSync (u "/proj/.git")],
     Ok (200%Z, JsonStatus no_repository)).
Proof.
  apply (no_repository_default_snapshot Sample.path_join Sample.fs_exists_none
           _ _ Sample.project); reflexivity.
Defined.

(** ** The branch fallback *)

Lemma branch_or_main_nonempty (b : option jsstring) : branch_or_main b <> [].
Proof.
  unfold branch_or_main. destruct b as [[|c s]|]; cbn; discriminate.
Qed.

Lemma branch_or_main_fallback (b : option jsstring) :
  b = None \/ b = Some [] -> branch_or_main b = u "main".
Proof. intros [-> | ->]; reflexivity. Qed.

(** C10: when [.git] exists the branch of the snapshot is never the empty
    string, and it is the literal main when HEAD cannot be read or is
    empty after trimming; hence the branch is empty exactly when there is
    no repository. *)
Theorem branch_empty_iff_no_repository
  (path_join : jsstring -> jsstring -> jsstring)
  (fs_exists : jsstring -> bool)
  (fs_read : jsstring -> result jsstring)
  (exec : jsstring -> jsstring -> result jsstring)
  (p : jsstring) :
  truthy p = true ->
  exists g,
    outcome (git_status path_join fs_exists fs_read exec (Some p))
    = Ok (200%Z, JsonStatus g)
    /\ (fs_exists (path_join p (u ".git")) = true -> branch g <> [])
    /\ (fs_exists (path_join p (u ".git")) = true ->
        (exists e, fs_read (path_join (path_join p (u ".git")) (u "HEAD")) = Throw e)
        \/ (exists head,
              fs_read (path_join (path_join p (u ".git")) (u "HEAD")) = Ok head
              /\ trim head = []) ->
        branch g = u "main")
    /\ (branch g = [] <-> fs_exists (path_join p (u ".git")) = false).
Proof.
  intros Hp.
  destruct (fs_exists (path_join p (u ".git"))) eqn:Hgit.
  - exists (snapshot path_join fs_read exec p).
    split; [apply git_status_in_repository; assumption|].
    split; [intros _; apply branch_or_main_nonempty|].
    split.
    + intros _ H. cbn [snapshot branch]. apply branch_or_main_fallback.
      unfold head_branch, gitDir.
      destruct H as [[e ->] | [head [-> Hh]]]; [left; reflexivity|].
      right. rewrite Hh. reflexivity.
    + split; [|discriminate].
      intros H. exfalso. revert H. apply branch_or_main_nonempty.
  - exists no_repository.
    rewrite (git_status_without_repository _ _ fs_read exec _ Hp Hgit).
    split; [reflexivity|].
    split; [discriminate|].
    split; [discriminate|].
    split; reflexivity.
Qed.

Lemma branch_empty_iff_no_repository_witness :
  exists g,
    outcome (git_status Sample.path_join Sample.fs_exists
               (Sample.fs_read (Throw (u "ENOENT")) (Throw (u "ENOENT")))
               (Sample.exec None (Throw []) (Throw []) (Throw []) (Throw []))
               (Some Sample.project))
    = Ok (200%Z, JsonStatus g)
    /\ branch g = u "main".
Proof.
  destruct (branch_empty_iff_no_repository Sample.path_join Sample.fs_exists
              (Sample.fs_read (Throw (u "ENOENT")) (Throw (u "ENOENT")))
              (Sample.exec None (Throw []) (Throw []) (Throw []) (Throw []))
              Sample.project eq_refl) as [g [Hg [_ [Hmain _]]]].
  exists g. split; [exact Hg|].
  apply Hmain; [reflexivity|].
  left. exists (u "ENOENT"). reflexivity.
Defined.

(** ** A failed fetch *)

Lemma effects_skip_range_queries
  (path_join : jsstring -> jsstring -> jsstring)
  (fs_exists : jsstring -> bool)
  (fs_read : jsstring -> result jsstring)
  (exec : jsstring -> jsstring -> result jsstring)
  (p e : jsstring) :
  truthy p = true ->
  exec cmd_fetch p = Throw e ->
  Forall (fun x => is_range_query x = false)
         (effects (git_status path_join fs_exists fs_read exec (Some p))).
Proof.
  intros Hp Hf.
  unfold git_status, read_branch, read_remote, read_status,
    read_divergence, existsSync, readFileSync, execSync.
  cbn [truthy_opt template]. rewrite Hp. cbn [negb].
  unfold bind at 1. unfold perform at 1.
  destruct (fs_exists (path_join p (u ".git"))); cbn [negb];
    [|repeat constructor].
  rewrite Hf.
  destruct (fs_read (path_join (path_join p (u ".git")) (u "HEAD")));
    destruct (fs_read (path_join (path_join p (u ".git")) (u "config"))) as [cf|];
    destruct (exec cmd_status p);
    cbn -[u cmd_status cmd_fetch remote_of_config parse_status];
    try (destruct (truthy_opt (remote_of_config cf));
         cbn -[u cmd_status cmd_fetch remote_of_config parse_status]);
    repeat (apply Forall_cons; split; [reflexivity|]);
    apply Forall_nil_2.
Qed.

(** C4: when the fetch fails the handler still answers 200 (nothing is
    thrown); ahead and behind are 0, no range query is run, and the
    branch, the remote URL and the three file lists are the ones read
    from HEAD, from the configuration file and from the status command. *)
Theorem fetch_failure_keeps_snapshot
  (path_join : jsstring -> jsstring -> jsstring)
  (fs_exists : jsstring -> bool)
  (fs_read : jsstring -> result jsstring)
  (exec : jsstring -> jsstring -> result jsstring)
  (p e : jsstring) :
  truthy p = true ->
  fs_exists (path_join p (u ".git")) = true ->
  exec cmd_fetch p = Throw e ->
  exists g,
    git_status path_join fs_exists fs_read exec (Some p)
    = (effects (git_status path_join fs_exists fs_read exec (Some p)),
       Ok (200%Z, JsonStatus g))
    /\ Forall (fun x => is_range_query x = false)
         (effects (git_status path_join fs_exists fs_read exec (Some p)))
    /\ ahead g = 0%Z /\ behind g = 0%Z
    /\ branch g = branch_or_main (head_branch path_join fs_read p)
    /\ remote_url g = config_remote path_join fs_read p
    /\ modified g = ch_modified (status_changes exec p)
    /\ staged g = ch_staged (status_changes exec p)
    /\ untracked g = ch_untracked (status_changes exec p).
Proof.
  intros Hp Hgit Hf.
  exists (snapshot path_join fs_read exec p).
  split.
  { rewrite <- (git_status_in_repository path_join fs_exists fs_read exec p Hp Hgit).
    unfold effects, outcome. apply surjective_pairing. }
  split; [apply (effects_skip_range_queries _ _ _ _ _ e Hp Hf)|].
  assert (Hnf : fetched path_join fs_read exec p = false).
  { unfold fetched. rewrite Hf. apply andb_false_r. }
  cbn [snapshot ahead behind branch remote_url modified staged untracked].
  rewrite Hnf. repeat split.
Qed.

Lemma fetch_failure_keeps_snapshot_witness :
  exists g,
    outcome (git_status Sample.path_join Sample.fs_exists
               (Sample.fs_read (Ok Sample.head_main) (Ok Sample.config_origin))
               (Sample.exec Sample.main
                  (Ok (u "?? new.txt" ++ Sample.nl ++ u " M b.js" ++ Sample.nl))
                  (Throw (u "unreachable")) (Ok (u "2")) (Ok (u "5")))
               (Some Sample.project))
    = Ok (200%Z, JsonStatus g)
    /\ ahead g = 0%Z /\ behind g = 0%Z
    /\ branch g = u "main"
    /\ remote_url g = Some (u "https://example.com/r.git")
    /\ modified g = [u "b.js"] /\ staged g = [] /\ untracked g = [u "new.txt"].
Proof.
  destruct (fetch_failure_keeps_snapshot Sample.path_join Sample.fs_exists
              (Sample.fs_read (Ok Sample.head_main) (Ok Sample.config_origin))
              (Sample.exec Sample.main
                 (Ok (u "?? new.txt" ++ Sample.nl ++ u " M b.js" ++ Sample.nl))
                 (Throw (u "unreachable")) (Ok (u "2")) (Ok (u "5")))
              Sample.project (u "unreachable") eq_refl eq_refl eq_refl)
    as [g [Hg [_ [Ha [Hb [Hbr [Hr [Hm [Hs Hu]]]]]]]]].
  exists g. rewrite Hg, Ha, Hb, Hbr, Hr, Hm, Hs, Hu.
  repeat split; vm_compute; reflexivity.
Defined.

(** ** The two range queries *)

Lemma drop_while_suffix (f : N -> bool) (s : jsstring) :
  exists a, s = a ++ drop_while f s.
Proof.
  induction s as [|c s [a IH]]; [exists []; reflexivity|].
  cbn. destruct (f c).
  - exists (c :: a). cbn. f_equal. exact IH.
  - exists []. reflexivity.
Qed.

Lemma drop_while_head (f : N -> bool) (s : jsstring) (c : N) (t : jsstring) :
  drop_while f s = c :: t -> f c = false.
Proof.
  induction s as [|x s IH]; cbn; [discriminate|].
  destruct (f x) eqn:Hx; [exact IH|].
  intros [= -> _]. exact Hx.
Qed.

Lemma drop_while_fixed (f : N -> bool) (s : jsstring) :
  match s with [] => True | c :: _ => f c = false end ->
  drop_while f s = s.
Proof. destruct s as [|c s]; cbn; [reflexivity|]. intros ->. reflexivity. Qed.

Lemma trimEnd_prefix (s : jsstring) : exists t, s = trimEnd s ++ t.
Proof.
  unfold trimEnd. destruct (drop_while_suffix is_space (rev s)) as [a Ha].
  exists (rev a). rewrite <- rev_app_distr, <- Ha. symmetry. apply rev_involutive.
Qed.

(** A trimmed string has no leading white space left. *)
Lemma trimStart_trim (s : jsstring) : trimStart (trim s) = trim s.
Proof.
  unfold trim, trimStart at 1. apply drop_while_fixed.
  destruct (trimEnd (trimStart s)) as [|c t] eqn:Ht; [exact I|].
  destruct (trimEnd_prefix (trimStart s)) as [r Hr]. rewrite Ht in Hr.
  unfold trimStart in Hr. cbn in Hr.
  apply (drop_while_head is_space s c (t ++ r)). exact Hr.
Qed.




Section Divergence.
Variable path_join : jsstring -> jsstring -> jsstring.
Variable fs_read : jsstring -> result jsstring.
Variable p : jsstring.


End Divergence.

(** ** The branch read from HEAD *)

Lemma strip_prefix_app (p s : jsstring) : strip_prefix p (p ++ s) = Some s.
Proof.
  induction p as [|a p IH]; cbn; [destruct s; reflexivity|].
  rewrite N.eqb_refl. exact IH.
Qed.

Lemma strip_prefix_Some (p s r : jsstring) :
  strip_prefix p s = Some r -> s = p ++ r.
Proof.
  revert s. induction p as [|a p IH]; intros s; cbn.
  - destruct s; intros [= ->]; reflexivity.
  - destruct s as [|b s]; [discriminate|].
    destruct (N.eqb_spec a b) as [->|]; [|discriminate].
    intros H. rewrite (IH _ H). reflexivity.
Qed.

Lemma startsWith_app (p s : jsstring) : startsWith p (p ++ s) = true.
Proof. unfold startsWith. rewrite strip_prefix_app. reflexivity. Qed.

Lemma startsWith_true (p s : jsstring) :
  startsWith p s = true -> exists r, s = p ++ r.
Proof.
  unfold startsWith. destruct (strip_prefix p s) as [r|] eqn:H; [|discriminate].
  intros _. exists r. apply strip_prefix_Some. exact H.
Qed.

(** Replacing a pattern the string begins with removes that prefix. *)
Lemma replace_prefix (p s : jsstring) :
  startsWith p s = true -> replace p [] s = drop (length p) s.
Proof.
  intros H. unfold replace.
  assert (Hi : indexOf p s = Some O) by (destruct s; cbn; rewrite H; reflexivity).
  rewrite Hi. reflexivity.
Qed.

Lemma drop_while_app_stop (f : N -> bool) (a b : jsstring) :
  match b with c :: _ => f c = false | [] => False end ->
  drop_while f (a ++ b) = drop_while f a ++ b.
Proof.
  intros Hb. induction a as [|x a IH]; cbn.
  - destruct b as [|c b]; [destruct Hb|]. cbn. rewrite Hb. reflexivity.
  - destruct (f x); [exact IH|reflexivity].
Qed.

(** Trimming content that begins with the prefix only touches the end of
    what follows the prefix. *)
Lemma trim_ref_prefix (rest : jsstring) :
  trim (ref_prefix ++ rest) = ref_prefix ++ trimEnd rest.
Proof.
  unfold trim. replace (trimStart (ref_prefix ++ rest)) with (ref_prefix ++ rest)
    by reflexivity.
  unfold trimEnd. rewrite rev_app_distr.
  rewrite drop_while_app_stop by reflexivity.
  rewrite rev_app_distr, rev_involutive. reflexivity.
Qed.

Lemma branch_of_head_prefix (t : jsstring) :
  branch_of_head t
  = if startsWith ref_prefix t then drop (length ref_prefix) t else t.
Proof.
  unfold branch_of_head. destruct (startsWith ref_prefix t) eqn:H; [|reflexivity].
  apply replace_prefix. exact H.
Qed.

Lemma branch_or_main_truthy (b : jsstring) :
  b <> [] -> branch_or_main (Some b) = b.
Proof. destruct b; [congruence|reflexivity]. Qed.

(** C7, as the handler computes it: with [t] the trimmed content of HEAD,
    the branch is what follows the prefix [ref: refs/heads/] when [t]
    begins with it and [t] itself otherwise, and the literal main when
    that is empty. So content that begins with the prefix yields the rest
    without its trailing white space when that is not empty, other content
    yields its trimmed self when that is not empty, and
    [ref: refs/heads/feature/x] followed by a newline yields
    [feature/x]. *)
Theorem branch_from_head
  (path_join : jsstring -> jsstring -> jsstring)
  (fs_exists : jsstring -> bool)
  (fs_read : jsstring -> result jsstring)
  (exec : jsstring -> jsstring -> result jsstring)
  (p head : jsstring) :
  truthy p = true ->
  fs_exists (path_join p (u ".git")) = true ->
  fs_read (path_join (path_join p (u ".git")) (u "HEAD")) = Ok head ->
  exists g,
    outcome (git_status path_join fs_exists fs_read exec (Some p))
    = Ok (200%Z, JsonStatus g)
    /\ branch g
       = (let t := trim head in
          let b := if startsWith ref_prefix t
                   then drop (length ref_prefix) t else t in
          if truthy b then b else u "main")
    /\ (forall rest, head = ref_prefix ++ rest -> trimEnd rest <> [] ->
        branch g = trimEnd rest)
    /\ (startsWith ref_prefix (trim head) = false -> trim head <> [] ->
        branch g = trim head)
    /\ (head = u "ref: refs/heads/feature/x" ++ [10] ->
        branch g = u "feature/x").
Proof.
  intros Hp Hgit Hhead.
  exists (snapshot path_join fs_read exec p).
  split; [apply git_status_in_repository; assumption|].
  cbn [snapshot branch]. unfold head_branch, gitDir. rewrite Hhead.
  rewrite branch_of_head_prefix.
  split; [|split; [|split]].
  - cbv zeta. unfold branch_or_main. cbn [truthy_opt template]. reflexivity.
  - intros rest -> Hne. rewrite trim_ref_prefix, startsWith_app.
    rewrite drop_app_length. apply branch_or_main_truthy. exact Hne.
  - intros -> Hne. apply branch_or_main_truthy. exact Hne.
  - intros ->. reflexivity.
Qed.

Lemma branch_from_head_witness :
  exists g,
    outcome (git_status Sample.path_join Sample.fs_exists
               (Sample.fs_read (Ok (u "ref: refs/heads/feature/x" ++ [10]))
                  (Throw (u "ENOENT")))
               (Sample.exec None (Throw []) (Throw []) (Throw []) (Throw []))
               (Some Sample.project))
    = Ok (200%Z, JsonStatus g)
    /\ branch g = u "feature/x".
Proof.
  destruct (branch_from_head Sample.path_join Sample.fs_exists
              (Sample.fs_read (Ok (u "ref: refs/heads/feature/x" ++ [10]))
                 (Throw (u "ENOENT")))
              (Sample.exec None (Throw []) (Throw []) (Throw []) (Throw []))
              Sample.project (u "ref: refs/heads/feature/x" ++ [10])
              eq_refl eq_refl eq_refl)
    as [g [Hg [_ [_ [_ Hex]]]]].
  exists g. split; [exact Hg|]. apply Hex. reflexivity.
Defined.

(** HEAD holding the bare prefix [ref: refs/heads/] and a newline: the
    content begins with the prefix and nothing follows it, yet the branch
    of the snapshot is main, not the empty rest. *)
Lemma branch_from_head_empty_rest :
  let head := ref_prefix ++ [10] in
  startsWith ref_prefix head = true
  /\ trim (drop (length ref_prefix) head) = []
  /\ exists g,
       outcome (git_status Sample.path_join Sample.fs_exists
                  (Sample.fs_read (Ok head) (Throw (u "ENOENT")))
                  (Sample.exec None (Throw []) (Throw []) (Throw []) (Throw []))
                  (Some Sample.project))
       = Ok (200%Z, JsonStatus g)
       /\ branch g = u "main"
       /\ branch g <> trim (drop (length ref_prefix) head).
Proof.
  cbv zeta. split; [reflexivity|]. split; [reflexivity|].
  eexists. split; [vm_compute; reflexivity|].
  split; [reflexivity|]. vm_compute. discriminate.
Qed.

(** ** The status loop *)

Lemma char_is_take (line : jsstring) (i n : nat) (c : N) :
  (i < n)%nat -> char_is (take n line) i c = char_is line i c.
Proof. intros H. unfold char_is. rewrite lookup_take_lt by exact H. reflexivity. Qed.

(** One iteration pushes the path of the line where the three tests say. *)
Lemma classify_line_arrays (acc : changes) (line : jsstring) :
  ch_untracked (classify_line acc line)
  = ch_untracked acc ++ (if is_untracked_line line then [file_path line] else [])
  /\ ch_staged (classify_line acc line)
     = ch_staged acc ++ (if is_staged_line line then [file_path line] else [])
  /\ ch_modified (classify_line acc line)
     = ch_modified acc ++ (if is_modified_line line then [file_path line] else []).
Proof.
  unfold classify_line, is_staged_line, is_untracked_line, is_modified_line,
    char_is_not, substring_to, file_path.
  rewrite !char_is_take by lia.
  destruct (char_is line 0 63), (char_is line 0 65), (char_is line 0 32),
    (char_is line 1 77), (char_is line 1 68);
    cbn; rewrite ?app_nil_r; repeat split.
Qed.

Lemma status_loop_arrays (lines : list jsstring) (acc : changes) :
  ch_untracked (fold_left classify_line lines acc)
  = ch_untracked acc ++ (file_path <$> filter (fun l => is_untracked_line l = true) lines)
  /\ ch_staged (fold_left classify_line lines acc)
     = ch_staged acc ++ (file_path <$> filter (fun l => is_staged_line l = true) lines)
  /\ ch_modified (fold_left classify_line lines acc)
     = ch_modified acc ++ (file_path <$> filter (fun l => is_modified_line l = true) lines).
Proof.
  revert acc. induction lines as [|line lines IH]; intros acc; cbn [fold_left].
  - rewrite !filter_nil. cbn. rewrite !app_nil_r. repeat split.
  - destruct (IH (classify_line acc line)) as [Hu [Hs Hm]].
    destruct (classify_line_arrays acc line) as [Hu1 [Hs1 Hm1]].
    rewrite Hu, Hs, Hm, Hu1, Hs1, Hm1, !filter_cons.
    destruct (is_untracked_line line), (is_staged_line line), (is_modified_line line);
      repeat case_decide; try congruence;
      cbn; rewrite <- ?app_assoc, ?app_nil_r; repeat split.
Qed.

Lemma elem_of_classified (f : jsstring -> bool) (lines : list jsstring)
      (x : jsstring) :
  x ∈ (file_path <$> filter (fun l => f l = true) lines)
  <-> exists line, line ∈ lines /\ x = file_path line /\ f line = true.
Proof.
  rewrite list_elem_of_fmap. split.
  - intros [line [-> Hl]]. apply list_elem_of_filter in Hl as [Hf Hl]. eauto.
  - intros [line [Hl [-> Hf]]]. exists line. split; [reflexivity|].
    apply list_elem_of_filter. split; assumption.
Qed.

Lemma parse_status_arrays (out : jsstring) :
  ch_untracked (parse_status out)
  = file_path <$> filter (fun l => is_untracked_line l = true) (status_lines out)
  /\ ch_staged (parse_status out)
     = file_path <$> filter (fun l => is_staged_line l = true) (status_lines out)
  /\ ch_modified (parse_status out)
     = file_path <$> filter (fun l => is_modified_line l = true) (status_lines out).
Proof. apply (status_loop_arrays (status_lines out) no_changes). Qed.

Lemma first_char_tests (line : jsstring) :
  (is_untracked_line line = true
   <-> exists c, line !! 0%nat = Some c /\ (c = 63 \/ c = 65))
  /\ (line <> [] ->
      is_staged_line line = true
      <-> exists c, line !! 0%nat = Some c /\ c <> 63 /\ c <> 65 /\ c <> 32).
Proof.
  unfold is_staged_line, is_untracked_line, char_is_not, char_is.
  destruct line as [|c line]; cbn.
  - split; [|congruence]. split; [discriminate|]. intros [c [H _]]. discriminate.
  - destruct (N.eqb_spec c 63), (N.eqb_spec c 65), (N.eqb_spec c 32); cbn;
      split; try intros _; split; try discriminate; try (intros _; eexists; split; [reflexivity|]; lia);
      intros [c' [[= <-] H]]; lia.
Qed.

Lemma status_lines_nonempty (out line : jsstring) :
  line ∈ status_lines out -> line <> [].
Proof.
  unfold status_lines. intros H. apply list_elem_of_filter in H as [H _].
  destruct line; [discriminate|congruence].
Qed.

(** ** The lines that reach the status loop *)

Import Porcelain.

Lemma split_plain (a : jsstring) :
  Forall (fun c => c <> 10) a -> split 10 a = [a].
Proof.
  intros H. induction H as [|x a Hx _ IH]; cbn [split]; [reflexivity|].
  destruct (N.eqb_spec x 10) as [->|_]; [congruence|]. rewrite IH. reflexivity.
Qed.

Lemma split_app_newline (a b : jsstring) :
  Forall (fun c => c <> 10) a -> split 10 (a ++ 10 :: b) = a :: split 10 b.
Proof.
  intros H. induction H as [|x a Hx _ IH]; cbn [app split]; [reflexivity|].
  destruct (N.eqb_spec x 10) as [->|_]; [congruence|]. rewrite IH. reflexivity.
Qed.

Lemma split_join (lines : list jsstring) :
  lines <> [] ->
  Forall (fun l => Forall (fun c => c <> 10) l) lines ->
  split 10 (join [10] lines) = lines.
Proof.
  intros Hne H. induction H as [|l lines Hl Hrest IH]; [congruence|].
  destruct lines as [|l2 lines].
  - apply split_plain. exact Hl.
  - change (join [10] (l :: l2 :: lines))
      with (l ++ 10 :: join [10] (l2 :: lines)).
    rewrite split_app_newline by exact Hl.
    rewrite IH by congruence. reflexivity.
Qed.

Lemma printed_join (lines : list jsstring) :
  lines <> [] -> printed lines = join [10] lines ++ [10].
Proof.
  intros Hne. induction lines as [|l lines IH]; [congruence|].
  unfold printed in *. cbn [fmap list_fmap concat].
  destruct lines as [|l2 lines].
  - cbn. rewrite app_nil_r. reflexivity.
  - rewrite IH by congruence.
    change (join [10] (l :: l2 :: lines))
      with (l ++ [10] ++ join [10] (l2 :: lines)).
    rewrite <- !app_assoc. reflexivity.
Qed.

Lemma join_ends (lines : list jsstring) :
  lines <> [] ->
  Forall (fun l => exists body c, l = body ++ [c] /\ is_space c = false) lines ->
  exists body c, join [10] lines = body ++ [c] /\ is_space c = false.
Proof.
  intros Hne H. induction H as [|l lines Hl Hrest IH]; [congruence|].
  destruct lines as [|l2 lines]; [exact Hl|].
  change (join [10] (l :: l2 :: lines))
    with (l ++ [10] ++ join [10] (l2 :: lines)).
  destruct IH as (body & c & -> & Hc); [congruence|].
  exists (l ++ [10] ++ body), c. rewrite <- !app_assoc. split; [reflexivity|exact Hc].
Qed.

Lemma trimEnd_newline (body : jsstring) (c : N) :
  is_space c = false -> trimEnd ((body ++ [c]) ++ [10]) = body ++ [c].
Proof.
  intros Hc. unfold trimEnd. rewrite !rev_app_distr. cbn [rev app drop_while].
  change (is_space 10) with true. cbv iota. rewrite Hc.
  cbn [rev]. rewrite rev_involutive. reflexivity.
Qed.

Lemma trimStart_app (body : jsstring) (c : N) (rest : jsstring) :
  is_space c = false ->
  trimStart ((body ++ [c]) ++ rest) = trimStart (body ++ [c]) ++ rest.
Proof.
  intros Hc. unfold trimStart. rewrite <- app_assoc. cbn [app].
  rewrite !drop_while_app_stop by exact Hc.
  rewrite <- app_assoc. reflexivity.
Qed.

Lemma trimStart_line_ok (l : jsstring) : line_ok l -> line_ok (trimStart l).
Proof.
  intros [Hn (body & c & -> & Hc)]. split.
  - destruct (drop_while_suffix is_space (body ++ [c])) as [a Ha].
    rewrite Ha in Hn. apply Forall_app in Hn as [_ Hn]. exact Hn.
  - unfold trimStart. rewrite drop_while_app_stop by exact Hc. eauto.
Qed.

(** What the status loop goes through, for an output as git prints it:
    the printed lines, the first without its leading white space. *)
Lemma status_lines_printed (lines : list jsstring) :
  Forall line_ok lines -> status_lines (printed lines) = seen lines.
Proof.
  intros H. destruct lines as [|l rest]; [reflexivity|].
  inversion H as [|? ? Hl Hrest]; subst.
  assert (Hseen : Forall line_ok (seen (l :: rest))).
  { constructor; [apply trimStart_line_ok; exact Hl|exact Hrest]. }
  assert (Htrim : trim (printed (l :: rest)) = join [10] (seen (l :: rest))).
  { rewrite printed_join by congruence.
    destruct Hl as [_ (body & c & -> & Hc)].
    assert (Hstart : trimStart (join [10] ((body ++ [c]) :: rest) ++ [10])
                     = join [10] (seen ((body ++ [c]) :: rest)) ++ [10]).
    { cbn [seen]. destruct rest as [|l2 rest].
      - apply trimStart_app. exact Hc.
      - change (join [10] ((body ++ [c]) :: l2 :: rest))
          with ((body ++ [c]) ++ [10] ++ join [10] (l2 :: rest)).
        change (join [10] (trimStart (body ++ [c]) :: l2 :: rest))
          with (trimStart (body ++ [c]) ++ [10] ++ join [10] (l2 :: rest)).
        rewrite <- (app_assoc (body ++ [c])).
        rewrite trimStart_app by exact Hc. rewrite <- !app_assoc. reflexivity. }
    unfold trim. rewrite Hstart.
    destruct (join_ends (seen ((body ++ [c]) :: rest))) as (b & c' & -> & Hc').
    - cbn [seen]. congruence.
    - eapply Forall_impl; [exact Hseen|]. intros x [_ Hx]. exact Hx.
    - apply trimEnd_newline. exact Hc'. }
  unfold status_lines. rewrite Htrim, split_join.
  - clear Htrim. induction Hseen as [|x xs [_ (b & c & -> & _)] _ IH]; [reflexivity|].
    rewrite filter_cons_True; [f_equal; exact IH|].
    destruct b; reflexivity.
  - cbn [seen]. congruence.
  - eapply Forall_impl; [exact Hseen|]. intros x [Hx _]. exact Hx.
Qed.

Lemma seen_unless_space (lines : list jsstring) :
  begins_with_space lines = false -> seen lines = lines.
Proof.
  destruct lines as [|[|c l] rest]; cbn [begins_with_space seen]; try reflexivity.
  intros Hc. unfold trimStart. cbn [drop_while]. rewrite Hc. reflexivity.
Qed.

Lemma read_as_printed_seen (lines : list jsstring) (line : jsstring) :
  line ∈ read_as_printed lines -> line ∈ seen lines.
Proof.
  unfold read_as_printed. destruct (begins_with_space lines) eqn:Hb.
  - destruct lines as [|l rest]; cbn [tail seen]; [intros H; exact H|].
    intros H. apply list_elem_of_further. exact H.
  - rewrite seen_unless_space by exact Hb. intros H; exact H.
Qed.

(** C3, as the loop classifies the lines git prints.  A line reaches the
    loop as printed unless it is a first line that begins with white
    space.  Of a line that does, the path is pushed to [untracked] when
    the first character is [?] or [A], and to [staged] when it is
    neither [?], [A] nor a space.  When the first line does not begin
    with white space, these are the only paths in [untracked] and
    [staged].  The output [?? newfile.txt] puts [newfile.txt] in
    [untracked] only. *)
Theorem untracked_and_staged_by_first_character
  (path_join : jsstring -> jsstring -> jsstring)
  (fs_exists : jsstring -> bool)
  (fs_read : jsstring -> result jsstring)
  (exec : jsstring -> jsstring -> result jsstring)
  (p : jsstring) (lines : list jsstring) :
  truthy p = true ->
  fs_exists (path_join p (u ".git")) = true ->
  Forall line_ok lines ->
  exec cmd_status p = Ok (printed lines) ->
  exists g,
    outcome (git_status path_join fs_exists fs_read exec (Some p))
    = Ok (200%Z, JsonStatus g)
    /\ (forall line c,
          line ∈ read_as_printed lines -> line !! 0%nat = Some c ->
          ((c = 63 \/ c = 65) -> file_path line ∈ untracked g)
          /\ (c <> 63 -> c <> 65 -> c <> 32 -> file_path line ∈ staged g))
    /\ (begins_with_space lines = false ->
        forall x,
          (x ∈ untracked g
           <-> exists line c,
                 line ∈ lines /\ x = file_path line
                 /\ line !! 0%nat = Some c /\ (c = 63 \/ c = 65))
          /\ (x ∈ staged g
              <-> exists line c,
                    line ∈ lines /\ x = file_path line
                    /\ line !! 0%nat = Some c /\ c <> 63 /\ c <> 65 /\ c <> 32))
    /\ (lines = [u "?? newfile.txt"] ->
        untracked g = [u "newfile.txt"] /\ modified g = [] /\ staged g = []).
Proof.
  intros Hp Hgit Hok Hout.
  exists (snapshot path_join fs_read exec p).
  split; [apply git_status_in_repository; assumption|].
  cbn [snapshot untracked staged modified]. unfold status_changes. rewrite Hout.
  destruct (parse_status_arrays (printed lines)) as [Hu [Hs _]].
  rewrite (status_lines_printed lines Hok) in Hu, Hs.
  assert (Hne : forall line, line ∈ seen lines -> line <> []).
  { intros line Hl. rewrite <- (status_lines_printed lines Hok) in Hl.
    exact (status_lines_nonempty _ _ Hl). }
  split; [|split].
  - intros line c Hl Hc. apply read_as_printed_seen in Hl. split.
    + intros Hq. rewrite Hu. apply elem_of_classified. exists line.
      split; [exact Hl|]. split; [reflexivity|].
      apply (proj1 (first_char_tests line)). exists c. split; assumption.
    + intros H1 H2 H3. rewrite Hs. apply elem_of_classified. exists line.
      split; [exact Hl|]. split; [reflexivity|].
      apply (proj2 (first_char_tests line) (Hne _ Hl)). exists c. auto.
  - intros Hb x. rewrite (seen_unless_space lines Hb) in Hu, Hs, Hne. split.
    + rewrite Hu, elem_of_classified. split.
      * intros [line [Hl [Hx Hf]]].
        apply (proj1 (first_char_tests line)) in Hf as [c Hc].
        exists line, c. tauto.
      * intros [line [c [Hl [Hx Hc]]]]. exists line.
        split; [exact Hl|]. split; [exact Hx|].
        apply (proj1 (first_char_tests line)). exists c. exact Hc.
    + rewrite Hs, elem_of_classified. split.
      * intros [line [Hl [Hx Hf]]].
        apply (proj2 (first_char_tests line) (Hne _ Hl)) in Hf as [c Hc].
        exists line, c. tauto.
      * intros [line [c [Hl [Hx Hc]]]]. exists line.
        split; [exact Hl|]. split; [exact Hx|].
        apply (proj2 (first_char_tests line) (Hne _ Hl)).
        exists c. exact Hc.
  - intros ->. repeat split.
Qed.

Lemma untracked_and_staged_by_first_character_witness :
  exists g,
    outcome (git_status Sample.path_join Sample.fs_exists
               (Sample.fs_read (Ok Sample.head_main) (Throw (u "ENOENT")))
               (Sample.exec Sample.main (Ok (printed [u "?? newfile.txt"]))
                  (Throw []) (Throw []) (Throw []))
               (Some Sample.project))
    = Ok (200%Z, JsonStatus g)
    /\ untracked g = [u "newfile.txt"] /\ modified g = [] /\ staged g = [].
Proof.
  destruct (untracked_and_staged_by_first_character
              Sample.path_join Sample.fs_exists
              (Sample.fs_read (Ok Sample.head_main) (Throw (u "ENOENT")))
              (Sample.exec Sample.main (Ok (printed [u "?? newfile.txt"]))
                 (Throw []) (Throw []) (Throw []))
              Sample.project [u "?? newfile.txt"]
              eq_refl eq_refl)
    as [g [Hg [_ [_ Hex]]]].
  - constructor; [|constructor]. split.
    + repeat constructor; discriminate.
    + exists (u "?? newfile.tx"), 116. split; reflexivity.
  - reflexivity.
  - exists g. split; [exact Hg|]. apply Hex. reflexivity.
Defined.

(** A status line whose first character is [A]: its path is pushed to
    [untracked] and not to [staged]. *)
Lemma added_line_is_untracked :
  exists g,
    outcome (git_status Sample.path_join Sample.fs_exists
               (Sample.fs_read (Ok Sample.head_main) (Throw (u "ENOENT")))
               (Sample.exec Sample.main (Ok (u "A  added.txt" ++ [10]))
                  (Throw []) (Throw []) (Throw []))
               (Some Sample.project))
    = Ok (200%Z, JsonStatus g)
    /\ untracked g = [u "added.txt"]
    /\ staged g = []
    /\ u "added.txt" ∉ staged g.
Proof.
  eexists. split; [vm_compute; reflexivity|].
  cbn [untracked staged]. repeat split. apply not_elem_of_nil.
Qed.

(** C6 at the output of one modified, unstaged file: the whole output is
    trimmed before it is split, so the first line loses its leading
    space, its status is read as [M] followed by a space and its path
    starts one character late. The path [src/a.js] is not in [modified]
    and [rc/a.js] is in [staged]. The same line in second position is
    put in [modified] only, under its full path. *)
Theorem first_status_line_loses_its_leading_space :
  (exists g,
     outcome (git_status Sample.path_join Sample.fs_exists
                (Sample.fs_read (Ok Sample.head_main) (Throw (u "ENOENT")))
                (Sample.exec Sample.main (Ok (u " M src/a.js" ++ [10]))
                   (Throw []) (Throw []) (Throw []))
                (Some Sample.project))
     = Ok (200%Z, JsonStatus g)
     /\ modified g = [u "rc/a.js"]
     /\ staged g = [u "rc/a.js"]
     /\ u "src/a.js" ∉ modified g)
  /\ (exists g,
        outcome (git_status Sample.path_join Sample.fs_exists
                   (Sample.fs_read (Ok Sample.head_main) (Throw (u "ENOENT")))
                   (Sample.exec Sample.main
                      (Ok (u "?? x" ++ [10] ++ u " M src/a.js" ++ [10]))
                      (Throw []) (Throw []) (Throw []))
                   (Some Sample.project))
        = Ok (200%Z, JsonStatus g)
        /\ modified g = [u "src/a.js"]
        /\ staged g = []).
Proof.
  split.
  - eexists. split; [vm_compute; reflexivity|].
    cbn [modified staged]. repeat split.
    intros H. apply list_elem_of_singleton in H. vm_compute in H. discriminate H.
  - eexists. split; [vm_compute; reflexivity|]. repeat split.
Qed.

(** The loop itself classifies as modified the lines whose second
    character is [M] or [D], or whose first character is neither a space
    nor [?]. *)
Lemma modified_by_status_characters (out x : jsstring) :
  x ∈ ch_modified (parse_status out)
  <-> exists line,
        line ∈ status_lines out /\ x = file_path line
        /\ ((char_is line 1 77 || char_is line 1 68)
            || (char_is_not line 0 32 && char_is_not line 0 63)) = true.
Proof.
  destruct (parse_status_arrays out) as [_ [_ Hm]].
  rewrite Hm. apply elem_of_classified.
Qed.

(* ===================================================================== *)
(** * Properties of the command runner                                    *)
(* ===================================================================== *)

Section RunnerFacts.
Import Runner.

(** While only output arrives, the buffers grow and nothing is sent. *)
Lemma on_data_events (evs : list child_event) (r : request) :
  Forall (fun ev => is_data ev = true) evs ->
  fold_left on_event evs r
  = {| r_stdout := r_stdout r ++ stdout_of evs;
       r_stderr := r_stderr r ++ stderr_of evs;
       r_sent := r_sent r |}.
Proof.
  intros H. revert r. induction H as [|ev evs Hev _ IH]; intros r.
  - cbn. rewrite !app_nil_r. destruct r; reflexivity.
  - cbn [fold_left]. rewrite IH.
    destruct ev; try discriminate Hev; cbn; rewrite <- ?app_assoc; reflexivity.
Qed.

(** Responses are only ever added after the ones already written. *)
Lemma sent_grows (evs : list child_event) (r : request) :
  exists more, r_sent (fold_left on_event evs r) = r_sent r ++ more.
Proof.
  revert r. induction evs as [|ev evs IH]; intros r; cbn [fold_left].
  - exists []. rewrite app_nil_r. reflexivity.
  - destruct (IH (on_event r ev)) as [more Hm]. rewrite Hm.
    destruct ev; cbn; try (exists more; reflexivity);
      rewrite <- app_assoc; eexists; reflexivity.
Qed.

(** The first close or error event after the output decides the reply. *)
Lemma reply_after (evs rest : list child_event) (ev : child_event) :
  Forall (fun ev => is_data ev = true) evs ->
  is_data ev = false ->
  reply (run_command (evs ++ ev :: rest))
  = head (r_sent (on_event {| r_stdout := stdout_of evs;
                              r_stderr := stderr_of evs;
                              r_sent := [] |} ev)).
Proof.
  intros H Hev. unfold reply, run_command.
  rewrite fold_left_app, (on_data_events evs start H).
  cbn [fold_left start r_stdout r_stderr r_sent app].
  destruct (sent_grows rest
              (on_event {| r_stdout := stdout_of evs; r_stderr := stderr_of evs;
                           r_sent := [] |} ev)) as [more Hm].
  rewrite Hm. destruct ev; try discriminate Hev; reflexivity.
Qed.

(** C9, as the handler answers: when the spawned shell runs to
    completion (output chunks, then the close event) the client receives
    status 200 with everything written to stdout, everything written to
    stderr and the exit code, zero or not.  A command that does not exist
    is such a run: the reply is status 200 with the note of the shell and
    its exit code.  Only when the shell itself cannot be started (the
    error event) does the client receive status 500, which the client
    treats as a failure and which no completed run produces. *)
Theorem run_command_exit_code_is_not_a_failure
  (evs rest : list child_event) :
  Forall (fun ev => is_data ev = true) evs ->
  (forall code,
      reply (run_command (evs ++ Close code :: rest))
      = Some (200%Z, {| stdout := stdout_of evs; stderr := stderr_of evs;
                        exit_code := code |})
      /\ response_ok (200%Z, {| stdout := stdout_of evs; stderr := stderr_of evs;
                                exit_code := code |}) = true)
  /\ (forall note code,
         reply (run_command (command_not_found note code ++ rest))
         = Some (200%Z, {| stdout := []; stderr := note;
                           exit_code := Some code |}))
  /\ (forall message,
         reply (run_command (evs ++ Error message :: rest))
         = Some (500%Z, {| stdout := []; stderr := message;
                           exit_code := Some (-1)%Z |})
         /\ response_ok (500%Z, {| stdout := []; stderr := message;
                                   exit_code := Some (-1)%Z |}) = false
         /\ forall evs' rest' code,
              Forall (fun ev => is_data ev = true) evs' ->
              reply (run_command (evs' ++ Close code :: rest'))
              <> reply (run_command (evs ++ Error message :: rest))).
Proof.
  intros H. split; [|split].
  - intros code. rewrite (reply_after evs rest (Close code) H eq_refl).
    split; reflexivity.
  - intros note code.
    change (command_not_found note code ++ rest)
      with ([StderrData note] ++ Close (Some code) :: rest).
    rewrite (reply_after [StderrData note] rest (Close (Some code))
               ltac:(repeat constructor) eq_refl).
    cbn. rewrite app_nil_r. reflexivity.
  - intros message. rewrite (reply_after evs rest (Error message) H eq_refl).
    split; [reflexivity|]. split; [reflexivity|].
    intros evs' rest' code H'.
    rewrite (reply_after evs' rest' (Close code) H' eq_refl).
    cbn. discriminate.
Qed.

Lemma run_command_exit_code_is_not_a_failure_witness :
  reply (run_command [StdoutData (u "building"); StderrData (u "warning");
                      StdoutData (u " done"); Close (Some 2%Z)])
  = Some (200%Z, {| stdout := u "building done"; stderr := u "warning";
                    exit_code := Some 2%Z |}).
Proof.
  apply (proj1 (run_command_exit_code_is_not_a_failure
                  [StdoutData (u "building"); StderrData (u "warning");
                   StdoutData (u " done")] []
                  ltac:(repeat constructor)) (Some 2%Z)).
Defined.

(** A command that does not exist, run through a POSIX shell: the
    command could not be started, and the client receives status 200
    with exit code 127, an ordinary result. *)
Lemma missing_executable_is_an_exit_code :
  reply (run_command
           (command_not_found (u "/bin/sh: 1: nosuchtool: not found" ++ [10]) 127))
  = Some (200%Z, {| stdout := [];
                    stderr := u "/bin/sh: 1: nosuchtool: not found" ++ [10];
                    exit_code := Some 127%Z |})
  /\ response_ok (200%Z, {| stdout := [];
                            stderr := u "/bin/sh: 1: nosuchtool: not found" ++ [10];
                            exit_code := Some 127%Z |}) = true.
Proof. split; reflexivity. Qed.

End RunnerFacts.

(* ===================================================================== *)
(** * Properties of the endpoint pattern                                  *)
(* ===================================================================== *)

Section PatternFacts.
Import Proc.

Lemma take_while_all (f : N -> bool) (s : jsstring) :
  all_chars f (take_while f s).
Proof.
  unfold all_chars. induction s as [|c s IH]; cbn; [constructor|].
  destruct (f c) eqn:Hc; constructor; assumption.
Qed.

Lemma take_drop_while (f : N -> bool) (s : jsstring) :
  s = take_while f s ++ drop_while f s.
Proof.
  induction s as [|c s IH]; cbn; [reflexivity|].
  destruct (f c); cbn; [f_equal; exact IH|reflexivity].
Qed.

Lemma take_while_app_nonempty (f : N -> bool) (body post : jsstring) :
  body <> [] -> all_chars f body -> take_while f (body ++ post) <> [].
Proof.
  intros Hne Hall. destruct body as [|c body]; [congruence|].
  inversion Hall as [|? ? Hc _]; subst. cbn. rewrite Hc. discriminate.
Qed.

Lemma match_url_rest_sound (pre rest m : jsstring) :
  match_url_rest pre rest = Some m ->
  exists body post,
    m = pre ++ u "://" ++ body /\ body <> []
    /\ all_chars (fun c => negb (is_space c)) body
    /\ rest = u "://" ++ body ++ post.
Proof.
  unfold match_url_rest.
  destruct (strip_prefix (u "://") rest) as [r|] eqn:Hr; [|discriminate].
  apply strip_prefix_Some in Hr.
  destruct (take_while (fun c => negb (is_space c)) r) as [|c body] eqn:Hb;
    [discriminate|].
  intros [= <-].
  exists (c :: body), (drop_while (fun c => negb (is_space c)) r).
  split; [reflexivity|]. split; [discriminate|].
  split; [rewrite <- Hb; apply take_while_all|].
  rewrite Hr. f_equal. rewrite <- Hb. apply take_drop_while.
Qed.

Lemma match_url_rest_complete (pre body post : jsstring) :
  body <> [] -> all_chars (fun c => negb (is_space c)) body ->
  match_url_rest pre (u "://" ++ body ++ post) <> None.
Proof.
  intros Hne Hall. unfold match_url_rest. rewrite strip_prefix_app.
  pose proof (take_while_app_nonempty _ body post Hne Hall) as H.
  destruct (take_while (fun c => negb (is_space c)) (body ++ post));
    [congruence|discriminate].
Qed.

Lemma match_host_sound (host s m : jsstring) :
  match_host host s = Some m ->
  exists port post,
    m = host ++ port /\ port <> [] /\ all_chars is_digit port
    /\ s = host ++ port ++ post.
Proof.
  unfold match_host.
  destruct (strip_prefix host s) as [r|] eqn:Hr; [|discriminate].
  apply strip_prefix_Some in Hr.
  destruct (take_while is_digit r) as [|c port] eqn:Hb; [discriminate|].
  intros [= <-].
  exists (c :: port), (drop_while is_digit r).
  split; [reflexivity|]. split; [discriminate|].
  split; [rewrite <- Hb; apply take_while_all|].
  rewrite Hr. f_equal. rewrite <- Hb. apply take_drop_while.
Qed.

Lemma match_host_complete (host port post : jsstring) :
  port <> [] -> all_chars is_digit port ->
  match_host host (host ++ port ++ post) <> None.
Proof.
  intros Hne Hall. unfold match_host. rewrite strip_prefix_app.
  pose proof (take_while_app_nonempty _ port post Hne Hall) as H.
  destruct (take_while is_digit (port ++ post)); [congruence|discriminate].
Qed.

Lemma match_url_sound (s m : jsstring) :
  match_url s = Some m -> token m /\ exists post, s = m ++ post.
Proof.
  unfold match_url.
  destruct (strip_prefix (u "http") s) as [r|] eqn:Hr; [|discriminate].
  apply strip_prefix_Some in Hr. subst s.
  destruct (strip_prefix (u "s") r) as [r'|] eqn:Hs.
  - apply strip_prefix_Some in Hs. subst r.
    destruct (match_url_rest (u "https") r') as [m'|] eqn:Hm.
    + intros [= <-]. apply match_url_rest_sound in Hm
        as [body [post [-> [Hne [Hall ->]]]]].
      split; [apply (token_https body Hne Hall)|].
      exists post. rewrite <- !app_assoc. reflexivity.
    + intros H. apply match_url_rest_sound in H
        as [body [post [_ [_ [_ H]]]]]. discriminate H.
  - intros H. apply match_url_rest_sound in H
      as [body [post [-> [Hne [Hall ->]]]]].
    split; [apply (token_http body Hne Hall)|].
    exists post. rewrite <- !app_assoc. reflexivity.
Qed.

(** A match at the start of [s] is a token and a prefix of [s]. *)
Lemma match_here_sound (s m : jsstring) :
  match_here s = Some m -> token m /\ exists post, s = m ++ post.
Proof.
  unfold match_here.
  destruct (match_url s) as [m1|] eqn:H1.
  { intros [= <-]. apply match_url_sound. exact H1. }
  destruct (match_host (u "localhost:") s) as [m2|] eqn:H2.
  { intros [= <-]. apply match_host_sound in H2
      as [port [post [-> [Hne [Hall ->]]]]].
    split; [apply (token_localhost port Hne Hall)|].
    exists post. rewrite <- app_assoc. reflexivity. }
  intros H3. apply match_host_sound in H3
    as [port [post [-> [Hne [Hall ->]]]]].
  split; [apply (token_loopback port Hne Hall)|].
  exists post. rewrite <- app_assoc. reflexivity.
Qed.

(** Where a token starts, the pattern has a match. *)
Lemma match_here_complete (tok post : jsstring) :
  token tok -> match_here (tok ++ post) <> None.
Proof.
  intros Ht. unfold match_here.
  destruct Ht as [body Hne Hall | body Hne Hall | port Hne Hall | port Hne Hall].
  - assert (H : match_url ((u "http://" ++ body) ++ post) <> None).
    { unfold match_url.
      change ((u "http://" ++ body) ++ post)
        with (u "http" ++ (u "://" ++ body) ++ post).
      rewrite strip_prefix_app. rewrite <- app_assoc.
      change (strip_prefix (u "s") (u "://" ++ body ++ post)) with (@None jsstring).
      apply match_url_rest_complete; assumption. }
    destruct (match_url ((u "http://" ++ body) ++ post)); [discriminate|congruence].
  - assert (H : match_url ((u "https://" ++ body) ++ post) <> None).
    { unfold match_url.
      change ((u "https://" ++ body) ++ post)
        with (u "http" ++ u "s" ++ (u "://" ++ body) ++ post).
      rewrite !strip_prefix_app. rewrite <- app_assoc.
      pose proof (match_url_rest_complete (u "https") body post Hne Hall) as Hc.
      destruct (match_url_rest (u "https") (u "://" ++ body ++ post));
        [discriminate|congruence]. }
    destruct (match_url ((u "https://" ++ body) ++ post)); [discriminate|congruence].
  - destruct (match_url ((u "localhost:" ++ port) ++ post)); [discriminate|].
    rewrite <- app_assoc.
    pose proof (match_host_complete (u "localhost:") port post Hne Hall) as Hc.
    destruct (match_host (u "localhost:") (u "localhost:" ++ port ++ post));
      [discriminate|congruence].
  - destruct (match_url ((u "127.0.0.1:" ++ port) ++ post)); [discriminate|].
    destruct (match_host (u "localhost:") ((u "127.0.0.1:" ++ port) ++ post));
      [discriminate|].
    rewrite <- app_assoc. apply match_host_complete; assumption.
Qed.

Lemma url_match_sound (text m : jsstring) :
  url_match text = Some m ->
  token m /\ exists pre post, text = pre ++ m ++ post.
Proof.
  induction text as [|c text IH]; cbn [url_match].
  - destruct (match_here []) as [m'|] eqn:H; [|discriminate].
    intros [= <-]. apply match_here_sound in H as [Ht [post Hp]].
    split; [exact Ht|]. exists [], post. exact Hp.
  - destruct (match_here (c :: text)) as [m'|] eqn:H.
    + intros [= <-]. apply match_here_sound in H as [Ht [post Hp]].
      split; [exact Ht|]. exists [], post. exact Hp.
    + intros Hm. destruct (IH Hm) as [Ht [pre [post Hp]]].
      split; [exact Ht|]. exists (c :: pre), post. rewrite Hp. reflexivity.
Qed.

Lemma url_match_complete (pre tok post : jsstring) :
  token tok -> url_match (pre ++ tok ++ post) <> None.
Proof.
  intros Ht. induction pre as [|c pre IH].
  - cbn [app]. pose proof (match_here_complete tok post Ht) as H.
    destruct (tok ++ post) as [|x s] eqn:E; cbn [url_match];
      destruct (match_here _); congruence.
  - cbn [app url_match]. destruct (match_here (c :: pre ++ tok ++ post));
      [discriminate|exact IH].
Qed.

(** The search finds nothing exactly in the texts that contain no token. *)
Lemma url_match_none_iff (text : jsstring) :
  url_match text = None <-> ~ contains_token text.
Proof.
  split.
  - intros H [pre [tok [post [-> Ht]]]].
    apply (url_match_complete pre tok post Ht). exact H.
  - intros H. destruct (url_match text) as [m|] eqn:Hm; [|reflexivity].
    exfalso. apply H. apply url_match_sound in Hm as [Ht [pre [post Hp]]].
    exists pre, m, post. split; assumption.
Qed.

(** What is recorded for a token: an absolute URL as it is, a bare host
    and port behind [http://]. *)
Lemma normalize_token (m : jsstring) :
  token m ->
  (startsWith (u "http") m = true /\ normalize m = m)
  \/ (startsWith (u "http") m = false /\ normalize m = u "http://" ++ m
      /\ exists port, m = u "localhost:" ++ port \/ m = u "127.0.0.1:" ++ port).
Proof.
  intros [body _ _ | body _ _ | port _ _ | port _ _]; unfold normalize.
  - left. split; reflexivity.
  - left. split; reflexivity.
  - right. split; [reflexivity|]. split; [reflexivity|]. exists port. left. reflexivity.
  - right. split; [reflexivity|]. split; [reflexivity|]. exists port. right. reflexivity.
Qed.

Lemma normalize_truthy (m : jsstring) : truthy (normalize m) = true.
Proof.
  unfold normalize. destruct (startsWith (u "http") m) eqn:H; [|reflexivity].
  destruct m; [discriminate H|reflexivity].
Qed.

End PatternFacts.

(* ===================================================================== *)
(** * Properties of the process supervisor                                *)
(* ===================================================================== *)

Section SupervisorFacts.
Import Proc.

Lemma checkForUrl_pid (c : child) (table : gmap N info) (text : jsstring) :
  pid (fst (checkForUrl c table text)) = pid c.
Proof.
  unfold checkForUrl. destruct (negb (truthy_opt (url c))); [|reflexivity].
  destruct (url_match text); reflexivity.
Qed.

Lemma checkForUrl_other (c : child) (table : gmap N info) (text : jsstring)
      (q : N) :
  q <> pid c -> snd (checkForUrl c table text) !! q = table !! q.
Proof.
  intros Hq. unfold checkForUrl.
  destruct (negb (truthy_opt (url c))); [|reflexivity].
  destruct (url_match text); [|reflexivity].
  cbn. apply lookup_insert_ne. congruence.
Qed.

Lemma checkForUrl_agrees (c : child) (table : gmap N info) (text : jsstring) :
  agrees c (table !! pid c) ->
  agrees (fst (checkForUrl c table text))
         (snd (checkForUrl c table text) !! pid c).
Proof.
  intros Ha. unfold checkForUrl.
  destruct (truthy_opt (url c)) eqn:Ht; cbn [negb fst snd]; [exact Ha|].
  destruct (url_match text) as [m|]; cbn [fst snd]; [|exact Ha].
  rewrite lookup_insert_eq. split; [reflexivity|apply normalize_truthy].
Qed.

Lemma chunks_of_data (h h' : nat) (text : jsstring) :
  chunks_of h [Data h' text] = if bool_decide (h' = h) then [text] else [].
Proof. unfold chunks_of. cbn. destruct (bool_decide (h' = h)); reflexivity. Qed.

Lemma endpoint_from_app (v : option jsstring) (a b : list jsstring) :
  endpoint_from (endpoint_from v a) b = endpoint_from v (a ++ b).
Proof.
  destruct v as [s|]; [reflexivity|]. cbn [endpoint_from].
  induction a as [|text a IH]; cbn [first_endpoint app]; [reflexivity|].
  destruct (url_match text); [reflexivity|exact IH].
Qed.

Lemma chunks_of_app (h : nat) (a b : list event) :
  chunks_of h (a ++ b) = chunks_of h a ++ chunks_of h b.
Proof. apply omap_app. Qed.

Lemma first_endpoint_none_iff (chunks : list jsstring) :
  first_endpoint chunks = None
  <-> Forall (fun text => ~ contains_token text) chunks.
Proof.
  induction chunks as [|text chunks IH]; cbn [first_endpoint].
  - split; [constructor|reflexivity].
  - destruct (url_match text) as [m|] eqn:Hm.
    + split; [discriminate|]. intros H. inversion H as [|? ? Hn _]; subst.
      apply url_match_none_iff in Hn. congruence.
    + rewrite IH. split.
      * intros H. constructor; [apply url_match_none_iff; exact Hm|exact H].
      * intros H. inversion H; assumption.
Qed.

Lemma first_endpoint_some (chunks : list jsstring) (v : jsstring) :
  first_endpoint chunks = Some v ->
  exists before text after m,
    chunks = before ++ text :: after
    /\ Forall (fun text => ~ contains_token text) before
    /\ url_match text = Some m /\ v = normalize m.
Proof.
  induction chunks as [|text chunks IH]; cbn [first_endpoint]; [discriminate|].
  destruct (url_match text) as [m|] eqn:Hm.
  - intros [= <-]. exists [], text, chunks, m. repeat split; [constructor|exact Hm].
  - intros H. destruct (IH H) as [before [t [after [m [-> [Hb [Ht Hv]]]]]]].
    exists (text :: before), t, after, m.
    repeat split; try assumption.
    constructor; [apply url_match_none_iff; exact Hm|exact Hb].
Qed.

(** ** The closure of one child *)

(** The variable [url] of a closure is [null] until the first match, and
    a non-empty string from then on. *)
Lemma endpoint_from_settled (v : option jsstring) (chunks : list jsstring) :
  v = None \/ truthy_opt v = true ->
  endpoint_from v chunks = None \/ truthy_opt (endpoint_from v chunks) = true.
Proof.
  intros [-> | Hv].
  - cbn [endpoint_from].
    destruct (first_endpoint chunks) as [s|] eqn:Hs; [right|left; reflexivity].
    destruct (first_endpoint_some _ _ Hs) as (_ & _ & _ & m & _ & _ & _ & ->).
    apply normalize_truthy.
  - right. destruct v as [s|]; [exact Hv|discriminate Hv].
Qed.

Lemma checkForUrl_url (c : child) (table : gmap N info) (text : jsstring) :
  url c = None \/ truthy_opt (url c) = true ->
  url (fst (checkForUrl c table text)) = endpoint_from (url c) [text].
Proof.
  intros [Hu | Hu]; unfold checkForUrl; rewrite Hu; cbn [negb truthy_opt].
  - cbn [endpoint_from first_endpoint].
    destruct (url_match text); cbn [fst url]; reflexivity.
  - cbn [fst url]. destruct (url c); [reflexivity|discriminate Hu].
Qed.

(** What the closure of child [h] holds after some events: the first
    match among its own chunks, whatever happens to other children. *)
Lemma child_url_run (evs : list event) (w : world) (h : nat) (c : child) :
  children w !! h = Some c ->
  url c = None \/ truthy_opt (url c) = true ->
  exists c', children (run w evs) !! h = Some c' /\ pid c' = pid c
             /\ url c' = endpoint_from (url c) (chunks_of h evs).
Proof.
  revert w c. induction evs as [|ev evs IH]; intros w c Hc Hu.
  - exists c. split; [exact Hc|]. split; [reflexivity|].
    destruct (url c); reflexivity.
  - change (ev :: evs) with ([ev] ++ evs).
    rewrite chunks_of_app, <- endpoint_from_app.
    change (run w ([ev] ++ evs)) with (run (step w ev) evs).
    assert (Hstep : exists c1, children (step w ev) !! h = Some c1
                               /\ pid c1 = pid c
                               /\ url c1 = endpoint_from (url c) (chunks_of h [ev])).
    { destruct ev as [cmd a p | h' text | h']; cbn [step].
      - exists c. split; [apply lookup_app_l_Some; exact Hc|].
        split; [reflexivity|]. destruct (url c); reflexivity.
      - rewrite chunks_of_data.
        destruct (children w !! h') as [c1|] eqn:Hc1.
        2:{ exists c. split; [exact Hc|]. split; [reflexivity|].
            case_bool_decide; [congruence|]. destruct (url c); reflexivity. }
        pose proof (checkForUrl_pid c1 (runningProcesses w) text) as Hpid.
        pose proof (checkForUrl_url c1 (runningProcesses w) text) as Hurl.
        destruct (checkForUrl c1 (runningProcesses w) text) as [c2 table].
        cbn [fst] in Hpid, Hurl. cbn [children].
        case_bool_decide as Hh.
        + subst h'. assert (c1 = c) by congruence. subst c1.
          exists c2. split; [|split; [exact Hpid|exact (Hurl Hu)]].
          apply list_lookup_insert_eq. apply lookup_lt_Some in Hc. exact Hc.
        + exists c. split; [|split; [reflexivity|destruct (url c); reflexivity]].
          rewrite list_lookup_insert_ne by exact Hh. exact Hc.
      - exists c. split; [|split; [reflexivity|destruct (url c); reflexivity]].
        destruct (children w !! h'); exact Hc. }
    destruct Hstep as (c1 & Hc1 & Hp1 & Hu1).
    destruct (IH (step w ev) c1 Hc1) as (c' & Hc' & Hp' & Hu').
    { rewrite Hu1. apply endpoint_from_settled. exact Hu. }
    exists c'. split; [exact Hc'|]. split; [congruence|]. rewrite <- Hu1. exact Hu'.
Qed.

(** ** The table and the open children *)

Lemma consistent_init (os : gset N) : consistent (init os) (0%nat, ∅).
Proof.
  split; [reflexivity|]. split; [|split].
  - intros h q H. cbn [snd] in H. rewrite lookup_empty in H. discriminate H.
  - intros h1 h2 q H. cbn [snd] in H. rewrite lookup_empty in H. discriminate H.
  - intros q _. apply lookup_empty.
Qed.

Lemma consistent_step (w : world) (s : open_children) (ev : event) :
  consistent w s -> allowed s ev = true ->
  consistent (step w ev) (observe s ev).
Proof.
  destruct s as [n live]. intros (Hn & Hopen & Huniq & Hnone) Hal.
  cbn [fst snd] in Hn, Hopen, Huniq, Hnone.
  assert (Hfresh : live !! n = None).
  { destruct (live !! n) as [q|] eqn:Hq; [|reflexivity].
    destruct (Hopen _ _ Hq) as (c & Hc & _). apply lookup_lt_Some in Hc. lia. }
  destruct ev as [cmd a p | h text | h];
    cbn [step observe allowed fst snd] in Hal |- *;
    apply bool_decide_eq_true in Hal.
  - (* a new child, with an id that no open child has *)
    split; [|split; [|split]]; cbn [fst snd children runningProcesses].
    + rewrite length_app. cbn [length]. lia.
    + intros h q Hq. apply lookup_insert_Some in Hq as [[E1 E2] | [Hne Hq]].
      * subst h q. eexists. split; [apply list_lookup_middle; exact Hn|].
        split; [reflexivity|].
        rewrite Hnone; [reflexivity|].
        intros h' Hh'. exact (Hal _ _ Hh' eq_refl).
      * destruct (Hopen _ _ Hq) as (c & Hc & Hp & Ha). exists c.
        split; [apply lookup_app_l_Some; exact Hc|]. split; assumption.
    + intros h1 h2 q H1 H2.
      apply lookup_insert_Some in H1 as [[E1 E1'] | [Hne1 H1]];
        apply lookup_insert_Some in H2 as [[E2 E2'] | [Hne2 H2]].
      * congruence.
      * subst q. exfalso. exact (Hal _ _ H2 eq_refl).
      * subst q. exfalso. exact (Hal _ _ H1 eq_refl).
      * exact (Huniq _ _ _ H1 H2).
    + intros q Hq. apply Hnone. intros h Hh. apply (Hq h).
      rewrite lookup_insert_ne; [exact Hh|]. intros ->. congruence.
  - (* a chunk of an open child *)
    destruct Hal as [q Hq]. destruct (Hopen _ _ Hq) as (c & Hc & Hp & Ha).
    rewrite Hc.
    pose proof (checkForUrl_pid c (runningProcesses w) text) as Hpid.
    pose proof (checkForUrl_other c (runningProcesses w) text) as Hother.
    pose proof (checkForUrl_agrees c (runningProcesses w) text) as Hagr.
    destruct (checkForUrl c (runningProcesses w) text) as [c2 table].
    cbn [fst snd] in Hpid, Hother, Hagr.
    split; [|split; [|split]]; cbn [fst snd children runningProcesses].
    + rewrite length_insert. exact Hn.
    + intros h' q' Hq'. destruct (decide (h' = h)) as [->|Hne].
      * assert (q' = q) by congruence. subst q'. exists c2.
        split; [apply list_lookup_insert_eq; apply lookup_lt_Some in Hc; exact Hc|].
        split; [congruence|]. rewrite <- Hp. apply Hagr. rewrite Hp. exact Ha.
      * destruct (Hopen _ _ Hq') as (c' & Hc' & Hp' & Ha'). exists c'.
        split; [rewrite list_lookup_insert_ne by congruence; exact Hc'|].
        split; [exact Hp'|]. rewrite Hother; [exact Ha'|].
        intros E. apply Hne. apply (Huniq _ _ q); congruence.
    + exact Huniq.
    + intros q0 Hq0. rewrite Hother; [apply Hnone; exact Hq0|].
      intros ->. apply (Hq0 h). congruence.
  - (* the close event of an open child *)
    destruct Hal as [q Hq]. destruct (Hopen _ _ Hq) as (c & Hc & Hp & Ha).
    rewrite Hc.
    split; [exact Hn|]. split; [|split]; cbn [fst snd children runningProcesses].
    + intros h' q' Hq'. apply lookup_delete_Some in Hq' as [Hne Hq'].
      destruct (Hopen _ _ Hq') as (c' & Hc' & Hp' & Ha'). exists c'.
      split; [exact Hc'|]. split; [exact Hp'|].
      rewrite lookup_delete_ne; [exact Ha'|].
      intros E. apply Hne. apply (Huniq _ _ q); congruence.
    + intros h1 h2 q0 H1 H2.
      apply lookup_delete_Some in H1 as [_ H1].
      apply lookup_delete_Some in H2 as [_ H2].
      exact (Huniq _ _ _ H1 H2).
    + intros q0 Hq0. destruct (decide (q0 = pid c)) as [->|Hne].
      * apply lookup_delete_eq.
      * rewrite lookup_delete_ne by congruence. apply Hnone.
        intros h' Hh'. destruct (decide (h' = h)) as [->|Hne'].
        -- congruence.
        -- apply (Hq0 h'). rewrite lookup_delete_ne by congruence. exact Hh'.
Qed.

Lemma well_formed_from_app (a b : list event) (s : open_children) :
  well_formed_from s (a ++ b)
  = well_formed_from s a && well_formed_from (fold_left observe a s) b.
Proof.
  revert s. induction a as [|ev a IH]; intros s; cbn [app well_formed_from fold_left].
  - reflexivity.
  - rewrite IH. apply andb_assoc.
Qed.

Lemma consistent_run (evs : list event) (w : world) (s : open_children) :
  consistent w s -> well_formed_from s evs = true ->
  consistent (run w evs) (fold_left observe evs s).
Proof.
  revert w s. induction evs as [|ev evs IH]; intros w s Hc Hw; [exact Hc|].
  cbn [well_formed_from] in Hw. apply andb_true_iff in Hw as [Hal Hw].
  cbn [run fold_left].
  apply IH; [apply consistent_step; assumption|exact Hw].
Qed.

(** A child stays open until its close event. *)
Lemma open_stays (evs : list event) (s : open_children) (h : nat) (p : N) :
  (h < fst s)%nat -> snd s !! h = Some p ->
  Forall (fun ev => ev <> Closed h) evs ->
  snd (fold_left observe evs s) !! h = Some p.
Proof.
  intros Hlt Hp Hq. revert s Hlt Hp.
  induction Hq as [|ev evs Hev _ IH]; intros s Hlt Hp; [exact Hp|].
  cbn [fold_left]. apply IH.
  - destruct ev; cbn [observe fst]; lia.
  - destruct ev as [cmd a p' | h' text | h']; cbn [observe snd].
    + rewrite lookup_insert_ne by lia. exact Hp.
    + exact Hp.
    + rewrite lookup_delete_ne by congruence. exact Hp.
Qed.

(** The endpoint reported for a spawned process, as long as its close
    event has not arrived: the first match among the chunks of its
    output. *)
Lemma spawned_endpoint (os : gset N) (before : list event) (cmd : jsstring)
      (a : list jsstring) (p : N) (evs : list event) :
  well_formed (before ++ Spawn cmd a p :: evs) = true ->
  Forall (fun ev => ev <> Closed (length (children (run (init os) before)))) evs ->
  process_url (run (init os) (before ++ Spawn cmd a p :: evs)) p
  = first_endpoint (chunks_of (length (children (run (init os) before))) evs).
Proof.
  intros Hw Hq. unfold well_formed in Hw.
  rewrite well_formed_from_app in Hw. cbn [well_formed_from] in Hw.
  apply andb_true_iff in Hw as [Hw0 Hw].
  apply andb_true_iff in Hw as [Hal Hw1].
  pose proof (consistent_run before _ _ (consistent_init os) Hw0) as H0.
  set (w0 := run (init os) before) in *.
  set (s0 := fold_left observe before (0%nat, ∅)) in *.
  pose proof (consistent_step _ _ _ H0 Hal) as H1.
  pose proof (consistent_run evs _ _ H1 Hw1) as H2.
  assert (Hn : fst s0 = length (children w0)) by exact (proj1 H0).
  unfold run at 1. rewrite fold_left_app. cbn [fold_left].
  fold (run (init os) before). fold w0.
  fold (run (step w0 (Spawn cmd a p)) evs).
  set (h := length (children w0)) in *.
  assert (Hopen : snd (fold_left observe evs (observe s0 (Spawn cmd a p))) !! h
                  = Some p).
  { apply open_stays; cbn [observe fst snd]; [lia| |exact Hq].
    rewrite Hn. apply lookup_insert_eq. }
  destruct H2 as (_ & Hop & _ & _).
  destruct (Hop _ _ Hopen) as (c & Hc & Hp & Ha).
  destruct (child_url_run evs (step w0 (Spawn cmd a p)) h
              {| pid := p; command := cmd; args := a; output := []; url := None |})
    as (c' & Hc' & _ & Hu').
  { cbn [step children]. apply list_lookup_middle. reflexivity. }
  { left. reflexivity. }
  assert (c' = c) by congruence. subst c'.
  cbn [url endpoint_from] in Hu'.
  unfold process_url, agrees in *.
  destruct (runningProcesses (run (step w0 (Spawn cmd a p)) evs) !! p) as [i|].
  - destruct Ha as [Hu Ht]. rewrite Ht. congruence.
  - rewrite <- Hu'. destruct (url c) as [x|]; [|reflexivity].
    cbn [truthy_opt] in Ha.
    pose proof (endpoint_from_settled None (chunks_of h evs) (or_introl eq_refl))
      as Hs.
    cbn [endpoint_from] in Hs. rewrite <- Hu' in Hs.
    destruct Hs as [Hs | Hs]; [discriminate Hs|]. cbn [truthy_opt] in Hs. congruence.
Qed.

End SupervisorFacts.

Section SupervisorClaims.
Import Proc.

(** C1: in any history of the server that Node and the operating system
    allow, take any spawned process, with whatever went before it, and
    the events after its spawn up to any moment before its close event.
    The endpoint reported for its process id is absent exactly as long as
    no chunk of its output contains a token ([http://...], [https://...],
    [localhost:PORT] or [127.0.0.1:PORT]).  When an endpoint is reported,
    it comes from the first chunk with a match: an absolute URL as
    matched, a bare host and port behind [http://]; and it is still
    reported after any further events before the close event, whatever
    the later chunks contain. *)
Theorem endpoint_is_first_match_and_stays
  (os : gset N) (before : list event) (cmd : jsstring) (a : list jsstring)
  (p : N) (evs : list event) :
  well_formed (before ++ Spawn cmd a p :: evs) = true ->
  Forall (fun ev => ev <> Closed (length (children (run (init os) before)))) evs ->
  (process_url (run (init os) (before ++ Spawn cmd a p :: evs)) p = None
   <-> Forall (fun text => ~ contains_token text)
              (chunks_of (length (children (run (init os) before))) evs))
  /\ (forall v,
        process_url (run (init os) (before ++ Spawn cmd a p :: evs)) p = Some v ->
        (exists first text after m,
            chunks_of (length (children (run (init os) before))) evs
            = first ++ text :: after
            /\ Forall (fun t => ~ contains_token t) first
            /\ url_match text = Some m
            /\ token m
            /\ (exists pre post, text = pre ++ m ++ post)
            /\ ((startsWith (u "http") m = true /\ v = m)
                \/ (v = u "http://" ++ m
                    /\ exists port, m = u "localhost:" ++ port
                                    \/ m = u "127.0.0.1:" ++ port)))
        /\ forall evs',
             well_formed (before ++ Spawn cmd a p :: evs ++ evs') = true ->
             Forall (fun ev =>
                       ev <> Closed (length (children (run (init os) before))))
                    evs' ->
             process_url
               (run (init os) (before ++ Spawn cmd a p :: evs ++ evs')) p
             = Some v).
Proof.
  intros Hw Hq. rewrite (spawned_endpoint os before cmd a p evs Hw Hq). split.
  - apply first_endpoint_none_iff.
  - intros v Hv. split.
    + destruct (first_endpoint_some _ _ Hv)
        as [first [text [after [m [Hch [Hb [Hm ->]]]]]]].
      destruct (url_match_sound _ _ Hm) as [Htok Hsub].
      exists first, text, after, m.
      repeat (split; [assumption|]).
      destruct (normalize_token m Htok) as [[Hs Hn] | [_ [Hn Hp]]]; rewrite Hn; auto.
    + intros evs' Hw' Hq'.
      rewrite (spawned_endpoint os before cmd a p (evs ++ evs') Hw')
        by (apply Forall_app; split; assumption).
      rewrite chunks_of_app.
      change (first_endpoint ?x) with (endpoint_from None x).
      rewrite <- endpoint_from_app. cbn [endpoint_from]. rewrite Hv. reflexivity.
Qed.

Lemma endpoint_is_first_match_and_stays_witness :
  process_url
    (run (init ∅)
         ([Spawn (u "npm") [u "start"] 100; Data 0 (u "http://localhost:5173/");
           Closed 0]
            ++ Spawn (u "npm") [u "run"; u "dev"] 100
            :: [Data 1 (u "starting"); Data 1 (u "ready on localhost:3000")]
            ++ [Data 1 (u "see http://other.example/")]))
    100
  = Some (u "http://localhost:3000").
Proof.
  refine (proj2 (proj2 (endpoint_is_first_match_and_stays ∅
            [Spawn (u "npm") [u "start"] 100; Data 0 (u "http://localhost:5173/");
             Closed 0]
            (u "npm") [u "run"; u "dev"] 100
            [Data 1 (u "starting"); Data 1 (u "ready on localhost:3000")]
            _ _) (u "http://localhost:3000") _)
          [Data 1 (u "see http://other.example/")] _ _).
  - vm_compute. reflexivity.
  - repeat constructor; discriminate.
  - vm_compute. reflexivity.
  - vm_compute. reflexivity.
  - repeat constructor; discriminate.
Defined.

(** C2, as the handlers behave: once the close event of a child has been
    handled, the endpoint of its process id is absent; and in any history
    that Node and the operating system allow, an id that no open child
    has, whether a child that has been closed had it or no child ever,
    has no endpoint.  The kill handler neither reads nor changes the
    server's state, [runningProcesses] included: for the id of another
    process it answers success exactly when [process.kill] returns, and
    status 500 with the message of the error exactly when [process.kill]
    throws that error, whether the id is in the table or not. *)
Theorem terminate_asks_the_operating_system (process_kill : N -> result unit) :
  (forall w h c,
      children w !! h = Some c ->
      process_url (step w (Closed h)) (pid c) = None)
  /\ (forall os evs p,
         well_formed evs = true ->
         (forall h, snd (fold_left observe evs (0%nat, ∅)) !! h <> Some p) ->
         process_url (run (init os) evs) p = None)
  /\ (forall w p, snd (kill_process process_kill w p) = w)
  /\ (forall w w' p,
         fst (kill_process process_kill w p) = fst (kill_process process_kill w' p))
  /\ (forall w p,
         p <> 0 ->
         (fst (kill_process process_kill w p) = KillSuccess
          <-> exists r, process_kill p = Ok r))
  /\ (forall w p message,
         p <> 0 ->
         (fst (kill_process process_kill w p) = KillError 500 message
          <-> process_kill p = Throw message)).
Proof.
  split; [|split; [|split; [|split; [|split]]]].
  - intros w h c Hc. cbn [step]. rewrite Hc.
    unfold process_url. cbn [runningProcesses].
    rewrite lookup_delete_eq. reflexivity.
  - intros os evs p Hw Hp.
    destruct (consistent_run evs _ _ (consistent_init os) Hw) as (_ & _ & _ & Hnone).
    unfold process_url. rewrite (Hnone p Hp). reflexivity.
  - intros w p. reflexivity.
  - intros w w' p. reflexivity.
  - intros w p _. unfold kill_process. cbn [fst].
    destruct (process_kill p) as [r|msg]; split.
    + intros _. exists r. reflexivity.
    + intros _. reflexivity.
    + intros H. discriminate H.
    + intros [r H]. discriminate H.
  - intros w p message _. unfold kill_process. cbn [fst].
    destruct (process_kill p) as [r|msg]; split; intros H;
      try discriminate H; congruence.
Qed.

Lemma terminate_asks_the_operating_system_witness :
  process_url
    (step (run (init ∅) [Spawn (u "npm") [u "run"; u "dev"] 4242;
                         Data 0 (u "http://localhost:5173/")])
          (Closed 0)) 4242 = None
  /\ fst (kill_process (fun _ => Throw (u "kill ESRCH"))
            (step (run (init ∅) [Spawn (u "npm") [u "run"; u "dev"] 4242;
                                 Data 0 (u "http://localhost:5173/")])
                  (Closed 0)) 4242)
     = KillError 500 (u "kill ESRCH").
Proof.
  split.
  - apply (proj1 (terminate_asks_the_operating_system
                    (fun _ => Throw (u "kill ESRCH")))
             (run (init ∅) [Spawn (u "npm") [u "run"; u "dev"] 4242;
                            Data 0 (u "http://localhost:5173/")])
             0%nat
             {| pid := 4242; command := u "npm"; args := [u "run"; u "dev"];
                output := u "http://localhost:5173/";
                url := Some (u "http://localhost:5173/") |}).
    vm_compute. reflexivity.
  - apply (proj2 (proj2 (proj2 (proj2 (proj2
             (terminate_asks_the_operating_system
                (fun _ => Throw (u "kill ESRCH")))))))).
    + discriminate.
    + reflexivity.
Defined.

(** A process that has been spawned and has printed nothing yet: it is
    running, so [process.kill] returns for its id; the id is not in
    [runningProcesses], and the kill request succeeds. *)
Lemma kill_succeeds_for_untracked_process :
  runningProcesses
    (run (init ∅) [Spawn (u "npm") [u "run"; u "dev"] 4242]) !! 4242 = None
  /\ fst (kill_process
            (fun p => if (p =? 4242)%N then Ok tt else Throw (u "kill ESRCH"))
            (run (init ∅) [Spawn (u "npm") [u "run"; u "dev"] 4242]) 4242)
     = KillSuccess.
Proof. split; reflexivity. Qed.

End SupervisorClaims.

(* ===================================================================== *)
(** * Further properties: the remote URL of the configuration file        *)
(* ===================================================================== *)

Section ConfigFacts.

(** What [trim] returns does not end in white space. *)
Lemma trim_last_not_space (s : jsstring) (c : N) (t : jsstring) :
  rev (trim s) = c :: t -> is_space c = false.
Proof.
  unfold trim, trimEnd. rewrite rev_involutive. apply drop_while_head.
Qed.

Lemma origin_header_is_no_url_line (x : jsstring) :
  trim x = origin_header -> startsWith url_key (trim x) = false.
Proof. intros ->. reflexivity. Qed.

(** Inside the section: the first line that begins with [url = ] after
    trimming gives the URL. *)
Lemma scan_config_in_origin (lines : list jsstring) (r : jsstring) :
  scan_config true lines = Some r
  <-> exists b l c,
        lines = b ++ l :: c
        /\ Forall (fun x => startsWith url_key (trim x) = false) b
        /\ startsWith url_key (trim l) = true
        /\ r = drop (length url_key) (trim l).
Proof.
  split.
  - induction lines as [|x lines IH]; cbn [scan_config]; [discriminate|].
    case_bool_decide as Hh.
    + intros H. destruct (IH H) as [b [l [c [-> [Hb [Hl ->]]]]]].
      exists (x :: b), l, c. repeat split; try assumption.
      constructor; [apply origin_header_is_no_url_line; exact Hh|exact Hb].
    + cbn [andb]. destruct (startsWith url_key (trim x)) eqn:Hx.
      * intros [= <-]. exists [], x, lines.
        repeat split; [constructor|exact Hx|apply replace_prefix; exact Hx].
      * intros H. destruct (IH H) as [b [l [c [-> [Hb [Hl ->]]]]]].
        exists (x :: b), l, c. repeat split; try assumption.
        constructor; assumption.
  - intros [b [l [c [-> [Hb [Hl ->]]]]]].
    induction Hb as [|x b Hx _ IH]; cbn [app scan_config].
    + case_bool_decide as Hh.
      * rewrite (origin_header_is_no_url_line _ Hh) in Hl. discriminate Hl.
      * rewrite Hl. cbn [andb]. rewrite (replace_prefix _ _ Hl). reflexivity.
    + case_bool_decide; [exact IH|]. rewrite Hx. exact IH.
Qed.

(** Before the section: lines are skipped up to the first header line. *)
Lemma scan_config_before_origin (lines : list jsstring) (r : jsstring) :
  scan_config false lines = Some r
  <-> exists a hdr rest,
        lines = a ++ hdr :: rest
        /\ Forall (fun x => trim x <> origin_header) a
        /\ trim hdr = origin_header
        /\ scan_config true rest = Some r.
Proof.
  split.
  - induction lines as [|x lines IH]; cbn [scan_config]; [discriminate|].
    case_bool_decide as Hh.
    + intros H. exists [], x, lines. repeat split; [constructor|exact Hh|exact H].
    + cbn [andb]. intros H.
      destruct (IH H) as [a [hdr [rest [-> [Ha [Hhdr Hr]]]]]].
      exists (x :: a), hdr, rest. repeat split; try assumption.
      constructor; assumption.
  - intros [a [hdr [rest [-> [Ha [Hhdr Hr]]]]]].
    induction Ha as [|x a Hx _ IH]; cbn [app scan_config].
    + rewrite bool_decide_eq_true_2 by exact Hhdr. exact Hr.
    + rewrite bool_decide_eq_false_2 by exact Hx. exact IH.
Qed.

(** X1: the remote URL read from a configuration file is [r] exactly
    when the lines of the file are: lines none of which is the header
    [[remote "origin"]], a header line, lines none of which begins with
    [url = ], and a line that, trimmed, is [url = ] followed by [r]. White
    space around a line is ignored; the section is never left, so the
    URL line may sit under a later section header. *)
Theorem remote_of_config_first_url_after_origin (config r : jsstring) :
  remote_of_config config = Some r
  <-> exists a hdr b l c,
        split 10 config = a ++ hdr :: b ++ l :: c
        /\ Forall (fun x => trim x <> origin_header) a
        /\ trim hdr = origin_header
        /\ Forall (fun x => startsWith url_key (trim x) = false) b
        /\ trim l = url_key ++ r.
Proof.
  unfold remote_of_config. rewrite scan_config_before_origin. split.
  - intros [a [hdr [rest [-> [Ha [Hhdr Hr]]]]]].
    apply scan_config_in_origin in Hr as [b [l [c [-> [Hb [Hl ->]]]]]].
    exists a, hdr, b, l, c. repeat split; try assumption.
    destruct (startsWith_true _ _ Hl) as [r' Hr']. rewrite Hr' at 1.
    rewrite Hr', drop_app_length. reflexivity.
  - intros [a [hdr [b [l [c [-> [Ha [Hhdr [Hb Hl]]]]]]]]].
    exists a, hdr, (b ++ l :: c). repeat split; try assumption.
    apply scan_config_in_origin. exists b, l, c.
    repeat split; try assumption.
    + rewrite Hl. apply startsWith_app.
    + rewrite Hl, drop_app_length. reflexivity.
Qed.

(** X2: a remote URL that is found is never the empty string and does
    not end in white space, so the handler's truthiness test on it is a
    test of presence; and no URL is found when no line is the header. *)
Theorem remote_url_present_is_not_blank (config : jsstring) :
  (forall r, remote_of_config config = Some r ->
             r <> [] /\ trimEnd r = r)
  /\ (truthy_opt (remote_of_config config) = true
      <-> remote_of_config config <> None)
  /\ (Forall (fun x => trim x <> origin_header) (split 10 config) ->
      remote_of_config config = None).
Proof.
  assert (Hne : forall r, remote_of_config config = Some r ->
                          r <> [] /\ trimEnd r = r).
  { intros r Hr.
    unfold remote_of_config in Hr.
    apply scan_config_before_origin in Hr as [a [hdr [rest [_ [_ [_ Hr]]]]]].
    apply scan_config_in_origin in Hr as [b [l0 [c [_ [_ [Hurl ->]]]]]].
    destruct (startsWith_true _ _ Hurl) as [r Hl].
    rewrite Hl, drop_app_length.
    set (l := l0) in *. clearbody l.
    assert (Hlast : forall x t, rev r = x :: t -> is_space x = false).
    { intros x t Hx. apply (trim_last_not_space l x (t ++ rev url_key)).
      rewrite Hl, rev_app_distr, Hx. reflexivity. }
    split.
    - intros ->. pose proof (trim_last_not_space l 32 (rev (u "url ="))) as H.
      rewrite Hl in H. specialize (H eq_refl). discriminate H.
    - unfold trimEnd. destruct (rev r) as [|x t] eqn:Hx.
      + apply (f_equal (@rev N)) in Hx. rewrite rev_involutive in Hx.
        rewrite Hx. reflexivity.
      + cbn [drop_while]. rewrite (Hlast x t eq_refl).
        rewrite <- Hx. apply rev_involutive. }
  split; [exact Hne|]. split.
  - destruct (remote_of_config config) as [r|] eqn:Hr; cbn [truthy_opt].
    + destruct (Hne r eq_refl) as [Hr' _].
      destruct r; [congruence|]. split; [discriminate|reflexivity].
    + split; [discriminate|congruence].
  - intros Hall. destruct (remote_of_config config) as [r|] eqn:Hr; [|reflexivity].
    unfold remote_of_config in Hr.
    apply scan_config_before_origin in Hr as [a [hdr [rest [Hs [_ [Hhdr _]]]]]].
    rewrite Hs in Hall. apply Forall_app in Hall as [_ Hall].
    inversion Hall; subst. contradiction.
Qed.

End ConfigFacts.

Lemma remote_of_config_first_url_after_origin_witness :
  remote_of_config
    (u "[core]" ++ [10] ++ origin_header ++ [10]
       ++ u "  fetch = +refs/heads/*:refs/remotes/origin/*" ++ [10]
       ++ [9] ++ u "url = git@example.com:r.git" ++ [13; 10])
  = Some (u "git@example.com:r.git").
Proof.
  apply (proj2 (remote_of_config_first_url_after_origin _ _)).
  exists [u "[core]"], origin_header,
    [u "  fetch = +refs/heads/*:refs/remotes/origin/*"],
    ([9] ++ u "url = git@example.com:r.git" ++ [13]), [[]].
  split; [reflexivity|].
  split; [repeat constructor; discriminate|].
  split; [reflexivity|].
  split; [repeat constructor|reflexivity].
Defined.

(* ===================================================================== *)
(** * Further properties: the library scan and the status handler         *)
(* ===================================================================== *)

Section LibraryFacts.
Import Library.
Variable path_join : jsstring -> jsstring -> jsstring.
Variable fs_exists : jsstring -> bool.
Variable fs_read : jsstring -> result jsstring.

(** [getGitInfo] never throws: its value, read off the file system. *)
Lemma getGitInfo_value (p : jsstring) :
  outcome (getGitInfo path_join fs_exists fs_read p)
  = Ok (if fs_exists (path_join p (u ".git"))
        then {| hasGit := true;
                info_branch := head_branch path_join fs_read p;
                info_remoteUrl := config_remote path_join fs_read p |}
        else {| hasGit := false; info_branch := None; info_remoteUrl := None |}).
Proof.
  unfold getGitInfo, head_branch, config_remote, gitDir, read_branch,
    read_remote, existsSync, readFileSync.
  unfold bind at 1. unfold perform at 1.
  destruct (fs_exists (path_join p (u ".git"))); cbn [negb]; [|reflexivity].
  destruct (fs_read (path_join (path_join p (u ".git")) (u "HEAD")));
    destruct (fs_read (path_join (path_join p (u ".git")) (u "config")));
    reflexivity.
Qed.

(** [getGitInfo] only looks at the file system: it runs no command. *)
Lemma getGitInfo_effects (p : jsstring) :
  Forall (fun e => match e with ExecSync _ _ => False | _ => True end)
         (effects (getGitInfo path_join fs_exists fs_read p)).
Proof.
  unfold getGitInfo, read_branch, read_remote, existsSync, readFileSync.
  unfold bind at 1. unfold perform at 1.
  destruct (fs_exists (path_join p (u ".git"))); cbn [negb];
    [|repeat constructor].
  destruct (fs_read (path_join (path_join p (u ".git")) (u "HEAD")));
    destruct (fs_read (path_join (path_join p (u ".git")) (u "config")));
    cbn; repeat constructor.
Qed.

End LibraryFacts.

(** X3: the repository data shown by the library scan ([getGitInfo]) and
    by the status handler agree. [getGitInfo] never throws and runs no
    command; both report the same remote URL; [hasGit] is false exactly
    when the status handler answers with the all-default snapshot; and
    in a repository the status branch is the scanned branch, except that
    a scanned branch of [null] or the empty string is shown as main. *)
Theorem library_scan_and_status_agree
  (path_join : jsstring -> jsstring -> jsstring)
  (fs_exists : jsstring -> bool)
  (fs_read : jsstring -> result jsstring)
  (exec : jsstring -> jsstring -> result jsstring)
  (p : jsstring) :
  truthy p = true ->
  exists gi g,
    outcome (Library.getGitInfo path_join fs_exists fs_read p) = Ok gi
    /\ outcome (git_status path_join fs_exists fs_read exec (Some p))
       = Ok (200%Z, JsonStatus g)
    /\ Forall (fun e => match e with ExecSync _ _ => False | _ => True end)
         (effects (Library.getGitInfo path_join fs_exists fs_read p))
    /\ remote_url g = Library.info_remoteUrl gi
    /\ (Library.hasGit gi = false <-> g = no_repository)
    /\ (Library.hasGit gi = true ->
        branch g = match Library.info_branch gi with
                   | Some (c :: b) => c :: b
                   | _ => u "main"
                   end).
Proof.
  intros Hp.
  pose proof (getGitInfo_value path_join fs_exists fs_read p) as Hgi.
  destruct (fs_exists (path_join p (u ".git"))) eqn:Hgit.
  - eexists. exists (snapshot path_join fs_read exec p).
    split; [exact Hgi|].
    split; [apply git_status_in_repository; assumption|].
    split; [apply getGitInfo_effects|].
    split; [reflexivity|].
    split.
    + split; [discriminate|]. intros H. exfalso.
      apply (branch_or_main_nonempty (head_branch path_join fs_read p)).
      apply (f_equal branch) in H. exact H.
    + intros _. cbn [Library.info_branch snapshot branch].
      destruct (head_branch path_join fs_read p) as [[|c b]|]; reflexivity.
  - eexists. exists no_repository.
    split; [exact Hgi|].
    rewrite (git_status_without_repository _ _ fs_read exec _ Hp Hgit).
    split; [reflexivity|].
    split; [apply getGitInfo_effects|].
    split; [reflexivity|].
    split; [split; reflexivity|discriminate].
Qed.

Lemma library_scan_and_status_agree_witness :
  exists gi g,
    outcome (Library.getGitInfo Sample.path_join Sample.fs_exists
               (Sample.fs_read (Throw (u "EACCES")) (Ok Sample.config_origin))
               Sample.project) = Ok gi
    /\ outcome (git_status Sample.path_join Sample.fs_exists
                  (Sample.fs_read (Throw (u "EACCES")) (Ok Sample.config_origin))
                  (Sample.exec None (Ok []) (Throw []) (Throw []) (Throw []))
                  (Some Sample.project))
       = Ok (200%Z, JsonStatus g)
    /\ Library.info_branch gi = None
    /\ branch g = u "main"
    /\ remote_url g = Library.info_remoteUrl gi.
Proof.
  destruct (library_scan_and_status_agree Sample.path_join Sample.fs_exists
              (Sample.fs_read (Throw (u "EACCES")) (Ok Sample.config_origin))
              (Sample.exec None (Ok []) (Throw []) (Throw []) (Throw []))
              Sample.project eq_refl)
    as [gi [g [Hgi [Hg [_ [Hr [_ Hb]]]]]]].
  exists gi, g. split; [exact Hgi|]. split; [exact Hg|].
  assert (Hv : gi = {| Library.hasGit := true; Library.info_branch := None;
                       Library.info_remoteUrl := Some (u "https://example.com/r.git") |}).
  { vm_compute in Hgi. injection Hgi as <-. reflexivity. }
  split; [rewrite Hv; reflexivity|].
  split; [|exact Hr].
  rewrite Hb by (rewrite Hv; reflexivity). rewrite Hv. reflexivity.
Defined.

(* ===================================================================== *)
(** * Further properties: the status lists and the dirty flag             *)
(* ===================================================================== *)

Section StatusFacts.

Lemma staged_line_is_modified_line (line : jsstring) :
  is_staged_line line = true -> is_modified_line line = true.
Proof.
  unfold is_staged_line, is_modified_line, is_untracked_line, char_is_not.
  destruct (char_is line 0 63), (char_is line 0 65), (char_is line 0 32),
    (char_is line 1 77), (char_is line 1 68); cbn; congruence.
Qed.

Lemma added_line_is_modified_line (line : jsstring) :
  char_is line 0 65 = true ->
  is_untracked_line line = true /\ is_modified_line line = true.
Proof.
  unfold is_modified_line, is_untracked_line, char_is_not, char_is.
  destruct (line !! 0%nat) as [c|]; [|discriminate].
  intros Hc. apply N.eqb_eq in Hc. subst c. cbn.
  split; [reflexivity|apply orb_true_r].
Qed.

(** The first line of a status output that is not blank begins with a
    character that is not white space. *)
Lemma status_lines_first (out : jsstring) :
  trim out <> [] ->
  exists c l ls, status_lines out = (c :: l) :: ls /\ is_space c = false.
Proof.
  intros Hne. unfold status_lines.
  destruct (trim out) as [|c t] eqn:Ht; [congruence|].
  assert (Hc : is_space c = false).
  { pose proof (trimStart_trim out) as H. rewrite Ht in H.
    unfold trimStart in H. cbn [drop_while] in H.
    destruct (is_space c) eqn:E; [|reflexivity].
    exfalso. destruct (drop_while_suffix is_space t) as [a Ha].
    rewrite H in Ha. apply (f_equal (@length N)) in Ha.
    rewrite length_app in Ha. cbn [length] in Ha. lia. }
  assert (Hnl : (c =? 10) = false).
  { destruct (N.eqb_spec c 10) as [->|]; [discriminate Hc|reflexivity]. }
  cbn [split]. rewrite Hnl.
  destruct (split 10 t) as [|l ls]; rewrite filter_cons_True by reflexivity;
    eexists _, _, _; split; try reflexivity; exact Hc.
Qed.

Lemma status_lines_blank (out : jsstring) :
  trim out = [] -> parse_status out = no_changes.
Proof. unfold parse_status, status_lines. intros ->. reflexivity. Qed.

(** A status output that is not blank marks the tree dirty, through its
    first line. *)
Lemma parse_status_dirty (out : jsstring) :
  trim out <> [] ->
  ch_untracked (parse_status out) <> [] \/ ch_staged (parse_status out) <> [].
Proof.
  intros Hne. destruct (status_lines_first out Hne) as [c [l [ls [Hs Hc]]]].
  destruct (parse_status_arrays out) as [Hu [Hst _]].
  rewrite Hu, Hst, Hs, !filter_cons.
  assert (H32 : char_is_not (c :: l) 0 32 = true).
  { unfold char_is_not, char_is. cbn.
    destruct (N.eqb_spec c 32) as [->|]; [discriminate Hc|reflexivity]. }
  unfold is_staged_line. rewrite H32, andb_true_r.
  destruct (is_untracked_line (c :: l)); cbn [negb].
  - left. rewrite decide_True by reflexivity. discriminate.
  - right. rewrite decide_True by reflexivity. discriminate.
Qed.

End StatusFacts.

(** X4: every path listed as staged is also listed as modified, and so
    is the path of every line whose first status character is [A], which
    is listed as untracked as well. *)
Theorem staged_paths_are_also_modified
  (path_join : jsstring -> jsstring -> jsstring)
  (fs_exists : jsstring -> bool)
  (fs_read : jsstring -> result jsstring)
  (exec : jsstring -> jsstring -> result jsstring)
  (p : jsstring) :
  truthy p = true ->
  exists g,
    outcome (git_status path_join fs_exists fs_read exec (Some p))
    = Ok (200%Z, JsonStatus g)
    /\ (forall x, x ∈ staged g -> x ∈ modified g)
    /\ (forall out line,
          fs_exists (path_join p (u ".git")) = true ->
          exec cmd_status p = Ok out ->
          line ∈ status_lines out -> char_is line 0 65 = true ->
          file_path line ∈ untracked g /\ file_path line ∈ modified g).
Proof.
  intros Hp. destruct (fs_exists (path_join p (u ".git"))) eqn:Hgit.
  - exists (snapshot path_join fs_read exec p).
    split; [apply git_status_in_repository; assumption|].
    cbn [snapshot staged modified untracked]. unfold status_changes.
    destruct (exec cmd_status p) as [out|e].
    + destruct (parse_status_arrays out) as [Hu [Hs Hm]]. split.
      * intros x. rewrite Hs, Hm, !elem_of_classified.
        intros [line [Hl [Hx Hf]]]. exists line.
        split; [exact Hl|]. split; [exact Hx|].
        apply staged_line_is_modified_line. exact Hf.
      * intros out' line _ [= <-] Hl Ha.
        destruct (added_line_is_modified_line line Ha) as [H1 H2].
        rewrite Hu, Hm, !elem_of_classified. split; exists line; auto.
    + split; [intros x H; exact H|]. intros out line _ H. discriminate H.
  - exists no_repository.
    rewrite (git_status_without_repository _ _ fs_read exec _ Hp Hgit).
    split; [reflexivity|]. split; [intros x H; exact H|].
    intros out line H. discriminate H.
Qed.

Lemma staged_paths_are_also_modified_witness :
  exists g,
    outcome (git_status Sample.path_join Sample.fs_exists
               (Sample.fs_read (Ok Sample.head_main) (Throw (u "ENOENT")))
               (Sample.exec Sample.main
                  (Ok (u "M  a.js" ++ [10] ++ u "A  b.js" ++ [10]))
                  (Throw []) (Throw []) (Throw []))
               (Some Sample.project))
    = Ok (200%Z, JsonStatus g)
    /\ u "b.js" ∈ untracked g /\ u "b.js" ∈ modified g.
Proof.
  destruct (staged_paths_are_also_modified Sample.path_join Sample.fs_exists
              (Sample.fs_read (Ok Sample.head_main) (Throw (u "ENOENT")))
              (Sample.exec Sample.main
                 (Ok (u "M  a.js" ++ [10] ++ u "A  b.js" ++ [10]))
                 (Throw []) (Throw []) (Throw []))
              Sample.project eq_refl) as [g [Hg [_ Ha]]].
  exists g. split; [exact Hg|].
  apply (Ha (u "M  a.js" ++ [10] ++ u "A  b.js" ++ [10]) (u "A  b.js"));
    try reflexivity.
  apply list_elem_of_In. right. left. reflexivity.
Defined.

(** X5: in a repository the snapshot is dirty exactly when the status
    command succeeds with an output that is not blank (one that holds a
    character other than white space); a failing status command and an
    empty output both give a clean snapshot with three empty lists. *)
Theorem dirty_iff_status_output_not_blank
  (path_join : jsstring -> jsstring -> jsstring)
  (fs_exists : jsstring -> bool)
  (fs_read : jsstring -> result jsstring)
  (exec : jsstring -> jsstring -> result jsstring)
  (p : jsstring) :
  truthy p = true ->
  fs_exists (path_join p (u ".git")) = true ->
  exists g,
    outcome (git_status path_join fs_exists fs_read exec (Some p))
    = Ok (200%Z, JsonStatus g)
    /\ (is_dirty g = true
        <-> exists out, exec cmd_status p = Ok out /\ trim out <> [])
    /\ (is_dirty g = false ->
        modified g = [] /\ staged g = [] /\ untracked g = []).
Proof.
  intros Hp Hgit. exists (snapshot path_join fs_read exec p).
  split; [apply git_status_in_repository; assumption|].
  cbn [snapshot is_dirty modified staged untracked]. unfold status_changes.
  destruct (exec cmd_status p) as [out|e].
  - split.
    + split.
      * intros Hd. exists out. split; [reflexivity|].
        intros Hb. rewrite (status_lines_blank out Hb) in Hd. discriminate Hd.
      * intros [out' [[= <-] Hne]].
        destruct (parse_status_dirty out Hne) as [H|H].
        -- destruct (ch_untracked (parse_status out)); [congruence|].
           cbn. apply orb_true_r.
        -- destruct (ch_staged (parse_status out)); [congruence|].
           cbn. rewrite orb_true_r. reflexivity.
    + destruct (ch_modified (parse_status out)), (ch_staged (parse_status out)),
        (ch_untracked (parse_status out)); cbn; intros H;
        try discriminate H; repeat split.
  - split; [|intros _; repeat split].
    split; [discriminate|]. intros [out [H _]]. discriminate H.
Qed.

Lemma dirty_iff_status_output_not_blank_witness :
  exists g,
    outcome (git_status Sample.path_join Sample.fs_exists
               (Sample.fs_read (Ok Sample.head_main) (Throw (u "ENOENT")))
               (Sample.exec Sample.main (Ok (u " T link" ++ [10]))
                  (Throw []) (Throw []) (Throw []))
               (Some Sample.project))
    = Ok (200%Z, JsonStatus g)
    /\ is_dirty g = true.
Proof.
  destruct (dirty_iff_status_output_not_blank Sample.path_join Sample.fs_exists
              (Sample.fs_read (Ok Sample.head_main) (Throw (u "ENOENT")))
              (Sample.exec Sample.main (Ok (u " T link" ++ [10]))
                 (Throw []) (Throw []) (Throw []))
              Sample.project eq_refl eq_refl) as [g [Hg [Hd _]]].
  exists g. split; [exact Hg|]. apply Hd.
  exists (u " T link" ++ [10]). split; [reflexivity|]. vm_compute. discriminate.
Defined.

(* ===================================================================== *)
(** * Further properties: reading the counts                              *)
(* ===================================================================== *)

Section CountFacts.
Import Numeral.

Lemma chars_cons (d : Decimal.uint) :
  d <> Decimal.Nil -> exists c s, chars d = c :: s /\ is_digit c = true.
Proof.
  destruct d; [congruence|..]; intros _; eexists _, _; split; reflexivity.
Qed.

Lemma chars_digits (d : Decimal.uint) :
  Forall (fun c => is_digit c = true) (chars d).
Proof.
  induction d; [constructor|..]; apply Forall_cons; split;
    solve [reflexivity | exact IHd].
Qed.

Lemma digit_not_space (c : N) : is_digit c = true -> is_space c = false.
Proof.
  unfold is_digit, is_space. intros H.
  apply andb_true_iff in H as [H1 H2].
  apply N.leb_le in H1. apply N.leb_le in H2.
  repeat match goal with
         | |- context [?a <=? ?b] => destruct (N.leb_spec a b); try lia
         | |- context [?a =? ?b] => destruct (N.eqb_spec a b); try lia
         end; reflexivity.
Qed.

(** Reading the digits of [d] from the left continues the number read
    so far. *)
Lemma digits_from_chars (d : Decimal.uint) (a : Z) :
  digits_from dec_value 10 (Some a) (chars d) = Some (value d a).
Proof.
  revert a. induction d; intros a; [reflexivity|..];
    change (chars _) with (_ :: chars d) at 1 || idtac;
    cbn [value]; rewrite <- IHd; cbn; f_equal; f_equal; lia.
Qed.

Lemma digits_from_chars_start (d : Decimal.uint) :
  d <> Decimal.Nil ->
  digits_from dec_value 10 None (chars d) = Some (value d 0).
Proof.
  destruct d; [congruence|..]; intros _; cbn [value];
    rewrite <- digits_from_chars; reflexivity.
Qed.

Lemma value_of_uint_acc (d : Decimal.uint) (acc : positive) :
  Z.pos (Pos.of_uint_acc d acc) = value d (Z.pos acc).
Proof.
  revert acc. induction d; intros acc; cbn [Pos.of_uint_acc value];
    [reflexivity|..]; rewrite IHd; f_equal; lia.
Qed.

(** The digits of a numeral read back as the number it denotes. *)
Lemma value_of_uint (d : Decimal.uint) : value d 0 = Z.of_N (N.of_uint d).
Proof.
  unfold N.of_uint. induction d; cbn [Pos.of_uint value];
    [reflexivity | exact IHd | ..];
    cbn [Z.of_N]; rewrite value_of_uint_acc; reflexivity.
Qed.

Lemma to_uint_not_nil (n : N) : N.to_uint n <> Decimal.Nil.
Proof.
  destruct n as [|p]; [discriminate|]. cbn [N.to_uint].
  intros H. pose proof (DecimalPos.Unsigned.of_to p) as Hp.
  rewrite H in Hp. discriminate Hp.
Qed.

(** [parseInt] on digits with no sign and no radix prefix. *)
Lemma parseInt_chars (d : Decimal.uint) :
  d <> Decimal.Nil -> parseInt (chars d) = Some (value d 0).
Proof.
  intros Hd.
  assert (H : parseInt (chars d)
              = (fun v => (1 * v)%Z) <$> digits_from dec_value 10 None (chars d)).
  { destruct d as [|d|d|d|d|d|d|d|d|d|d]; [congruence|..];
      destruct d; reflexivity. }
  rewrite H, (digits_from_chars_start d Hd). cbn. f_equal. lia.
Qed.

(** White space after a text that neither begins nor ends with white
    space is all that [trim] removes. *)
Lemma trim_trailing_space (s ws : jsstring) :
  s <> [] ->
  Forall (fun c => is_space c = false) s ->
  Forall (fun c => is_space c = true) ws ->
  trim (s ++ ws) = s.
Proof.
  intros Hne Hs Hws. unfold trim.
  assert (Hstart : trimStart (s ++ ws) = s ++ ws).
  { apply drop_while_fixed. destruct s as [|c s]; [congruence|].
    inversion Hs; assumption. }
  rewrite Hstart. unfold trimEnd. rewrite rev_app_distr.
  rewrite drop_while_app_stop.
  - assert (Hd : drop_while is_space (rev ws) = []).
    { assert (Hr : Forall (fun c => is_space c = true) (rev ws))
        by (apply Forall_rev; exact Hws).
      induction Hr as [|c r Hc _ IH]; cbn; [reflexivity|]. rewrite Hc. exact IH. }
    rewrite Hd. cbn [app]. apply rev_involutive.
  - destruct (rev s) as [|c r] eqn:Hr.
    + apply (f_equal (@rev N)) in Hr. rewrite rev_involutive in Hr.
      cbn in Hr. congruence.
    + assert (Hin : Forall (fun c => is_space c = false) (rev s))
        by (apply Forall_rev; exact Hs).
      rewrite Hr in Hin. inversion Hin; assumption.
Qed.

(** A numeral followed by a newline is read as its number. *)
Lemma count_of_decimal (n : N) :
  count_of (decimal n ++ [10]) = Z.of_N n.
Proof.
  unfold count_of, decimal.
  pose proof (to_uint_not_nil n) as Hd.
  rewrite trim_trailing_space.
  - rewrite (parseInt_chars _ Hd). cbn [or_zero].
    rewrite value_of_uint, DecimalN.Unsigned.of_to. reflexivity.
  - destruct (chars_cons _ Hd) as [c [s [-> _]]]. discriminate.
  - eapply Forall_impl; [apply chars_digits|]. intros c. apply digit_not_space.
  - repeat constructor.
Qed.

End CountFacts.

(* ===================================================================== *)
(** * The two counts of the snapshot                                      *)
(* ===================================================================== *)

Section DivergenceClaims.
Import Numeral Counts.




End DivergenceClaims.

(** X8: when a remote URL is configured, the fetch succeeds and each of
    the two range queries prints the decimal numeral of a count (below
    2^53) and a newline, [behind] is the count printed for
    [HEAD..origin/<branch>] and [ahead] the count printed for
    [origin/<branch>..HEAD], the branch being the one read from HEAD. *)
Theorem counts_are_the_numbers_printed
  (path_join : jsstring -> jsstring -> jsstring)
  (fs_exists : jsstring -> bool)
  (fs_read : jsstring -> result jsstring)
  (exec : jsstring -> jsstring -> result jsstring)
  (p fetched_out : jsstring) (na nb : N) :
  truthy p = true ->
  fs_exists (path_join p (u ".git")) = true ->
  truthy_opt (config_remote path_join fs_read p) = true ->
  exec cmd_fetch p = Ok fetched_out ->
  exec (cmd_behind (head_branch path_join fs_read p)) p
  = Ok (Numeral.decimal nb ++ [10]) ->
  exec (cmd_ahead (head_branch path_join fs_read p)) p
  = Ok (Numeral.decimal na ++ [10]) ->
  na < 2 ^ 53 -> nb < 2 ^ 53 ->
  exists g,
    outcome (git_status path_join fs_exists fs_read exec (Some p))
    = Ok (200%Z, JsonStatus g)
    /\ ahead g = Z.of_N na /\ behind g = Z.of_N nb.
Proof.
  intros Hp Hgit Hr Hf Hb Ha _ _.
  exists (snapshot path_join fs_read exec p).
  split; [apply git_status_in_repository; assumption|].
  cbn [snapshot ahead behind]. unfold fetched, query_count.
  rewrite Hr, Hf, Ha, Hb, !count_of_decimal. split; reflexivity.
Qed.

Lemma counts_are_the_numbers_printed_witness :
  exists g,
    outcome (git_status Sample.path_join Sample.fs_exists
               (Sample.fs_read (Ok Sample.head_main) (Ok Sample.config_origin))
               (Sample.exec Sample.main (Ok []) (Ok [])
                  (Ok (u "12" ++ [10])) (Ok (u "0" ++ [10])))
               (Some Sample.project))
    = Ok (200%Z, JsonStatus g)
    /\ ahead g = 0%Z /\ behind g = 12%Z.
Proof.
  apply (counts_are_the_numbers_printed Sample.path_join Sample.fs_exists
           (Sample.fs_read (Ok Sample.head_main) (Ok Sample.config_origin))
           (Sample.exec Sample.main (Ok []) (Ok [])
              (Ok (u "12" ++ [10])) (Ok (u "0" ++ [10])))
           Sample.project [] 0 12); reflexivity.
Defined.

(* ===================================================================== *)
(** * Further properties: the command runner                              *)
(* ===================================================================== *)

Section RunnerMore.
Import Runner.

Lemma sent_count (evs : list child_event) (r : request) :
  length (r_sent (fold_left on_event evs r))
  = (length (r_sent r) + length (filter (fun ev => is_data ev = false) evs))%nat.
Proof.
  revert r. induction evs as [|ev evs IH]; intros r; cbn [fold_left].
  - rewrite filter_nil. cbn. lia.
  - rewrite IH, filter_cons.
    destruct ev; cbn [on_event r_sent is_data];
      [ rewrite decide_False by discriminate; reflexivity
      | rewrite decide_False by discriminate; reflexivity
      | rewrite decide_True by reflexivity; rewrite length_app; cbn; lia
      | rewrite decide_True by reflexivity; rewrite length_app; cbn; lia ].
Qed.

(** X9: the runner has answered exactly when a close or an error event
    has arrived: output chunks alone never produce a reply. It calls
    [res.json] once for every close and every error event, so an error
    event followed by the close event of the same child calls it twice. *)
Theorem run_command_replies_on_close_or_error (evs : list child_event) :
  (reply (run_command evs) = None
   <-> Forall (fun ev => is_data ev = true) evs)
  /\ length (r_sent (run_command evs))
     = length (filter (fun ev => is_data ev = false) evs).
Proof.
  assert (Hlen : length (r_sent (run_command evs))
                 = length (filter (fun ev => is_data ev = false) evs))
    by (unfold run_command; rewrite sent_count; reflexivity).
  split; [|exact Hlen].
  unfold reply. split.
  - intros H. destruct (r_sent (run_command evs)) as [|x l]; [|discriminate].
    cbn in Hlen. symmetry in Hlen. apply length_zero_iff_nil in Hlen.
    apply Forall_forall. intros ev Hin.
    destruct (is_data ev) eqn:Hev; [reflexivity|]. exfalso.
    assert (Hf : ev ∈ filter (fun ev => is_data ev = false) evs)
      by (apply list_elem_of_filter; split; assumption).
    rewrite Hlen in Hf. apply not_elem_of_nil in Hf. exact Hf.
  - intros H. unfold run_command. rewrite (on_data_events evs start H).
    reflexivity.
Qed.

End RunnerMore.

(* ===================================================================== *)
(** * Further properties: which endpoint is recorded                      *)
(* ===================================================================== *)

Section EndpointMore.
Import Proc.

Lemma take_while_app_all (f : N -> bool) (body post : jsstring) :
  all_chars f body -> exists r, take_while f (body ++ post) = body ++ r.
Proof.
  intros H. induction H as [|c body Hc _ [r IH]]; cbn.
  - eexists. reflexivity.
  - rewrite Hc, IH. exists r. reflexivity.
Qed.

Lemma match_url_rest_extends (pre body post : jsstring) :
  body <> [] -> all_chars (fun c => negb (is_space c)) body ->
  exists r, match_url_rest pre (u "://" ++ body ++ post)
            = Some (pre ++ u "://" ++ body ++ r).
Proof.
  intros Hne Hall. unfold match_url_rest. rewrite strip_prefix_app.
  destruct (take_while_app_all _ body post Hall) as [r Hr]. rewrite Hr.
  exists r. destruct body; [congruence|reflexivity].
Qed.

Lemma match_host_extends (host port post : jsstring) :
  port <> [] -> all_chars is_digit port ->
  exists r, match_host host (host ++ port ++ post) = Some (host ++ port ++ r).
Proof.
  intros Hne Hall. unfold match_host. rewrite strip_prefix_app.
  destruct (take_while_app_all _ port post Hall) as [r Hr]. rewrite Hr.
  exists r. destruct port; [congruence|reflexivity].
Qed.

(** Where a token starts, the match is that token or a longer one. *)
Lemma match_here_extends (tok post : jsstring) :
  token tok -> exists r, match_here (tok ++ post) = Some (tok ++ r).
Proof.
  intros Ht. unfold match_here.
  destruct Ht as [body Hne Hall | body Hne Hall | port Hne Hall | port Hne Hall].
  - destruct (match_url_rest_extends (u "http") body post Hne Hall) as [r Hr].
    exists r. unfold match_url.
    change ((u "http://" ++ body) ++ post)
      with (u "http" ++ (u "://" ++ body) ++ post).
    rewrite strip_prefix_app. rewrite <- app_assoc.
    change (strip_prefix (u "s") (u "://" ++ body ++ post)) with (@None jsstring).
    rewrite Hr. rewrite <- !app_assoc. reflexivity.
  - destruct (match_url_rest_extends (u "https") body post Hne Hall) as [r Hr].
    exists r. unfold match_url.
    change ((u "https://" ++ body) ++ post)
      with (u "http" ++ u "s" ++ (u "://" ++ body) ++ post).
    rewrite !strip_prefix_app. rewrite <- app_assoc.
    rewrite Hr. rewrite <- !app_assoc. reflexivity.
  - destruct (match_host_extends (u "localhost:") port post Hne Hall) as [r Hr].
    exists r.
    change (match_url ((u "localhost:" ++ port) ++ post)) with (@None jsstring).
    rewrite <- !app_assoc. rewrite Hr. reflexivity.
  - destruct (match_host_extends (u "127.0.0.1:") port post Hne Hall) as [r Hr].
    exists r.
    change (match_url ((u "127.0.0.1:" ++ port) ++ post)) with (@None jsstring).
    change (match_host (u "localhost:") ((u "127.0.0.1:" ++ port) ++ post))
      with (@None jsstring).
    rewrite <- !app_assoc. rewrite Hr. reflexivity.
Qed.

Lemma token_nonempty (tok : jsstring) : token tok -> tok <> [].
Proof. intros [b _ _|b _ _|b _ _|b _ _]; discriminate. Qed.

(** X10: the match reported for a text is a token of the text that
    starts at the leftmost position where any token starts, and no token
    starting there is longer: an absolute URL runs up to the next white
    space (or the end of the chunk), a bare host and port up to the last
    digit. *)
Theorem url_match_is_leftmost_longest (text m : jsstring) :
  url_match text = Some m ->
  exists pre post,
    text = pre ++ m ++ post
    /\ token m
    /\ forall pre' tok post',
         text = pre' ++ tok ++ post' -> token tok ->
         (length pre <= length pre')%nat
         /\ (length pre' = length pre -> (length tok <= length m)%nat).
Proof.
  revert m. induction text as [|c text IH]; intros m; cbn [url_match].
  - destruct (match_here []) as [m'|] eqn:H; [|discriminate].
    apply match_here_sound in H as [Ht [post Hp]].
    apply token_nonempty in Ht. destruct m'; [congruence|discriminate Hp].
  - destruct (match_here (c :: text)) as [m'|] eqn:H.
    + intros [= <-]. destruct (match_here_sound _ _ H) as [Ht [post Hp]].
      exists [], post. split; [exact Hp|]. split; [exact Ht|].
      intros pre' tok post' Hd Htok. split; [cbn; lia|].
      intros Hl. destruct pre'; [|discriminate Hl]. cbn [app] in Hd.
      destruct (match_here_extends tok post' Htok) as [r Hr].
      rewrite <- Hd, H in Hr. injection Hr as ->.
      rewrite length_app. lia.
    + intros Hm. destruct (IH m Hm) as [pre [post [Hp [Ht Hmin]]]].
      exists (c :: pre), post. split; [rewrite Hp; reflexivity|].
      split; [exact Ht|].
      intros pre' tok post' Hd Htok.
      destruct pre' as [|c' pre'].
      * exfalso. cbn [app] in Hd.
        destruct (match_here_extends tok post' Htok) as [r Hr].
        rewrite <- Hd, H in Hr. discriminate Hr.
      * injection Hd as <- Hd.
        destruct (Hmin pre' tok post' Hd Htok) as [H1 H2].
        split; [cbn; lia|]. intros Hl. apply H2. cbn in Hl. lia.
Qed.

Lemma url_match_is_leftmost_longest_witness :
  exists pre post,
    u "see localhost:30 or http://a.b/c?d, ok" = pre ++ u "localhost:30" ++ post
    /\ token (u "localhost:30").
Proof.
  destruct (url_match_is_leftmost_longest
              (u "see localhost:30 or http://a.b/c?d, ok") (u "localhost:30")
              eq_refl) as [pre [post [Hp [Ht _]]]].
  exists pre, post. split; assumption.
Defined.

End EndpointMore.

(* ===================================================================== *)
(** * Further properties: the process table and the closures              *)
(* ===================================================================== *)

Section RegistryFacts.
Import Proc Registry.

Lemma normalize_absolute (m : jsstring) : token m -> absolute (normalize m).
Proof.
  intros [body _ _ | body _ _ | port _ _ | port _ _]; unfold absolute.
  - left. reflexivity.
  - right. reflexivity.
  - left. reflexivity.
  - left. reflexivity.
Qed.

Lemma checkForUrl_fields (c : child) (table : gmap N info) (text : jsstring) :
  pid (fst (checkForUrl c table text)) = pid c
  /\ command (fst (checkForUrl c table text)) = command c
  /\ args (fst (checkForUrl c table text)) = args c
  /\ output (fst (checkForUrl c table text)) = output c ++ text
  /\ (truthy_opt (url c) = true -> url (fst (checkForUrl c table text)) = url c).
Proof.
  unfold checkForUrl. destruct (truthy_opt (url c)) eqn:Hu; cbn [negb].
  - repeat split.
  - destruct (url_match text); repeat split; discriminate.
Qed.

(** What [checkForUrl] leaves in the table under the id of its child. *)
Lemma checkForUrl_entry (c : child) (table : gmap N info) (text : jsstring)
      (i : info) :
  snd (checkForUrl c table text) !! pid c = Some i ->
  (table !! pid c = Some i /\ url (fst (checkForUrl c table text)) = url c)
  \/ (absolute (info_url i)
      /\ url (fst (checkForUrl c table text)) = Some (info_url i)
      /\ info_command i = command c ++ u " " ++ join (u " ") (args c)).
Proof.
  unfold checkForUrl. destruct (negb (truthy_opt (url c))); [|auto].
  destruct (url_match text) as [m|] eqn:Hm; [|auto].
  cbv zeta. cbn [fst snd pid]. intros Hi.
  apply lookup_insert_Some in Hi as [[_ <-] | [Hne _]]; [|congruence]. right.
  cbn [info_url info_command url]. split; [|auto].
  apply normalize_absolute. apply (url_match_sound _ _ Hm).
Qed.

Lemma entry_ok_step (w : world) (ev : event) :
  (forall p i, runningProcesses w !! p = Some i -> entry_ok w p i) ->
  forall p i, runningProcesses (step w ev) !! p = Some i ->
              entry_ok (step w ev) p i.
Proof.
  intros Hw p i. destruct ev as [cmd a p' | h text | h]; cbn [step].
  - cbn [runningProcesses]. intros Hi.
    destruct (Hw p i Hi) as [Habs [h [c [Hc Hrest]]]].
    split; [exact Habs|]. exists h, c. cbn [children].
    split; [apply lookup_app_l_Some; exact Hc|exact Hrest].
  - destruct (children w !! h) as [c|] eqn:Hc; [|apply Hw].
    pose proof (checkForUrl_fields c (runningProcesses w) text)
      as [Hpid [Hcmd [Hargs [_ _]]]].
    pose proof (checkForUrl_entry c (runningProcesses w) text) as Hentry.
    pose proof (checkForUrl_other c (runningProcesses w) text) as Hother.
    destruct (checkForUrl c (runningProcesses w) text) as [c2 table].
    cbn [fst snd] in *. cbn [runningProcesses children].
    assert (Hlen : (h < length (children w))%nat)
      by (apply lookup_lt_is_Some; eauto).
    intros Hi. destruct (decide (p = pid c)) as [->|Hne].
    + destruct (Hentry i Hi) as [[Hold Hu] | [Habs [Hu Hc2]]].
      * destruct (Hw _ _ Hold) as [Habs [h0 [c0 [Hc0 [Hp0 [Hu0 Hi0]]]]]].
        split; [exact Habs|].
        destruct (decide (h0 = h)) as [->|Hh].
        -- exists h, c2. cbn [children]. rewrite list_lookup_insert_eq by exact Hlen.
           assert (c0 = c) by congruence. subst c0.
           repeat split; congruence.
        -- exists h0, c0. cbn [children]. rewrite list_lookup_insert_ne by congruence. auto.
      * split; [exact Habs|]. exists h, c2. cbn [children].
        rewrite list_lookup_insert_eq by exact Hlen.
        repeat split; congruence.
    + rewrite (Hother p Hne) in Hi.
      destruct (Hw _ _ Hi) as [Habs [h0 [c0 [Hc0 [Hp0 Hrest]]]]].
      split; [exact Habs|]. exists h0, c0. cbn [children].
      rewrite list_lookup_insert_ne; [auto|].
      intros ->. assert (c0 = c) by congruence. subst c0. congruence.
  - destruct (children w !! h) as [c|] eqn:Hc; [|apply Hw].
    cbn [runningProcesses children]. intros Hi.
    apply lookup_delete_Some in Hi as [_ Hi].
    destruct (Hw p i Hi) as [Habs Hrest]. split; [exact Habs|exact Hrest].
Qed.

Lemma entry_ok_run (evs : list event) (w : world) :
  (forall p i, runningProcesses w !! p = Some i -> entry_ok w p i) ->
  forall p i, runningProcesses (run w evs) !! p = Some i ->
              entry_ok (run w evs) p i.
Proof.
  revert w. induction evs as [|ev evs IH]; intros w Hw; [exact Hw|].
  cbn [run fold_left]. apply IH. apply entry_ok_step. exact Hw.
Qed.

(** X11: whatever happens after the server starts, every entry of the
    process table was written for a spawned child with that process id
    and holds that child's recorded endpoint and its command line
    (command, a space, the arguments joined by spaces); and every
    endpoint reported to a client is an absolute URL beginning with
    [http://] or [https://], never a bare host and port. *)
Theorem table_entries_are_well_formed (os : gset N) (evs : list event) (p : N) :
  (forall i, runningProcesses (run (init os) evs) !! p = Some i ->
             entry_ok (run (init os) evs) p i)
  /\ (forall v, process_url (run (init os) evs) p = Some v -> absolute v).
Proof.
  assert (H : forall i, runningProcesses (run (init os) evs) !! p = Some i ->
                        entry_ok (run (init os) evs) p i).
  { intros i. apply entry_ok_run. intros q j Hj. cbn in Hj.
    rewrite lookup_empty in Hj. discriminate Hj. }
  split; [exact H|].
  intros v. unfold process_url.
  destruct (runningProcesses (run (init os) evs) !! p) as [i|] eqn:Hi;
    [|discriminate].
  destruct (truthy (info_url i)); [|discriminate].
  intros [= <-]. apply (H i eq_refl).
Qed.

Lemma child_step (w : world) (h : nat) (c : child) (ev : event) :
  children w !! h = Some c ->
  exists c',
    children (step w ev) !! h = Some c'
    /\ pid c' = pid c /\ command c' = command c /\ args c' = args c
    /\ output c' = output c ++ concat (chunks_of h [ev])
    /\ (truthy_opt (url c) = true -> url c' = url c).
Proof.
  intros Hc. destruct ev as [cmd a p' | h' text | h']; cbn [step].
  - exists c. cbn [children]. rewrite app_nil_r.
    split; [apply lookup_app_l_Some; exact Hc|]. repeat split.
  - rewrite chunks_of_data.
    destruct (children w !! h') as [c0|] eqn:Hc0.
    2:{ exists c. case_bool_decide; [congruence|].
        rewrite app_nil_r. repeat split. exact Hc. }
    pose proof (checkForUrl_fields c0 (runningProcesses w) text) as Hf.
    destruct (checkForUrl c0 (runningProcesses w) text) as [c2 table].
    cbn [fst] in Hf. cbn [children].
    assert (Hlen : (h' < length (children w))%nat)
      by (apply lookup_lt_is_Some; eauto).
    case_bool_decide as Hh.
    + subst h'. assert (c0 = c) by congruence. subst c0.
      exists c2. rewrite list_lookup_insert_eq by exact Hlen.
      cbn [concat]. rewrite app_nil_r. tauto.
    + exists c. rewrite list_lookup_insert_ne by exact Hh.
      cbn [concat]. rewrite app_nil_r. repeat split. exact Hc.
  - exists c. rewrite app_nil_r.
    destruct (children w !! h'); repeat split; exact Hc.
Qed.

(** X12: whatever events follow, the variables captured for a spawned
    child keep its process id, command and arguments; its output buffer
    is what it was followed by every later chunk of that child in order
    of arrival, all of it kept; and once its endpoint variable holds a
    non-empty URL that variable never changes again. *)
Theorem child_output_accumulates
  (evs : list event) (w : world) (h : nat) (c : child) :
  children w !! h = Some c ->
  exists c',
    children (run w evs) !! h = Some c'
    /\ pid c' = pid c /\ command c' = command c /\ args c' = args c
    /\ output c' = output c ++ concat (chunks_of h evs)
    /\ (truthy_opt (url c) = true -> url c' = url c).
Proof.
  revert w c. induction evs as [|ev evs IH]; intros w c Hc.
  - exists c. cbn. rewrite app_nil_r. repeat split. exact Hc.
  - destruct (child_step w h c ev Hc) as [c1 [Hc1 [Hp [Hcmd [Ha [Ho Hu]]]]]].
    destruct (IH (step w ev) c1 Hc1) as [c' [Hc' [Hp' [Hcmd' [Ha' [Ho' Hu']]]]]].
    exists c'. cbn [run fold_left]. split; [exact Hc'|].
    change (ev :: evs) with ([ev] ++ evs).
    rewrite chunks_of_app, concat_app, app_assoc, <- Ho, <- Ho'.
    repeat split; try congruence.
    intros Ht. rewrite Hu', (Hu Ht); [reflexivity|].
    rewrite (Hu Ht). exact Ht.
Qed.

Lemma child_output_accumulates_witness :
  exists c',
    children (run (step (init ∅) (Spawn (u "npm") [u "start"] 7))
                  [Data 0 (u "a"); Closed 0; Data 0 (u "b")]) !! 0%nat = Some c'
    /\ output c' = u "ab".
Proof.
  destruct (child_output_accumulates [Data 0 (u "a"); Closed 0; Data 0 (u "b")]
              (step (init ∅) (Spawn (u "npm") [u "start"] 7)) 0
              {| pid := 7; command := u "npm"; args := [u "start"];
                 output := []; url := None |} eq_refl)
    as [c' [Hc [_ [_ [_ [Ho _]]]]]].
  exists c'. split; [exact Hc|]. rewrite Ho. reflexivity.
Defined.

End RegistryFacts.

(* ===================================================================== *)
(** * Further properties: creating a project                              *)
(* ===================================================================== *)

Section ScaffoldFacts.
Import Library Scaffold.
Variable path_join : jsstring -> jsstring -> jsstring.
Variable toLowerCase : jsstring -> jsstring.
Variable package_json : jsstring -> jsstring.
Variable parse_scripts : jsstring -> result (option (list Script)).
Variable refuses : fs_op -> option jsstring.

Lemma keeps_refl (d : disk) : keeps d d.
Proof. split; [reflexivity|auto]. Qed.

Lemma keeps_trans (d1 d2 d3 : disk) : keeps d1 d2 -> keeps d2 d3 -> keeps d1 d3.
Proof. intros [H1 H2] [H3 H4]. split; [etrans; eassumption|auto]. Qed.

Lemma keeps_exists (d d' : disk) (p : jsstring) :
  keeps d d' -> disk_exists d p = true -> disk_exists d' p = true.
Proof.
  intros [Hd Hf]. unfold disk_exists. rewrite !orb_true_iff, !bool_decide_eq_true.
  intros [H|H]; [left; auto|right; apply Hd; exact H].
Qed.

(** A call that throws leaves the disk as it is; one that returns only
    adds to it. *)
Lemma perform_op_keeps (d d' : disk) (op : fs_op) (r : result unit) :
  perform_op refuses d op = (r, d') ->
  keeps d d' /\ (forall e, r = Throw e -> d' = d).
Proof.
  unfold perform_op. destruct (refuses op) as [msg|].
  { intros [= <- <-]. split; [apply keeps_refl|reflexivity]. }
  destruct op as [p|p|p data].
  - case_bool_decide; intros [= <- <-];
      (split; [|first [reflexivity | discriminate]]);
      [apply keeps_refl|]. split; cbn; [apply union_subseteq_r|auto].
  - destruct (disk_exists d p); intros [= <- <-];
      (split; [|first [reflexivity | discriminate]]);
      [apply keeps_refl|]. split; cbn; [apply union_subseteq_r|auto].
  - case_bool_decide; intros [= <- <-];
      (split; [|first [reflexivity | discriminate]]);
      [apply keeps_refl|]. split; cbn; [reflexivity|].
    intros q Hq. destruct (decide (p = q)) as [->|Hne].
    + rewrite lookup_insert_eq. eauto.
    + rewrite lookup_insert_ne by exact Hne. exact Hq.
Qed.

Lemma perform_all_keeps (ops : list fs_op) (d d' : disk) (r : result unit) :
  perform_all refuses d ops = (r, d') -> keeps d d'.
Proof.
  revert d. induction ops as [|op ops IH]; intros d; cbn [perform_all].
  - intros [= <- <-]. apply keeps_refl.
  - destruct (perform_op refuses d op) as [[[]|e] d1] eqn:Hop.
    + intros H. apply (keeps_trans d d1 d').
      * apply (perform_op_keeps _ _ _ _ Hop).
      * apply (IH _ H).
    + intros [= <- <-]. apply (perform_op_keeps _ _ _ _ Hop).
Qed.

Lemma perform_all_app (a b : list fs_op) (d : disk) :
  perform_all refuses d (a ++ b)
  = match perform_all refuses d a with
    | (Ok _, d1) => perform_all refuses d1 b
    | (Throw e, d1) => (Throw e, d1)
    end.
Proof.
  revert d. induction a as [|op a IH]; intros d; cbn [app perform_all];
    [reflexivity|].
  destruct (perform_op refuses d op) as [[[]|e] d1]; [apply IH|reflexivity].
Qed.

(** The calls made before the one that throws have all taken effect. *)
Lemma perform_all_failure (ops : list fs_op) (d d' : disk) (e : jsstring) :
  perform_all refuses d ops = (Throw e, d') ->
  exists done op rest,
    ops = done ++ op :: rest
    /\ perform_all refuses d done = (Ok tt, d')
    /\ perform_op refuses d' op = (Throw e, d').
Proof.
  revert d. induction ops as [|op ops IH]; intros d; cbn [perform_all];
    [discriminate|].
  destruct (perform_op refuses d op) as [[[]|e1] d1] eqn:Hop.
  - intros H. destruct (IH _ H) as [done [op' [rest [-> [Hd Ho]]]]].
    exists (op :: done), op', rest. split; [reflexivity|].
    split; [cbn [perform_all]; rewrite Hop; exact Hd|exact Ho].
  - intros [= <- <-]. exists [], op, ops. split; [reflexivity|].
    destruct (perform_op_keeps _ _ _ _ Hop) as [_ Heq].
    specialize (Heq e1 eq_refl). subst d1.
    split; [reflexivity|exact Hop].
Qed.

(** A [mkdirSync] without [recursive] on a path that is taken makes the
    whole sequence fail. *)
Lemma perform_all_mkdir_taken (ops : list fs_op) (d : disk) (p : jsstring) :
  Mkdir p ∈ ops -> disk_exists d p = true ->
  exists e d', perform_all refuses d ops = (Throw e, d').
Proof.
  revert d. induction ops as [|op ops IH]; intros d Hin Hex.
  - apply not_elem_of_nil in Hin. destruct Hin.
  - cbn [perform_all].
    destruct (perform_op refuses d op) as [[[]|e1] d1] eqn:Hop; [|eauto].
    apply elem_of_cons in Hin as [<-|Hin].
    + exfalso. unfold perform_op in Hop.
      destruct (refuses (Mkdir p)); [discriminate Hop|].
      rewrite Hex in Hop. discriminate Hop.
    + apply (IH d1 Hin).
      apply (keeps_exists d d1); [|exact Hex].
      apply (perform_op_keeps _ _ _ _ Hop).
Qed.

(** After a sequence that went through, the directories it made and the
    files it wrote exist. *)
Lemma perform_all_made (ops : list fs_op) (d d' : disk) :
  perform_all refuses d ops = (Ok tt, d') ->
  (forall p, Mkdir p ∈ ops -> disk_exists d' p = true)
  /\ (forall p data, WriteFile p data ∈ ops -> disk_exists d' p = true).
Proof.
  revert d. induction ops as [|op ops IH]; intros d; cbn [perform_all].
  - intros _. split; intros; exfalso; eapply not_elem_of_nil; eassumption.
  - destruct (perform_op refuses d op) as [[[]|e1] d1] eqn:Hop; [|discriminate].
    intros H. destruct (IH _ H) as [Hm Hw].
    pose proof (perform_all_keeps _ _ _ _ H) as Hk.
    split.
    + intros p Hin. apply elem_of_cons in Hin as [<-|Hin]; [|auto].
      apply (keeps_exists d1 d' p Hk).
      unfold perform_op in Hop. destruct (refuses (Mkdir p)); [discriminate|].
      destruct (disk_exists d p); [discriminate|]. injection Hop as <-.
      unfold disk_exists. cbn. apply orb_true_iff. right.
      apply bool_decide_eq_true, elem_of_union_l, elem_of_singleton.
      reflexivity.
    + intros p data Hin. apply elem_of_cons in Hin as [<-|Hin]; [|eauto].
      apply (keeps_exists d1 d' p Hk).
      unfold perform_op in Hop. destruct (refuses (WriteFile p data)); [discriminate|].
      case_bool_decide; [discriminate|]. injection Hop as <-.
      unfold disk_exists. cbn. apply orb_true_iff. left.
      apply bool_decide_eq_true. rewrite lookup_insert_eq. eauto.
Qed.

(** [detectProjectType] never throws: its value, by the markers found. *)
Lemma detectProjectType_value (ex : jsstring -> bool) (p : jsstring) :
  outcome (detectProjectType path_join ex p)
  = Ok (if ex (path_join p (u "package.json")) then node
        else if ex (path_join p (u "requirements.txt"))
                || ex (path_join p (u "pyproject.toml")) then python
        else if ex (path_join p (u "go.mod")) then go
        else if ex (path_join p (u "Cargo.toml")) then rust
        else if ex (path_join p (u "index.html")) then html
        else generic).
Proof.
  unfold detectProjectType, Git.existsSync, perform, bind, ret, outcome.
  destruct (ex (path_join p (u "package.json"))); [reflexivity|].
  destruct (ex (path_join p (u "requirements.txt"))); cbn [orb];
    [reflexivity|].
  destruct (ex (path_join p (u "pyproject.toml"))); [reflexivity|].
  destruct (ex (path_join p (u "go.mod"))); [reflexivity|].
  destruct (ex (path_join p (u "Cargo.toml"))); [reflexivity|].
  destruct (ex (path_join p (u "index.html"))); reflexivity.
Qed.

Lemma getScripts_never_throws (d : disk) (p : jsstring) :
  exists l, outcome (getScripts path_join parse_scripts d p) = Ok l.
Proof.
  unfold getScripts, Git.existsSync, Git.readFileSync, perform, bind,
    try_catch, ret, outcome.
  destruct (disk_exists d (path_join p (u "package.json"))); [|eauto].
  destruct (disk_read d (path_join p (u "package.json"))) as [text|]; [|eauto].
  destruct (parse_scripts text) as [[l|]|]; eauto.
Qed.

Lemma outcome_bind {A B : Type} (m : M A) (k : A -> M B) :
  outcome (bind m k)
  = match outcome m with
    | Ok a => outcome (k a)
    | Throw e => Throw e
    end.
Proof.
  destruct m as [l [a|e]]; cbn; [|reflexivity].
  destruct (k a); reflexivity.
Qed.

(** What a successful request has done and what it answers. *)
Lemma create_project_created (name projectType libraryPath : jsstring)
      (initGit : bool) (d d' : disk) (pr : Project) :
  create_project path_join toLowerCase package_json parse_scripts refuses
    name projectType libraryPath initGit d = (Created pr, d') ->
  perform_all refuses d
    (MkdirRecursive (path_join libraryPath name)
       :: template_ops path_join toLowerCase package_json
            (path_join libraryPath name) name projectType
       ++ git_ops path_join (path_join libraryPath name) initGit)
  = (Ok tt, d')
  /\ path pr = path_join libraryPath name
  /\ Scaffold.name pr = name
  /\ has_git pr = initGit
  /\ Scaffold.remote_url pr = None
  /\ Scaffold.branch pr = (if initGit then Some (u "main") else None)
  /\ outcome (detectProjectType path_join (disk_exists d')
                (path_join libraryPath name)) = Ok (project_type pr)
  /\ description pr = u "A new " ++ type_name (project_type pr) ++ u " project".
Proof.
  unfold create_project.
  destruct (perform_all refuses d _) as [[[]|e] d1] eqn:Hops; [|discriminate].
  rewrite outcome_bind, detectProjectType_value. cbv beta iota.
  destruct (getScripts_never_throws d1 (path_join libraryPath name)) as [l Hl].
  rewrite outcome_bind, Hl. unfold ret, outcome. cbn [snd]. intros [= <- <-].
  cbn [path Scaffold.name has_git Scaffold.remote_url Scaffold.branch
       project_type description].
  repeat split. apply detectProjectType_value.
Qed.

End ScaffoldFacts.

Section ScaffoldClaims.
Import Library Scaffold.
Variable path_join : jsstring -> jsstring -> jsstring.
Variable toLowerCase : jsstring -> jsstring.
Variable package_json : jsstring -> jsstring.
Variable parse_scripts : jsstring -> result (option (list Script)).
Variable refuses : fs_op -> option jsstring.

(** The three calls of [initGit], once through, leave a repository
    directory with the two files as written. *)
Lemma git_ops_done (p : jsstring) (d1 d' : disk) :
  perform_all refuses d1 (git_ops path_join p true) = (Ok tt, d') ->
  disk_exists d' (path_join p (u ".git")) = true
  /\ (path_join (path_join p (u ".git")) (u "HEAD")
      <> path_join (path_join p (u ".git")) (u "config") ->
      disk_read d' (path_join (path_join p (u ".git")) (u "HEAD")) = Ok git_head)
  /\ disk_read d' (path_join (path_join p (u ".git")) (u "config")) = Ok git_config.
Proof.
  unfold git_ops. cbn [perform_all]. unfold perform_op.
  destruct (refuses (Mkdir _)); [discriminate|].
  destruct (disk_exists d1 (path_join p (u ".git"))); [discriminate|].
  destruct (refuses (WriteFile _ git_head)); [discriminate|].
  cbn [dirs files]. case_bool_decide as HH; [discriminate|].
  destruct (refuses (WriteFile _ git_config)); [discriminate|].
  cbn [dirs files]. case_bool_decide as HC; [discriminate|].
  intros [= <-]. unfold disk_exists, disk_read. cbn [dirs files].
  rewrite (bool_decide_eq_false_2 _ HH), (bool_decide_eq_false_2 _ HC).
  split; [|split].
  - apply orb_true_iff. right.
    apply bool_decide_eq_true, elem_of_union_l, elem_of_singleton. reflexivity.
  - intros Hne. rewrite lookup_insert_ne by congruence.
    rewrite lookup_insert_eq. reflexivity.
  - rewrite lookup_insert_eq. reflexivity.
Qed.

(** X13: a project created with [initGit] reads back as the response
    says. On the disk the request leaves, [getGitInfo] finds a
    repository on branch main without remote, which is what the response
    reports, and the status handler answers with branch main, no remote
    and zero counts. The paths of HEAD and of the configuration file must
    differ. *)
Theorem created_repository_reads_back
  (name projectType libraryPath : jsstring) (d d' : disk) (pr : Project) :
  create_project path_join toLowerCase package_json parse_scripts refuses
    name projectType libraryPath true d = (Created pr, d') ->
  path_join (path_join (path_join libraryPath name) (u ".git")) (u "HEAD")
  <> path_join (path_join (path_join libraryPath name) (u ".git")) (u "config") ->
  outcome (getGitInfo path_join (disk_exists d') (disk_read d') (path pr))
  = Ok {| hasGit := has_git pr;
          info_branch := Scaffold.branch pr;
          info_remoteUrl := Scaffold.remote_url pr |}
  /\ has_git pr = true
  /\ Scaffold.branch pr = Some (u "main")
  /\ Scaffold.remote_url pr = None
  /\ forall exec,
       truthy (path pr) = true ->
       exists g,
         outcome (git_status path_join (disk_exists d') (disk_read d') exec
                    (Some (path pr)))
         = Ok (200%Z, JsonStatus g)
         /\ Git.branch g = u "main" /\ Git.remote_url g = None
         /\ ahead g = 0%Z /\ behind g = 0%Z.
Proof.
  intros Hc Hne.
  destruct (create_project_created _ _ _ _ _ _ _ _ _ _ _ _ Hc)
    as [Hops [Hpath [_ [Hgit [Hrem [Hbr _]]]]]].
  rewrite Hpath, Hgit, Hrem, Hbr. set (p := path_join libraryPath name) in *.
  change (MkdirRecursive p :: ?a ++ ?b) with ((MkdirRecursive p :: a) ++ b) in Hops.
  rewrite perform_all_app in Hops.
  destruct (perform_all refuses d (MkdirRecursive p :: _)) as [[[]|e] d1];
    [|discriminate Hops].
  destruct (git_ops_done p d1 d' Hops) as [Hex [Hhead Hconf]].
  specialize (Hhead Hne).
  assert (Hb : head_branch path_join (disk_read d') p = Some (u "main")).
  { unfold head_branch, gitDir. rewrite Hhead. reflexivity. }
  assert (Hr : config_remote path_join (disk_read d') p = None).
  { unfold config_remote, gitDir. rewrite Hconf. reflexivity. }
  split.
  { rewrite getGitInfo_value, Hex, Hb, Hr. reflexivity. }
  repeat split.
  intros exec Hp. exists (snapshot path_join (disk_read d') exec p).
  split; [apply git_status_in_repository; assumption|].
  cbn [snapshot Git.branch Git.remote_url ahead behind]. unfold fetched.
  rewrite Hb, Hr. repeat split.
Qed.

(** X14: the handler refuses to build on what is there. A request with
    [initGit] for a directory that already has [.git], and a request for
    a node project in a directory that already has [src], are answered
    with status 500 and remove nothing; so a request that succeeded fails
    when it is sent again, if it asked for a repository or for a node
    project. *)
Theorem create_project_cannot_be_repeated
  (name projectType libraryPath : jsstring) (initGit : bool) :
  (forall d,
      (initGit = true
       /\ disk_exists d (path_join (path_join libraryPath name) (u ".git")) = true)
      \/ (projectType = u "node"
          /\ disk_exists d (path_join (path_join libraryPath name) (u "src")) = true) ->
      exists message d',
        create_project path_join toLowerCase package_json parse_scripts refuses
          name projectType libraryPath initGit d = (Failed 500 message, d')
        /\ keeps d d')
  /\ (forall d d' pr,
         create_project path_join toLowerCase package_json parse_scripts refuses
           name projectType libraryPath initGit d = (Created pr, d') ->
         initGit = true \/ projectType = u "node" ->
         exists message d'',
           create_project path_join toLowerCase package_json parse_scripts refuses
             name projectType libraryPath initGit d' = (Failed 500 message, d'')).
Proof.
  set (p := path_join libraryPath name).
  assert (Hin : forall q,
    (initGit = true /\ q = path_join p (u ".git"))
    \/ (projectType = u "node" /\ q = path_join p (u "src")) ->
    Mkdir q ∈ MkdirRecursive p
               :: template_ops path_join toLowerCase package_json p name projectType
               ++ git_ops path_join p initGit).
  { intros q [[-> ->] | [-> ->]]; apply elem_of_cons; right; apply elem_of_app.
    - right. apply list_elem_of_In. left. reflexivity.
    - left. unfold template_ops. rewrite bool_decide_eq_true_2 by reflexivity.
      apply list_elem_of_In. right. right. left. reflexivity. }
  assert (Htaken : forall d q,
    (initGit = true /\ q = path_join p (u ".git"))
    \/ (projectType = u "node" /\ q = path_join p (u "src")) ->
    disk_exists d q = true ->
    exists message d',
      create_project path_join toLowerCase package_json parse_scripts refuses
        name projectType libraryPath initGit d = (Failed 500 message, d')
      /\ keeps d d').
  { intros d q Hq Hex.
    destruct (perform_all_mkdir_taken refuses _ d q (Hin q Hq) Hex) as [e [d' He]].
    exists e, d'. unfold create_project. fold p. rewrite He.
    split; [reflexivity|]. apply (perform_all_keeps refuses _ _ _ _ He). }
  split.
  - intros d [[Hg Hex] | [Ht Hex]]; eapply Htaken; eauto.
  - intros d d' pr Hc Hwhich.
    destruct (create_project_created _ _ _ _ _ _ _ _ _ _ _ _ Hc) as [Hops _].
    fold p in Hops. destruct (perform_all_made refuses _ _ _ Hops) as [Hm _].
    destruct Hwhich as [Hg | Ht].
    + destruct (Htaken d' (path_join p (u ".git")) (or_introl (conj Hg eq_refl)))
        as [m [d'' [H _]]]; [apply Hm, Hin; auto|eauto].
    + destruct (Htaken d' (path_join p (u "src")) (or_intror (conj Ht eq_refl)))
        as [m [d'' [H _]]]; [apply Hm, Hin; auto|eauto].
Qed.

(** X15: the type in the response is the one detected on the disk after
    the files are written, not the one asked for. It is node exactly
    when package.json is there afterwards: always for a node request,
    and for any request into a directory that already held a
    package.json. A python request is reported as python when no
    package.json is there; and the description names the detected type. *)
Theorem created_project_type_is_detected
  (name projectType libraryPath : jsstring) (initGit : bool)
  (d d' : disk) (pr : Project) :
  create_project path_join toLowerCase package_json parse_scripts refuses
    name projectType libraryPath initGit d = (Created pr, d') ->
  (project_type pr = node
   <-> disk_exists d' (path_join (path_join libraryPath name) (u "package.json"))
       = true)
  /\ (projectType = u "node" -> project_type pr = node)
  /\ (disk_exists d (path_join (path_join libraryPath name) (u "package.json"))
      = true -> project_type pr = node)
  /\ (projectType = u "python" ->
      disk_exists d' (path_join (path_join libraryPath name) (u "package.json"))
      = false -> project_type pr = python)
  /\ description pr = u "A new " ++ type_name (project_type pr) ++ u " project".
Proof.
  intros Hc.
  destruct (create_project_created _ _ _ _ _ _ _ _ _ _ _ _ Hc)
    as [Hops [_ [_ [_ [_ [_ [Hty Hdesc]]]]]]].
  set (p := path_join libraryPath name) in *.
  rewrite detectProjectType_value in Hty. injection Hty as Hty.
  destruct (perform_all_made refuses _ _ _ Hops) as [_ Hw].
  pose proof (perform_all_keeps refuses _ _ _ _ Hops) as Hk.
  assert (Hiff : project_type pr = node
                 <-> disk_exists d' (path_join p (u "package.json")) = true).
  { rewrite <- Hty.
    destruct (disk_exists d' (path_join p (u "package.json")));
      [split; reflexivity|].
    split; [|discriminate].
    repeat match goal with |- context [if ?b then _ else _] => destruct b end;
      discriminate. }
  split; [exact Hiff|]. split; [|split; [|split; [|exact Hdesc]]].
  - intros ->. apply Hiff. eapply Hw. apply elem_of_cons. right.
    apply elem_of_app. left. unfold template_ops.
    rewrite bool_decide_eq_true_2 by reflexivity. apply list_elem_of_In. left.
    reflexivity.
  - intros Hex. apply Hiff. apply (keeps_exists d d' _ Hk Hex).
  - intros -> Hno. rewrite <- Hty, Hno.
    assert (Hreq : disk_exists d' (path_join p (u "requirements.txt")) = true).
    { eapply Hw. apply elem_of_cons. right. apply elem_of_app. left.
      unfold template_ops. rewrite bool_decide_eq_false_2 by discriminate.
      rewrite bool_decide_eq_true_2 by reflexivity. apply list_elem_of_In. left.
      reflexivity. }
    rewrite Hreq. reflexivity.
Qed.

(** X16: the handler never removes or rolls back anything. Whatever it
    answers, every file and directory that existed before exists
    afterwards; and when it answers with a failure, the status is 500,
    the message is that of the first call that threw, and everything on
    the disk after the calls made before that one is still there. *)
Theorem create_project_never_rolls_back
  (name projectType libraryPath : jsstring) (initGit : bool)
  (d d' : disk) (r : reply) :
  create_project path_join toLowerCase package_json parse_scripts refuses
    name projectType libraryPath initGit d = (r, d') ->
  keeps d d'
  /\ forall status message,
       r = Failed status message ->
       status = 500%Z
       /\ exists done op rest d1,
            MkdirRecursive (path_join libraryPath name)
              :: template_ops path_join toLowerCase package_json
                   (path_join libraryPath name) name projectType
              ++ git_ops path_join (path_join libraryPath name) initGit
            = done ++ op :: rest
            /\ perform_all refuses d done = (Ok tt, d1)
            /\ fst (perform_op refuses d1 op) = Throw message
            /\ keeps d1 d'.
Proof.
  unfold create_project.
  destruct (perform_all refuses d _) as [[[]|e] d1] eqn:Hops.
  - rewrite outcome_bind, detectProjectType_value. cbv beta iota.
    destruct (getScripts_never_throws path_join parse_scripts d1
                (path_join libraryPath name)) as [l Hl].
    rewrite outcome_bind, Hl. unfold ret, outcome. cbn [snd].
    intros [= <- <-]. split; [apply (perform_all_keeps refuses _ _ _ _ Hops)|].
    intros status message H. discriminate H.
  - intros [= <- <-]. split; [apply (perform_all_keeps refuses _ _ _ _ Hops)|].
    intros status message [= <- <-]. split; [reflexivity|].
    destruct (perform_all_failure refuses _ _ _ _ Hops)
      as (done & op & rest & Hsplit & Hdone & Hop).
    exists done, op, rest, d1. split; [exact Hsplit|]. split; [exact Hdone|].
    split; [rewrite Hop; reflexivity|apply keeps_refl].
Qed.

End ScaffoldClaims.

Lemma created_repository_reads_back_witness :
  exists pr d',
    Scaffold.create_project Sample.path_join (fun s => s)
      (fun n => u "{ name: " ++ n ++ u " }") (fun _ => Ok None) (fun _ => None)
      (u "app") (u "python") (u "/lib") true Scaffold.empty_disk
    = (Scaffold.Created pr, d')
    /\ outcome (Library.getGitInfo Sample.path_join (Scaffold.disk_exists d')
                  (Scaffold.disk_read d') (Scaffold.path pr))
       = Ok {| Library.hasGit := Scaffold.has_git pr;
               Library.info_branch := Scaffold.branch pr;
               Library.info_remoteUrl := Scaffold.remote_url pr |}
    /\ Scaffold.has_git pr = true
    /\ Scaffold.branch pr = Some (u "main").
Proof.
  destruct (Scaffold.create_project Sample.path_join (fun s => s)
              (fun n => u "{ name: " ++ n ++ u " }") (fun _ => Ok None)
              (fun _ => None)
              (u "app") (u "python") (u "/lib") true Scaffold.empty_disk)
    as [[pr|s m] d'] eqn:Hr; [|vm_compute in Hr; discriminate Hr].
  exists pr, d'. split; [reflexivity|].
  destruct (created_repository_reads_back Sample.path_join (fun s => s)
              (fun n => u "{ name: " ++ n ++ u " }") (fun _ => Ok None)
              (fun _ => None) (u "app") (u "python") (u "/lib")
              Scaffold.empty_disk d' pr Hr ltac:(vm_compute; discriminate))
    as [H1 [H2 [H3 _]]].
  repeat split; assumption.
Defined.

Lemma create_project_cannot_be_repeated_witness :
  exists pr d' message d'',
    Scaffold.create_project Sample.path_join (fun s => s)
      (fun n => u "{ name: " ++ n ++ u " }") (fun _ => Ok None) (fun _ => None)
      (u "app") (u "node") (u "/lib") false Scaffold.empty_disk
    = (Scaffold.Created pr, d')
    /\ Scaffold.create_project Sample.path_join (fun s => s)
         (fun n => u "{ name: " ++ n ++ u " }") (fun _ => Ok None) (fun _ => None)
         (u "app") (u "node") (u "/lib") false d'
       = (Scaffold.Failed 500 message, d'').
Proof.
  destruct (Scaffold.create_project Sample.path_join (fun s => s)
              (fun n => u "{ name: " ++ n ++ u " }") (fun _ => Ok None)
              (fun _ => None)
              (u "app") (u "node") (u "/lib") false Scaffold.empty_disk)
    as [[pr|s m] d'] eqn:Hr; [|vm_compute in Hr; discriminate Hr].
  destruct (proj2 (create_project_cannot_be_repeated Sample.path_join
                     (fun s => s) (fun n => u "{ name: " ++ n ++ u " }")
                     (fun _ => Ok None) (fun _ => None)
                     (u "app") (u "node") (u "/lib") false)
              Scaffold.empty_disk d' pr Hr (or_intror eq_refl))
    as [message [d'' H]].
  exists pr, d', message, d''. split; [reflexivity|exact H].
Defined.

Lemma created_project_type_is_detected_witness :
  exists pr d',
    Scaffold.create_project Sample.path_join (fun s => s)
      (fun n => u "{ name: " ++ n ++ u " }") (fun _ => Ok None) (fun _ => None)
      (u "app") (u "node") (u "/lib") true Scaffold.empty_disk
    = (Scaffold.Created pr, d')
    /\ Scaffold.project_type pr = Library.node
    /\ Scaffold.description pr = u "A new node project".
Proof.
  destruct (Scaffold.create_project Sample.path_join (fun s => s)
              (fun n => u "{ name: " ++ n ++ u " }") (fun _ => Ok None)
              (fun _ => None)
              (u "app") (u "node") (u "/lib") true Scaffold.empty_disk)
    as [[pr|s m] d'] eqn:Hr; [|vm_compute in Hr; discriminate Hr].
  destruct (created_project_type_is_detected Sample.path_join (fun s => s)
              (fun n => u "{ name: " ++ n ++ u " }") (fun _ => Ok None)
              (fun _ => None) (u "app") (u "node") (u "/lib") true
              Scaffold.empty_disk d' pr Hr) as [_ [Hn [_ [_ Hd]]]].
  exists pr, d'. split; [reflexivity|]. split; [apply Hn; reflexivity|].
  rewrite Hd, (Hn eq_refl). reflexivity.
Defined.

Lemma create_project_never_rolls_back_witness :
  exists r d',
    Scaffold.create_project Sample.path_join (fun s => s)
      (fun n => u "{ name: " ++ n ++ u " }") (fun _ => Ok None)
      (fun op => match op with
                 | Scaffold.Mkdir _ => Some (u "EACCES")
                 | _ => None
                 end)
      (u "app") (u "generic") (u "/lib") true Scaffold.empty_disk
    = (r, d')
    /\ Scaffold.keeps Scaffold.empty_disk d'
    /\ r = Scaffold.Failed 500 (u "EACCES")
    /\ Scaffold.disk_exists d' (u "/lib/app/README.md") = true.
Proof.
  destruct (Scaffold.create_project Sample.path_join (fun s => s)
              (fun n => u "{ name: " ++ n ++ u " }") (fun _ => Ok None)
              (fun op => match op with
                         | Scaffold.Mkdir _ => Some (u "EACCES")
                         | _ => None
                         end)
              (u "app") (u "generic") (u "/lib") true Scaffold.empty_disk)
    as [r d'] eqn:Hr.
  pose proof (create_project_never_rolls_back _ _ _ _ _ _ _ _ _ _ _ _ Hr)
    as [Hk _].
  exists r, d'. split; [reflexivity|]. split; [exact Hk|].
  vm_compute in Hr. injection Hr as <- <-. split; reflexivity.
Defined.

(* ===================================================================== *)
(** * Further properties: names and descriptions                          *)
(* ===================================================================== *)

Section NamingFacts.
Import Scaffold.

Lemma split_first_line (a b : jsstring) :
  Forall (fun c => c <> 10) a -> head (split 10 (a ++ 10 :: b)) = Some a.
Proof.
  intros H. induction H as [|x a Hx _ IH]; cbn [app split].
  - reflexivity.
  - destruct (N.eqb_spec x 10) as [->|_]; [congruence|].
    destruct (split 10 (a ++ 10 :: b)) as [|l ls]; [discriminate IH|].
    cbn in IH. injection IH as ->. reflexivity.
Qed.

Lemma split_nonempty (s : jsstring) : is_Some (head (split 10 s)).
Proof.
  induction s as [|x s IH]; cbn [split]; [eauto|].
  destruct (x =? 10); [eauto|]. destruct (split 10 s); eauto.
Qed.

(** X17: the README written for a python or a generic project reads
    back, in the library scan, as the project name without its leading
    white space, for any name that holds no newline; and the first line
    of any README gives some description. *)
Theorem readme_description_is_the_name (name : jsstring) :
  Forall (fun c => c <> 10) name ->
  readme_description (python_readme name) = Some (trimStart name)
  /\ readme_description (generic_readme name) = Some (trimStart name)
  /\ forall content, is_Some (readme_description content).
Proof.
  intros Hn.
  assert (Hline : Forall (fun c => c <> 10) (u "# " ++ name)).
  { apply Forall_app. split; [repeat constructor; discriminate|exact Hn]. }
  unfold readme_description, python_readme, generic_readme.
  split; [|split].
  - change (u "# " ++ name ++ [10; 10] ++ ?r)
      with ((u "# " ++ name) ++ 10 :: (10 :: r)).
    rewrite (split_first_line _ _ Hline). reflexivity.
  - change (u "# " ++ name ++ [10; 10] ++ ?r)
      with ((u "# " ++ name) ++ 10 :: (10 :: r)).
    rewrite (split_first_line _ _ Hline). reflexivity.
  - intros content. destruct (split_nonempty content) as [l ->]. cbn. eauto.
Qed.

Lemma readme_description_is_the_name_witness :
  readme_description (python_readme (u " My App")) = Some (u "My App").
Proof.
  apply (readme_description_is_the_name (u " My App")).
  repeat constructor; discriminate.
Defined.

Lemma dashes_from_clean (b : bool) (s : jsstring) :
  Forall (fun c => is_space c = false) (dashes_from b s)
  /\ (length (dashes_from b s) <= length s)%nat.
Proof.
  revert b. induction s as [|c s IH]; intros b; cbn [dashes_from].
  - split; [constructor|reflexivity].
  - destruct (is_space c) eqn:Hc.
    + destruct b.
      * destruct (IH true) as [H1 H2]. split; [exact H1|cbn; lia].
      * destruct (IH true) as [H1 H2].
        split; [constructor; [reflexivity|exact H1]|cbn; lia].
    + destruct (IH false) as [H1 H2].
      split; [constructor; assumption|cbn; lia].
Qed.

Lemma dashes_from_fixed (b : bool) (s : jsstring) :
  Forall (fun c => is_space c = false) s -> dashes_from b s = s.
Proof.
  intros H. revert b. induction H as [|c s Hc _ IH]; intros b;
    cbn [dashes_from]; [reflexivity|].
  rewrite Hc, IH. reflexivity.
Qed.

(** X18: the package name written to package.json (the lower-cased
    project name with every run of white space replaced by one dash)
    holds no white space and is no longer than the project name; a name
    without white space is kept as it is, so the replacement applied
    twice changes nothing more. *)
Theorem package_name_has_no_white_space (s : jsstring) :
  Forall (fun c => is_space c = false) (dashes s)
  /\ (length (dashes s) <= length s)%nat
  /\ (Forall (fun c => is_space c = false) s -> dashes s = s)
  /\ dashes (dashes s) = dashes s.
Proof.
  destruct (dashes_from_clean false s) as [H1 H2].
  split; [exact H1|]. split; [exact H2|].
  split; [apply dashes_from_fixed|].
  apply dashes_from_fixed. exact H1.
Qed.

End NamingFacts.

(* ===================================================================== *)
(** * Further properties: what the status handler reads and runs          *)
(* ===================================================================== *)

Section TraceFacts.
Variable path_join : jsstring -> jsstring -> jsstring.
Variable fs_read : jsstring -> result jsstring.
Variable exec : jsstring -> jsstring -> result jsstring.

(** The four blocks of the handler, each with what it does and what it
    leaves in its variables. *)
Lemma read_branch_run (p : jsstring) :
  read_branch path_join fs_read (path_join p (u ".git"))
  = ([ReadFileSync (path_join (path_join p (u ".git")) (u "HEAD"))],
     Ok (head_branch path_join fs_read p)).
Proof.
  unfold read_branch, head_branch, gitDir, readFileSync, perform.
  destruct (fs_read (path_join (path_join p (u ".git")) (u "HEAD")));
    reflexivity.
Qed.

Lemma read_remote_run (p : jsstring) :
  read_remote path_join fs_read (path_join p (u ".git"))
  = ([ReadFileSync (path_join (path_join p (u ".git")) (u "config"))],
     Ok (config_remote path_join fs_read p)).
Proof.
  unfold read_remote, config_remote, gitDir, readFileSync, perform.
  destruct (fs_read (path_join (path_join p (u ".git")) (u "config")));
    reflexivity.
Qed.

Lemma read_status_run (p : jsstring) :
  read_status exec p
  = (ExecSync cmd_status p ::
       match exec cmd_status p with
       | Ok _ => []
       | Throw e => [ConsoleError e]
       end,
     Ok (status_changes exec p)).
Proof.
  unfold read_status, status_changes, execSync, perform.
  destruct (exec cmd_status p); reflexivity.
Qed.

Lemma read_divergence_run (p : jsstring) (b r : option jsstring) :
  exists counts,
    read_divergence exec p b r
    = ((if truthy_opt r then
          ExecSync cmd_fetch p ::
          match exec cmd_fetch p with
          | Ok _ => [ExecSync (cmd_behind b) p; ExecSync (cmd_ahead b) p]
          | Throw _ => []
          end
        else []),
       Ok counts).
Proof.
  unfold read_divergence, execSync, perform.
  destruct (truthy_opt r); [|eexists; reflexivity].
  destruct (exec cmd_fetch p); [|eexists; reflexivity].
  cbn -[cmd_fetch cmd_behind cmd_ahead count_of].
  destruct (exec (cmd_behind b) p); destruct (exec (cmd_ahead b) p);
    eexists; reflexivity.
Qed.

End TraceFacts.

(** X6: the complete trace of the status handler. It tests [.git]; in a
    repository it reads HEAD and the configuration file, runs the status
    command (printing the error when that fails), and only when a remote
    URL was found runs the fetch; only after a successful fetch it runs
    the two range queries, the one for [behind] first, and the second is
    run whether or not the first succeeds. Nothing else is read or run. *)
Theorem git_status_trace
  (path_join : jsstring -> jsstring -> jsstring)
  (fs_exists : jsstring -> bool)
  (fs_read : jsstring -> result jsstring)
  (exec : jsstring -> jsstring -> result jsstring)
  (p : jsstring) :
  truthy p = true ->
  effects (git_status path_join fs_exists fs_read exec (Some p))
  = ExistsSync (path_join p (u ".git")) ::
    if fs_exists (path_join p (u ".git")) then
      [ReadFileSync (path_join (path_join p (u ".git")) (u "HEAD"));
       ReadFileSync (path_join (path_join p (u ".git")) (u "config"));
       ExecSync cmd_status p]
      ++ match exec cmd_status p with
         | Ok _ => []
         | Throw e => [ConsoleError e]
         end
      ++ (if truthy_opt (config_remote path_join fs_read p) then
            ExecSync cmd_fetch p ::
            match exec cmd_fetch p with
            | Ok _ =>
                [ExecSync (cmd_behind (head_branch path_join fs_read p)) p;
                 ExecSync (cmd_ahead (head_branch path_join fs_read p)) p]
            | Throw _ => []
            end
          else [])
    else [].
Proof.
  intros Hp. unfold git_status. cbn [truthy_opt template].
  rewrite Hp. cbn [negb]. unfold existsSync, perform. cbn [bind].
  destruct (fs_exists (path_join p (u ".git"))); cbn [negb]; [|reflexivity].
  rewrite read_branch_run. cbn [bind].
  rewrite read_remote_run. cbn [bind].
  rewrite read_status_run. cbn [bind try_catch].
  destruct (read_divergence_run exec p (head_branch path_join fs_read p)
              (config_remote path_join fs_read p)) as [[a b] ->].
  cbn [bind try_catch ret effects fst app]. rewrite !app_nil_r.
  reflexivity.
Qed.

Lemma git_status_trace_witness :
  effects (git_status Sample.path_join Sample.fs_exists
             (Sample.fs_read (Ok Sample.head_main) (Ok Sample.config_origin))
             (Sample.exec Sample.main (Throw (u "not a repository"))
                (Ok []) (Throw (u "bad revision")) (Ok (u "1")))
             (Some Sample.project))
  = [ExistsSync (u "/proj/.git");
     ReadFileSync (u "/proj/.git/HEAD");
     ReadFileSync (u "/proj/.git/config");
     ExecSync (u "git status --porcelain") (u "/proj");
     ConsoleError (u "not a repository");
     ExecSync (u "git fetch origin") (u "/proj");
     ExecSync (u "git rev-list --count HEAD..origin/main") (u "/proj");
     ExecSync (u "git rev-list --count origin/main..HEAD") (u "/proj")].
Proof.
  rewrite (git_status_trace Sample.path_join Sample.fs_exists
             (Sample.fs_read (Ok Sample.head_main) (Ok Sample.config_origin))
             (Sample.exec Sample.main (Throw (u "not a repository"))
                (Ok []) (Throw (u "bad revision")) (Ok (u "1")))
             Sample.project eq_refl).
  vm_compute. reflexivity.
Defined.

(** X7: the two range queries name the branch as it was read from HEAD,
    not as the response shows it: the two are the same exactly when HEAD
    gave a branch that is not empty. When HEAD cannot be read the
    response says main and the queries, if they are run, ask for
    [origin/null]. *)
Theorem range_queries_use_the_raw_branch
  (path_join : jsstring -> jsstring -> jsstring)
  (fs_exists : jsstring -> bool)
  (fs_read : jsstring -> result jsstring)
  (exec : jsstring -> jsstring -> result jsstring)
  (p fetched_out : jsstring) :
  truthy p = true ->
  fs_exists (path_join p (u ".git")) = true ->
  truthy_opt (config_remote path_join fs_read p) = true ->
  exec cmd_fetch p = Ok fetched_out ->
  exists g raw,
    outcome (git_status path_join fs_exists fs_read exec (Some p))
    = Ok (200%Z, JsonStatus g)
    /\ ExecSync (u "git rev-list --count HEAD..origin/" ++ raw) p
       ∈ effects (git_status path_join fs_exists fs_read exec (Some p))
    /\ ExecSync (u "git rev-list --count origin/" ++ raw ++ u "..HEAD") p
       ∈ effects (git_status path_join fs_exists fs_read exec (Some p))
    /\ (raw = branch g
        <-> exists head,
              fs_read (path_join (path_join p (u ".git")) (u "HEAD")) = Ok head
              /\ branch_of_head (trim head) <> [])
    /\ ((exists e, fs_read (path_join (path_join p (u ".git")) (u "HEAD")) = Throw e) ->
        raw = u "null" /\ branch g = u "main").
Proof.
  intros Hp Hgit Hr Hf.
  exists (snapshot path_join fs_read exec p),
    (template (head_branch path_join fs_read p)).
  split; [apply git_status_in_repository; assumption|].
  assert (Hrun : exists before,
    effects (git_status path_join fs_exists fs_read exec (Some p))
    = before ++ [ExecSync (cmd_behind (head_branch path_join fs_read p)) p;
                 ExecSync (cmd_ahead (head_branch path_join fs_read p)) p]).
  { unfold git_status. cbn [truthy_opt template].
    rewrite Hp. cbn [negb]. unfold existsSync, perform. cbn [bind].
    rewrite Hgit. cbn [negb].
    rewrite read_branch_run. cbn [bind].
    rewrite read_remote_run. cbn [bind].
    rewrite read_status_run. cbn [bind try_catch].
    destruct (read_divergence_run exec p (head_branch path_join fs_read p)
                (config_remote path_join fs_read p)) as [[a b] ->].
    rewrite Hr, Hf. cbn [bind try_catch ret effects fst app].
    rewrite !app_nil_r. eexists (_ :: _ :: _ :: _ :: _ ++ [_]).
    cbn [app]. rewrite <- app_assoc. reflexivity. }
  destruct Hrun as [before ->].
  split; [|split].
  - apply elem_of_app. right. apply list_elem_of_In. left. reflexivity.
  - apply elem_of_app. right. apply list_elem_of_In. right. left. reflexivity.
  - cbn [snapshot branch]. unfold head_branch, gitDir.
    destruct (fs_read (path_join (path_join p (u ".git")) (u "HEAD"))) as [head|e].
    + split; [|intros [e He]; discriminate He].
      destruct (branch_of_head (trim head)) as [|c b] eqn:Hb.
      * split; [discriminate|]. intros [h [[= <-] H]]. congruence.
      * split; [|reflexivity]. intros _. exists head.
        split; [reflexivity|]. rewrite Hb. discriminate.
    + split; [|intros _; split; reflexivity].
      split; [discriminate|]. intros [h [H _]]. discriminate H.
Qed.

Lemma range_queries_use_the_raw_branch_witness :
  ExecSync (u "git rev-list --count HEAD..origin/null") (u "/proj")
  ∈ effects (git_status Sample.path_join Sample.fs_exists
               (Sample.fs_read (Throw (u "EACCES")) (Ok Sample.config_origin))
               (Sample.exec None (Ok []) (Ok []) (Ok (u "0")) (Ok (u "0")))
               (Some Sample.project)).
Proof.
  destruct (range_queries_use_the_raw_branch Sample.path_join Sample.fs_exists
              (Sample.fs_read (Throw (u "EACCES")) (Ok Sample.config_origin))
              (Sample.exec None (Ok []) (Ok []) (Ok (u "0")) (Ok (u "0")))
              Sample.project [] eq_refl eq_refl eq_refl eq_refl)
    as [g [raw [_ [Hb [_ [_ Hnull]]]]]].
  destruct (Hnull (ex_intro _ (u "EACCES") eq_refl)) as [Hraw _].
  rewrite Hraw in Hb. exact Hb.
Defined.
